(** * hierarchical_code_learning: batch sampler and supervised losses

    A shallow embedding of
      - [src/model/loss_supervised.py]  (modules [Torch], [LossSupervised])
      - [src/dataset/embeddings_plus_lexical_knowledge.py]  (module [Dataset])
    and the properties of the specification that concern them.

    Conventions of the embedding.
      - Python exceptions are values of [Py.exn]; a computation that may
        raise returns a [Py.result].
      - Tensor entries and Python floats are exact rationals ([Q]); decimal
        literals such as [1E-6] stand for their decimal value, and an
        operation whose float result would be [inf] or [nan] raises the
        marker [Py.NonFinite].  Floating point rounding is modelled for the
        MSE metrics only, in module [Ieee].
      - A tensor is a shape and its row-major storage; every torch operation
        is defined for every rank through the entry it puts at each index of
        the result.
      - Random draws ([np.random.choice], the taxonomy samplers) and the
        iteration order of a Python [set] are parameters. *)

From Stdlib Require Import QArith Qround Qabs Lqa Lia ZArith List Permutation.
From Stdlib Require SpecFloat.
From stdpp Require Import gmap strings list fin_maps.

Local Open Scope string_scope.
Local Open Scope list_scope.

(* ===================================================================== *)
(** * Python values and exceptions *)
(* ===================================================================== *)

Module Py.

Inductive exn : Set :=
| AssertionError
| AttributeError
| IndexError
| KeyError
| NotImplementedError
| RuntimeError
| TypeError
| ValueError
| ZeroDivisionError
| NonFinite.

Inductive result (A : Type) : Type :=
| Ok (a : A)
| Raise (e : exn).

Arguments Ok {A} a.
Arguments Raise {A} e.

Definition bind {A B : Type} (m : result A) (k : A -> result B) : result B :=
  match m with
  | Ok a => k a
  | Raise e => Raise e
  end.

Definition is_ok {A : Type} (m : result A) : bool :=
  match m with Ok _ => true | Raise _ => false end.

(** [assert c] *)
Definition assert (c : bool) : result unit :=
  if c then Ok tt else Raise AssertionError.

(** [[f x for x in l]] where [f] may raise: the first exception wins. *)
Fixpoint traverse {A B : Type} (f : A -> result B) (l : list A) : result (list B) :=
  match l with
  | [] => Ok []
  | x :: r =>
      bind (f x) (fun y => bind (traverse f r) (fun ys => Ok (y :: ys)))
  end.

End Py.

Import Py.

(** The exception monad, with stdpp's notation [x ← m; k]. *)
#[global] Instance result_ret : MRet result := @Ok.
#[global] Instance result_bind : MBind result := fun A B k m => Py.bind m k.

(* ===================================================================== *)
(** * The torch operations used by the losses *)
(* ===================================================================== *)

Module Torch.

Record tensor : Type := Tensor { shape : list nat; data : list Q }.

Definition numel (s : list nat) : nat := fold_right Nat.mul 1%nat s.

(** All indices of a shape, in row-major (storage) order. *)
Fixpoint all_indices (s : list nat) : list (list nat) :=
  match s with
  | [] => [[]]
  | n :: s' => flat_map (fun i => map (cons i) (all_indices s')) (seq 0 n)
  end.

(** Storage offset of an index. *)
Fixpoint offset (s idx : list nat) : nat :=
  match s, idx with
  | _ :: s', i :: idx' => (i * numel s' + offset s' idx')%nat
  | _, _ => 0%nat
  end.

Definition get (t : tensor) (idx : list nat) : Q :=
  nth (offset (shape t) idx) (data t) 0%Q.

Definition tabulate (s : list nat) (g : list nat -> Q) : tensor :=
  Tensor s (map g (all_indices s)).

Definition rank (t : tensor) : nat := length (shape t).

(** [idx] addresses an entry of a tensor of shape [s]. *)
Definition valid_index (idx s : list nat) : Prop := Forall2 lt idx s.

(** [length data = numel shape]: what every tensor built by torch satisfies. *)
Definition well_formed (t : tensor) : Prop :=
  length (data t) = numel (shape t).

(** ** Constructors *)

(** [torch.tensor(x)] for a Python number, and the 0-dim result of a full
    reduction. *)
Definition scalar (x : Q) : tensor := Tensor [] [x].

(** [torch.tensor([x0, x1, ...])] *)
Definition of_list (l : list Q) : tensor := Tensor [length l] l.

Definition full (s : list nat) (x : Q) : tensor := tabulate s (fun _ => x).
Definition zeros (s : list nat) : tensor := full s 0%Q.
Definition ones (s : list nat) : tensor := full s 1%Q.

(** [torch.arange(n)] *)
Definition arange (n : nat) : tensor :=
  tabulate [n] (fun idx => inject_Z (Z.of_nat (hd 0%nat idx))).

(** ** Shape queries *)

(** [t.shape[-1]] *)
Definition shape_last (t : tensor) : result nat :=
  match rev (shape t) with
  | [] => Raise IndexError
  | n :: _ => Ok n
  end.

(** [t.shape[i]] for [0 <= i] *)
Definition shape_at (t : tensor) (i : nat) : result nat :=
  match nth_error (shape t) i with
  | Some n => Ok n
  | None => Raise IndexError
  end.

(** [a, b = t.shape[-2:]] *)
Definition shape_last2 (t : tensor) : result (nat * nat) :=
  match rev (shape t) with
  | b :: a :: _ => Ok (a, b)
  | _ => Raise ValueError
  end.

(** [t.shape[:-1] + (1,)] *)
Definition pad_shape (t : tensor) : list nat := removelast (shape t) ++ [1%nat].

(** ** Pointwise operations with a Python scalar *)

Definition tmap (f : Q -> Q) (t : tensor) : tensor :=
  Tensor (shape t) (map f (data t)).

(** [c - t] *)
Definition rsub (c : Q) (t : tensor) : tensor := tmap (fun x => c - x)%Q t.
(** [t + c] *)
Definition add_scalar (t : tensor) (c : Q) : tensor := tmap (fun x => x + c)%Q t.
(** [t * c] *)
Definition mul_scalar (t : tensor) (c : Q) : tensor := tmap (fun x => x * c)%Q t.
(** [t ** 2] *)
Definition square (t : tensor) : tensor := tmap (fun x => x * x)%Q t.
(** [t / c]; a zero divisor gives [inf] or [nan]. *)
Definition div_scalar (t : tensor) (c : Q) : result tensor :=
  if Qeq_bool c 0 then Raise NonFinite
  else Ok (tmap (fun x => x / c)%Q t).

Definition clampq (lo hi x : Q) : Q :=
  if Qlt_le_dec x lo then lo else if Qlt_le_dec hi x then hi else x.

(** [torch.clamp(t, min=lo, max=hi)] *)
Definition clamp (t : tensor) (lo hi : Q) : tensor := tmap (clampq lo hi) t.

(** [F.relu] *)
Definition relu (t : tensor) : tensor :=
  tmap (fun x => if Qlt_le_dec x 0 then 0%Q else x) t.

(** ** Broadcasting *)

Definition bdim (d d' : nat) : option nat :=
  if (d =? d')%nat then Some d
  else if (d =? 1)%nat then Some d'
  else if (d' =? 1)%nat then Some d
  else None.

(** Shapes are aligned at their last dimension: both arguments and the
    result of [bshape_rev] list the last dimension first. *)
Fixpoint bshape_rev (s s' : list nat) : option (list nat) :=
  match s, s' with
  | [], _ => Some s'
  | _, [] => Some s
  | d :: r, d' :: r' =>
      match bdim d d', bshape_rev r r' with
      | Some e, Some q => Some (e :: q)
      | _, _ => None
      end
  end.

Definition bshape (s s' : list nat) : option (list nat) :=
  match bshape_rev (rev s) (rev s') with
  | Some q => Some (rev q)
  | None => None
  end.

(** The index of the operand entry that is read for index [idx] of the
    broadcast result (last dimension first). *)
Fixpoint bidx_rev (s idx : list nat) : list nat :=
  match s, idx with
  | d :: r, i :: idx' => (if (d =? 1)%nat then 0%nat else i) :: bidx_rev r idx'
  | _, _ => []
  end.

Definition bidx (s idx : list nat) : list nat :=
  rev (bidx_rev (rev s) (rev idx)).

(** A tensor of shape [s] can be expanded to the shape [c]
    ([torch.Tensor.expand]): aligned at the last dimension, each dimension of
    [s] is the one of [c], or 1. *)
Fixpoint expandable_rev (s c : list nat) : Prop :=
  match s, c with
  | [], _ => True
  | _ :: _, [] => False
  | d :: s', e :: c' => (d = e \/ d = 1%nat) /\ expandable_rev s' c'
  end.

Definition expandable (s c : list nat) : Prop := expandable_rev (rev s) (rev c).

(** The entry of [t] that broadcasting reads at index [idx] of the result. *)
Definition bget (t : tensor) (idx : list nat) : Q :=
  get t (bidx (shape t) idx).

(** [a op b] for tensors, with broadcasting. *)
Definition binop (f : Q -> Q -> Q) (a b : tensor) : result tensor :=
  match bshape (shape a) (shape b) with
  | Some s => Ok (tabulate s (fun idx => f (bget a idx) (bget b idx)))
  | None => Raise RuntimeError
  end.

Definition add := binop Qplus.
Definition sub := binop Qminus.
Definition mul := binop Qmult.

(** ** Reductions and scans along the last dimension *)

Definition qsum (l : list Q) : Q := fold_left Qplus l 0%Q.

(** [x 0 * x 1 * ... * x k], multiplied in this order. *)
Fixpoint prod_upto (x : nat -> Q) (k : nat) : Q :=
  match k with
  | O => x 0%nat
  | S k' => (prod_upto x k' * x k)%Q
  end.

(** [torch.sum(t)] *)
Definition sum_all (t : tensor) : tensor := scalar (qsum (data t)).

(** [torch.sum(t, dim=-1)] *)
Definition sum_last (t : tensor) : tensor :=
  match rev (shape t) with
  | [] => t
  | n :: _ =>
      tabulate (removelast (shape t))
        (fun idx => qsum (map (fun k => get t (idx ++ [k])) (seq 0 n)))
  end.

(** [torch.cumprod(t, dim=-1)] *)
Definition cumprod_last (t : tensor) : tensor :=
  match shape t with
  | [] => t
  | _ =>
      tabulate (shape t)
        (fun idx => prod_upto (fun j => get t (removelast idx ++ [j])) (List.last idx 0%nat))
  end.

(** [torch.cat((a, b), dim=-1)] *)
Definition cat_last (a b : tensor) : result tensor :=
  match rev (shape a), rev (shape b) with
  | n :: _, m :: _ =>
      if decide (removelast (shape a) = removelast (shape b)) then
        Ok (tabulate (removelast (shape a) ++ [(n + m)%nat])
              (fun idx =>
                 let k := List.last idx 0%nat in
                 if (k <? n)%nat then get a idx
                 else get b (removelast idx ++ [(k - n)%nat])))
      else Raise RuntimeError
  | _, _ => Raise RuntimeError
  end.

(** [torch.narrow(t, dim=-1, start=0, length=len)] *)
Definition narrow_last (t : tensor) (len : nat) : result tensor :=
  match rev (shape t) with
  | [] => Raise IndexError
  | n :: _ =>
      if (len <=? n)%nat then
        Ok (tabulate (removelast (shape t) ++ [len]) (fun idx => get t idx))
      else Raise RuntimeError
  end.

(** [torch.index_select(t, dim=-1, index=torch.tensor(i))]: the selected
    dimension is kept, with size 1. *)
Definition index_select_last (t : tensor) (i : nat) : result tensor :=
  match rev (shape t) with
  | [] => Raise IndexError
  | n :: _ =>
      if (i <? n)%nat then
        Ok (tabulate (removelast (shape t) ++ [1%nat])
              (fun idx => get t (removelast idx ++ [i])))
      else Raise IndexError
  end.

(** [torch.index_select(t, dim=0, index=torch.tensor(idxs))] *)
Definition index_select_first (t : tensor) (idxs : list nat) : result tensor :=
  match shape t with
  | [] =>
      (* a 0-dim tensor is selected from as a one-element vector, and the
         result is 0-dim *)
      match idxs with
      | [O] => Ok t
      | _ => Raise IndexError
      end
  | n :: s' =>
      if forallb (fun i => (i <? n)%nat) idxs then
        Ok (tabulate (length idxs :: s')
              (fun idx =>
                 match idx with
                 | j :: rest => get t (nth j idxs 0%nat :: rest)
                 | [] => 0%Q
                 end))
      else Raise IndexError
  end.

(** [t.squeeze()]: every dimension of size 1 is removed; the storage is
    unchanged. *)
Definition squeeze (t : tensor) : tensor :=
  Tensor (List.filter (fun d => negb (d =? 1)%nat) (shape t)) (data t).

(** [bool(t)] for the comparison [t > 0]: defined for one-element tensors. *)
Definition is_positive (t : tensor) : result bool :=
  match data t with
  | [x] => Ok (if Qlt_le_dec 0 x then true else false)
  | _ => Raise RuntimeError
  end.

End Torch.

(* ===================================================================== *)
(** * src/model/loss_supervised.py *)
(* ===================================================================== *)

Module LossSupervised.

Import Torch.

(** Functions of the torch library whose values are not rational, or whose
    definition depends on the torch version. They are parameters of the
    distance metrics that call them. *)
Record torch_ext : Type := {
  (** [vec.std(dim=-1, keepdim=True)] *)
  ext_std : tensor -> result tensor;
  (** [F.cosine_similarity(u, v, 0, 1e-8)] *)
  ext_cosine_similarity : tensor -> tensor -> result tensor;
  (** [F.binary_cross_entropy(u, v, reduction=reduction)] *)
  ext_binary_cross_entropy : tensor -> tensor -> string -> result tensor
}.

(** ** torch.nn.functional and torch.nn.modules.loss *)

(** [torch.mean(t)] *)
Definition mean_all (t : tensor) : result tensor :=
  match data t with
  | [] => Raise NonFinite
  | _ => Ok (scalar (qsum (data t) / inject_Z (Z.of_nat (length (data t))))%Q)
  end.

(** The reduction step shared by [F.mse_loss] and [F.l1_loss]. *)
Definition reduce_loss (reduction : string) (t : tensor) : result tensor :=
  if String.eqb reduction "none" then Ok t
  else if String.eqb reduction "mean" then mean_all t
  else if String.eqb reduction "sum" then Ok (sum_all t)
  else Raise ValueError.

(** [F.mse_loss(u, v, reduction=reduction)] *)
Definition mse_loss (u v : tensor) (reduction : string) : result tensor :=
  d ← sub u v; reduce_loss reduction (square d).

(** [F.l1_loss(u, v, reduction=reduction)] *)
Definition l1_loss (u v : tensor) (reduction : string) : result tensor :=
  d ← sub u v; reduce_loss reduction (tmap Qabs d).

(** [_Reduction.legacy_get_string(size_average, reduce)] *)
Definition legacy_get_string (size_average reduce : option bool) : string :=
  let size_average := default true size_average in
  let reduce := default true reduce in
  if size_average && reduce then "mean"
  else if reduce then "sum"
  else "none".

(** The attribute [reduction] set by [_Loss.__init__]. *)
Definition _Loss__init__ (size_average reduce : option bool) (reduction : string) : string :=
  match size_average, reduce with
  | None, None => reduction
  | _, _ => legacy_get_string size_average reduce
  end.

(** [a / b] for tensors; a zero divisor gives [inf] or [nan]. *)
Definition div (a b : tensor) : result tensor :=
  if existsb (fun x => Qeq_bool x 0) (data b) then Raise NonFinite
  else binop Qdiv a b.

(** [vec.mean(dim=-1, keepdim=True)] *)
Definition mean_last_keepdim (t : tensor) : result tensor :=
  match rev (shape t) with
  | [] => Ok t
  | O :: _ => Raise NonFinite
  | n :: _ =>
      Ok (tabulate (pad_shape t)
            (fun idx =>
               (qsum (map (fun k => get t (removelast idx ++ [k])) (seq 0 n))
                / inject_Z (Z.of_nat n))%Q))
  end.

(** An instance of one of the loss classes. A bound method stored in an
    attribute is a function of the attribute of [self] that it reads when
    it is called, [self.reduction]. *)
Record loss : Type := {
  reduction : string;
  _scale : Q;
  _normalize_code_length : bool;
  _normalize_coef_for_gt : Q;
  _distance_metric : string;
  _func_distance : string -> tensor -> tensor -> result tensor;
  (** set by [HyponymyScoreLoss.__init__] only *)
  _normalize_hyponymy_score : option bool
}.

(** ** class CodeLengthPredictionLoss *)

Module CodeLengthPredictionLoss.

Section Metrics.

Variable ext : torch_ext.

Definition _standardize (vec : tensor) : result tensor :=
  means ← mean_last_keepdim vec;
  stds ← ext_std ext vec;
  c ← sub vec means;
  div c (add_scalar stds (1 # 1000000)).

Definition _scale_dynamic (vec : tensor) : result tensor :=
  stds ← ext_std ext vec;
  div vec (add_scalar stds (1 # 1000000)).

Definition _mse (reduction : string) (u v : tensor) : result tensor :=
  mse_loss u v reduction.

Definition _scaled_mse (reduction : string) (u v : tensor) : result tensor :=
  su ← _scale_dynamic u;
  sv ← _scale_dynamic v;
  mse_loss su sv reduction.

Definition _standardized_mse (reduction : string) (u v : tensor) : result tensor :=
  su ← _standardize u;
  sv ← _standardize v;
  mse_loss su sv reduction.

(** The local variable [scale] of [_auto_scaled_mse] and of
    [_positive_auto_scaled_mse] before its [max]:
    [torch.sum(u*v) / (torch.sum(u**2) + 1E-6)]. *)
Definition fitted_scale (u v : tensor) : result tensor :=
  uv ← mul u v;
  div (sum_all uv) (add_scalar (sum_all (square u)) (1 # 1000000)).

Definition _auto_scaled_mse (reduction : string) (u v : tensor) : result tensor :=
  scale ← fitted_scale u v;
  positive ← is_positive scale;
  if positive : bool then
    su ← mul scale u;
    mse_loss su v reduction
  else _scaled_mse reduction u v.

Definition _positive_auto_scaled_mse (reduction : string) (u v : tensor) : result tensor :=
  fitted ← fitted_scale u v;
  (* [max(1.0, fitted)] is [fitted] when [fitted > 1.0], else [1.0] *)
  larger ← is_positive (add_scalar fitted (- (1))%Q);
  su ← (if larger : bool then mul fitted u else Ok (mul_scalar u 1));
  mse_loss su v reduction.

Definition _mae (reduction : string) (u v : tensor) : result tensor :=
  l1_loss u v reduction.

Definition _scaled_mae (reduction : string) (u v : tensor) : result tensor :=
  su ← _scale_dynamic u;
  sv ← _scale_dynamic v;
  l1_loss su sv reduction.

Definition _cosine_distance (reduction : string) (u v : tensor) : result tensor :=
  c ← ext_cosine_similarity ext u v;
  Ok (rsub 1 c).

Definition _hinge_distance (reduction : string) (y_pred y_true : tensor) : result tensor :=
  d ← sub y_pred y_true;
  let hinge_loss := relu d in
  if String.eqb reduction "mean" then mean_all hinge_loss
  else if String.eqb reduction "sum" then Ok (sum_all hinge_loss)
  else if String.eqb reduction "none" then Ok hinge_loss
  else Raise NotImplementedError.

Definition _bce (reduction : string) (u v : tensor) : result tensor :=
  ext_binary_cross_entropy ext u v reduction.

(** The distance methods that the class defines, by attribute name. *)
Definition distance_methods :
  list (string * (string -> tensor -> tensor -> result tensor)) :=
  [ ("_mse", _mse);
    ("_scaled_mse", _scaled_mse);
    ("_standardized_mse", _standardized_mse);
    ("_auto_scaled_mse", _auto_scaled_mse);
    ("_positive_auto_scaled_mse", _positive_auto_scaled_mse);
    ("_mae", _mae);
    ("_scaled_mae", _scaled_mae);
    ("_cosine_distance", _cosine_distance);
    ("_hinge_distance", _hinge_distance);
    ("_bce", _bce) ].

(** [self.<name>] for a distance method: a name that the class does not
    define raises [AttributeError]. *)
Fixpoint lookup_method (name : string)
    (table : list (string * (string -> tensor -> tensor -> result tensor)))
  : result (string -> tensor -> tensor -> result tensor) :=
  match table with
  | [] => Raise AttributeError
  | (n, f) :: rest => if String.eqb n name then Ok f else lookup_method name rest
  end.

Definition getattr (name : string) := lookup_method name distance_methods.

(** The [if]/[elif] chain of [__init__]: the attribute read by the
    branch taken, and [None] in the [else] branch. *)
Definition dispatch (distance_metric : string) : option string :=
  if String.eqb distance_metric "mse" then Some "_mse"
  else if String.eqb distance_metric "scaled-mse" then Some "_scaled_mse"
  else if String.eqb distance_metric "standardized-mse" then Some "_standardized_mse"
  else if String.eqb distance_metric "autoscaled-mse" then Some "_auto_scaled_mse"
  else if String.eqb distance_metric "positive-autoscaled-mse" then Some "_positive_auto_scaled_mse"
  else if String.eqb distance_metric "batchnorm-mse" then Some "_batchnorm_mse"
  else if String.eqb distance_metric "mae" then Some "_mae"
  else if String.eqb distance_metric "scaled-mae" then Some "_scaled_mae"
  else if String.eqb distance_metric "cosine" then Some "_cosine_distance"
  else if String.eqb distance_metric "hinge" then Some "_hinge_distance"
  else if String.eqb distance_metric "binary-cross-entropy" then Some "_bce"
  else None.

Definition __init__ (scale : Q) (normalize_code_length : bool)
    (normalize_coefficient_for_ground_truth : Q) (distance_metric : string)
    (size_average reduce : option bool) (reduction : string) : result loss :=
  let self_reduction := _Loss__init__ size_average reduce reduction in
  func ← match dispatch distance_metric with
         | Some attribute => getattr attribute
         | None => Raise AttributeError
         end;
  Ok {| reduction := self_reduction;
        _scale := scale;
        _normalize_code_length := normalize_code_length;
        _normalize_coef_for_gt := normalize_coefficient_for_ground_truth;
        _distance_metric := distance_metric;
        _func_distance := func;
        _normalize_hyponymy_score := None |}.

End Metrics.

Definition _intensity_to_probability (t_intensity : tensor) : result tensor :=
  let pad_shape := pad_shape t_intensity in
  let t_pad_begin := zeros pad_shape in
  let t_pad_end := ones pad_shape in
  c1 ← cat_last t_pad_begin t_intensity;
  c2 ← cat_last t_intensity t_pad_end;
  mul (cumprod_last (rsub 1 c1)) c2.

Definition calc_soft_code_length (t_prob_c : tensor) : result tensor :=
  sel ← index_select_last t_prob_c 0;
  let t_p_c_zero := squeeze sel in
  n_digits ← shape_last t_p_c_zero;
  t_p_at_n ← _intensity_to_probability t_p_c_zero;
  let t_at_n := arange (n_digits + 1) in
  p ← mul t_p_at_n t_at_n;
  Ok (sum_last p).

(** [lst_code_length_tuple]: (entity index, entity depth) *)
Definition forward (self : loss) (t_prob_c_batch : tensor)
    (lst_code_length_tuple : list (nat * Q)) : result tensor :=
  let t_idx := map fst lst_code_length_tuple in
  let y_true := of_list (map snd lst_code_length_tuple) in
  t_prob_c ← index_select_first t_prob_c_batch t_idx;
  y_pred ← calc_soft_code_length t_prob_c;
  '(y_pred, y_true) ←
    (if _normalize_code_length self then
       n_digits ← shape_at t_prob_c_batch 1;
       y_pred ← div_scalar y_pred (inject_Z (Z.of_nat n_digits));
       Ok (y_pred, mul_scalar y_true (_normalize_coef_for_gt self))
     else Ok (y_pred, y_true));
  loss ← _func_distance self (reduction self) y_pred y_true;
  Ok (mul_scalar loss (_scale self)).

End CodeLengthPredictionLoss.

(** ** class CodeLengthDiffPredictionLoss(CodeLengthPredictionLoss) *)

Module CodeLengthDiffPredictionLoss.

Import CodeLengthPredictionLoss.

(** [lst_code_length_diff_tuple]: (hypernym index, hyponym index, difference) *)
Definition forward (self : loss) (t_prob_c_batch : tensor)
    (lst_code_length_diff_tuple : list (nat * nat * Q)) : result tensor :=
  let t_idx_x := map (fun tup => fst (fst tup)) lst_code_length_diff_tuple in
  let t_idx_y := map (fun tup => snd (fst tup)) lst_code_length_diff_tuple in
  let y_true := of_list (map snd lst_code_length_diff_tuple) in
  t_code_length ← calc_soft_code_length t_prob_c_batch;
  t_code_length_x ← index_select_first t_code_length t_idx_x;
  t_code_length_y ← index_select_first t_code_length t_idx_y;
  y_pred ← sub t_code_length_y t_code_length_x;
  '(y_pred, y_true) ←
    (if _normalize_code_length self then
       n_digits ← shape_at t_prob_c_batch 1;
       y_pred ← div_scalar y_pred (inject_Z (Z.of_nat n_digits));
       Ok (y_pred, mul_scalar y_true (_normalize_coef_for_gt self))
     else Ok (y_pred, y_true));
  loss ← _func_distance self (reduction self) y_pred y_true;
  Ok (mul_scalar loss (_scale self)).

End CodeLengthDiffPredictionLoss.

(** ** class HyponymyScoreLoss(CodeLengthPredictionLoss) *)

Module HyponymyScoreLoss.

Import CodeLengthPredictionLoss.

Definition __init__ (ext : torch_ext) (scale : Q) (normalize_hyponymy_score : bool)
    (normalize_coefficient_for_ground_truth : Q) (distance_metric : string)
    (size_average reduce : option bool) (reduction : string) : result loss :=
  self ← CodeLengthPredictionLoss.__init__ ext scale false
           normalize_coefficient_for_ground_truth distance_metric
           size_average reduce reduction;
  Ok {| reduction := LossSupervised.reduction self;
        _scale := _scale self;
        _normalize_code_length := _normalize_code_length self;
        _normalize_coef_for_gt := _normalize_coef_for_gt self;
        _distance_metric := _distance_metric self;
        _func_distance := _func_distance self;
        _normalize_hyponymy_score := Some normalize_hyponymy_score |}.

(** [self._normalize_hyponymy_score] *)
Definition get_normalize_hyponymy_score (self : loss) : result bool :=
  match _normalize_hyponymy_score self with
  | Some b => Ok b
  | None => Raise AttributeError
  end.

Definition _calc_break_intensity (t_prob_c_x t_prob_c_y : tensor) : result tensor :=
  sel_x ← index_select_last t_prob_c_x 0;
  let t_p_c_x_zero := squeeze sel_x in
  sel_y ← index_select_last t_prob_c_y 0;
  let t_p_c_y_zero := squeeze sel_y in
  xy ← mul t_prob_c_x t_prob_c_y;
  zz ← mul t_p_c_x_zero t_p_c_y_zero;
  d ← sub (sum_last xy) zz;
  Ok (rsub 1 d).

Definition calc_ancestor_probability (t_prob_c_x t_prob_c_y : tensor) : result tensor :=
  '(n_digits, n_ary) ← shape_last2 t_prob_c_x;
  sel_x ← index_select_last t_prob_c_x 0;
  let t_p_c_x_zero := squeeze sel_x in
  sel_y ← index_select_last t_prob_c_y 0;
  let t_p_c_y_zero := squeeze sel_y in
  t_beta ← mul t_p_c_x_zero (rsub 1 t_p_c_y_zero);
  xy ← mul t_prob_c_x t_prob_c_y;
  zz ← mul t_p_c_x_zero t_p_c_y_zero;
  t_gamma_hat ← sub (sum_last xy) zz;
  let t_pad_begin := ones (pad_shape t_gamma_hat) in
  c ← cat_last t_pad_begin t_gamma_hat;
  t_gamma ← narrow_last c n_digits;
  p ← mul t_beta (cumprod_last t_gamma);
  Ok (sum_last p).

Definition calc_soft_lowest_common_ancestor_length (t_prob_c_x t_prob_c_y : tensor)
  : result tensor :=
  '(n_digits, n_ary) ← shape_last2 t_prob_c_x;
  t_break_intensity ← _calc_break_intensity t_prob_c_x t_prob_c_y;
  t_prob_break ← _intensity_to_probability t_break_intensity;
  let t_at_n := arange (n_digits + 1) in
  p ← mul t_prob_break t_at_n;
  Ok (sum_last p).

Definition calc_soft_hyponymy_score (t_prob_c_x t_prob_c_y : tensor) : result tensor :=
  l_hyper ← calc_soft_code_length t_prob_c_x;
  l_hypo ← calc_soft_code_length t_prob_c_y;
  alpha ← calc_ancestor_probability t_prob_c_x t_prob_c_y;
  l_lca ← calc_soft_lowest_common_ancestor_length t_prob_c_x t_prob_c_y;
  d1 ← sub l_hypo l_hyper;
  a1 ← mul alpha d1;
  d2 ← sub l_lca l_hyper;
  a2 ← mul (rsub 1 alpha) d2;
  add a1 a2.

(** The bounds of [torch.clamp] in the forward passes. *)
Definition clamp_min : Q := 1 # 100000.
Definition clamp_max : Q := 1 - (1 # 100000).

(** [lst_hyponymy_tuple]: (hypernym index, hyponym index, hyponymy score) *)
Definition forward (self : loss) (t_prob_c_batch : tensor)
    (lst_hyponymy_tuple : list (nat * nat * Q)) : result tensor :=
  let t_prob_c_batch := clamp t_prob_c_batch clamp_min clamp_max in
  let t_idx_x := map (fun tup => fst (fst tup)) lst_hyponymy_tuple in
  let t_idx_y := map (fun tup => snd (fst tup)) lst_hyponymy_tuple in
  let y_true := of_list (map snd lst_hyponymy_tuple) in
  t_prob_c_x ← index_select_first t_prob_c_batch t_idx_x;
  t_prob_c_y ← index_select_first t_prob_c_batch t_idx_y;
  y_pred ← calc_soft_hyponymy_score t_prob_c_x t_prob_c_y;
  normalize ← get_normalize_hyponymy_score self;
  '(y_pred, y_true) ←
    (if normalize : bool then
       n_digits ← shape_at t_prob_c_batch 1;
       y_pred ← div_scalar y_pred (inject_Z (Z.of_nat n_digits));
       Ok (y_pred, mul_scalar y_true (_normalize_coef_for_gt self))
     else Ok (y_pred, y_true));
  loss ← _func_distance self (reduction self) y_pred y_true;
  Ok (mul_scalar loss (_scale self)).

End HyponymyScoreLoss.

(** ** class LowestCommonAncestorLengthPredictionLoss(HyponymyScoreLoss) *)

Module LowestCommonAncestorLengthPredictionLoss.

Import HyponymyScoreLoss.

(** [lst_hyponymy_tuple]: (hypernym index, hyponym index, length of the
    lowest common ancestor) *)
Definition forward (self : loss) (t_prob_c_batch : tensor)
    (lst_hyponymy_tuple : list (nat * nat * Q)) : result tensor :=
  let t_idx_x := map (fun tup => fst (fst tup)) lst_hyponymy_tuple in
  let t_idx_y := map (fun tup => snd (fst tup)) lst_hyponymy_tuple in
  let y_true := of_list (map snd lst_hyponymy_tuple) in
  t_prob_c_x ← index_select_first t_prob_c_batch t_idx_x;
  t_prob_c_y ← index_select_first t_prob_c_batch t_idx_y;
  y_pred ← calc_soft_lowest_common_ancestor_length t_prob_c_x t_prob_c_y;
  normalize ← get_normalize_hyponymy_score self;
  '(y_pred, y_true) ←
    (if normalize : bool then
       n_digits ← shape_at t_prob_c_batch 1;
       y_pred ← div_scalar y_pred (inject_Z (Z.of_nat n_digits));
       Ok (y_pred, mul_scalar y_true (_normalize_coef_for_gt self))
     else Ok (y_pred, y_true));
  loss ← _func_distance self (reduction self) y_pred y_true;
  Ok (mul_scalar loss (_scale self)).

End LowestCommonAncestorLengthPredictionLoss.

(** ** class EntailmentProbabilityLoss(HyponymyScoreLoss) *)

Module EntailmentProbabilityLoss.

Import HyponymyScoreLoss.

Definition __init__ (ext : torch_ext) (scale : Q)
    (size_average reduce : option bool) (reduction : string) : result loss :=
  HyponymyScoreLoss.__init__ ext scale false 1 "binary-cross-entropy"
    size_average reduce reduction.

(** [lst_hyponymy_tuple]: (hypernym index, hyponym index, 1.0 for a
    hyponymy and 0.0 otherwise) *)
Definition forward (self : loss) (t_prob_c_batch : tensor)
    (lst_hyponymy_tuple : list (nat * nat * Q)) : result tensor :=
  let t_prob_c_batch := clamp t_prob_c_batch clamp_min clamp_max in
  let t_idx_x := map (fun tup => fst (fst tup)) lst_hyponymy_tuple in
  let t_idx_y := map (fun tup => snd (fst tup)) lst_hyponymy_tuple in
  let y_true := of_list (map snd lst_hyponymy_tuple) in
  t_prob_c_x ← index_select_first t_prob_c_batch t_idx_x;
  t_prob_c_y ← index_select_first t_prob_c_batch t_idx_y;
  y_pred ← calc_ancestor_probability t_prob_c_x t_prob_c_y;
  loss ← _func_distance self (reduction self) y_pred y_true;
  Ok (mul_scalar loss (_scale self)).

End EntailmentProbabilityLoss.

End LossSupervised.

(* ===================================================================== *)
(** * src/dataset/embeddings_plus_lexical_knowledge.py *)
(* ===================================================================== *)

Module Dataset.

(** A record of the hyponymy dataset: the dict with the keys ["hyponym"],
    ["hypernym"] and ["distance"]. *)
Record hyponymy : Type := {
  hyponym : string;
  hypernym : string;
  distance : Q
}.

(** An index triple [(idx_hyper, idx_hypo, distance)] of a batch. *)
Definition relation : Type := nat * nat * Q.

(** Modelled from the spec: the embedding source
    ([AbstractWordEmbeddingsDataset], in [dataset/word_embeddings.py]) is
    known by its interface only (section 6): vocabulary size, existence
    check, entity at an index, embedding of an entity. Nothing is assumed
    about the four functions. *)
Record word_embeddings_dataset : Type := {
  we_len : nat;
  is_encodable : string -> bool;
  index_to_entity : nat -> result string;
  we_embedding : string -> result (list Q)
}.

(** The classes of hyponymy dataset that [__init__] tells apart. *)
Inductive dataset_class : Set :=
| WordNetHyponymyDataset
| HyponymyDataset
| OtherDataset.

(** Modelled from the spec: the relation source ([HyponymyDataset], in
    [dataset/lexical_knowledge.py]) has a size and is sliced into an ordered
    sequence of records (section 6). *)
Record hyponymy_dataset : Type := {
  ds_class : dataset_class;
  ds_records : list hyponymy
}.

(** Modelled from the spec: the taxonomy oracles ([BasicTaxonomy] and
    [WordNetTaxonomy], in [dataset/utils.py]); the specialised variant has no
    negative sampling (section 4.3). *)
Inductive taxonomy : Set :=
| BasicTaxonomy
| WordNetTaxonomy.

Record batch : Type := {
  embedding : list (list Q);
  entity : list string;
  hyponymy_relation : list relation;
  hyponymy_relation_raw : list hyponymy;
  (** present when [self._verbose] *)
  entity_sampled : option (list string);
  (** present after the split *)
  non_hyponymy_relation : option (list relation);
  non_hyponymy_relation_raw : option (list hyponymy)
}.

(** What [verify_batch_sizes] prints, before formatting. *)
Record report : Type := {
  n_embeddings_used_in_epoch : Q;
  ratio : Q;
  balanced_embedding_batch_size : Z;
  balanced_hyponymy_batch_size : Z;
  (** printed by the subclass only *)
  n_non_hyponymy : option Z;
  balanced_non_hyponymy_batch_size : option Z
}.

(** ** Python and numpy helpers *)

(** [lst[a:b]] *)
Definition py_slice {A : Type} (l : list A) (a b : Z) : list A :=
  let len := Z.of_nat (length l) in
  let norm i := if (i <? 0)%Z then Z.max (i + len) 0 else Z.min i len in
  firstn (Z.to_nat (norm b - norm a)) (skipn (Z.to_nat (norm a)) l).

(** [x / y] for Python numbers *)
Definition py_div (x y : Q) : result Q :=
  if Qeq_bool y 0 then Raise ZeroDivisionError else Ok (x / y)%Q.

(** [x % y] where [y] is an int and [x] is an int or [None] *)
Definition py_mod (x : option Z) (y : Z) : result Z :=
  match x with
  | None => Raise TypeError
  | Some x => if (y =? 0)%Z then Raise ZeroDivisionError else Ok (x mod y)%Z
  end.

(** [x + y] where [x] is an int and [y] is an int or [None] *)
Definition py_add (x : Z) (y : option Z) : result Z :=
  match y with
  | None => Raise TypeError
  | Some y => Ok (x + y)%Z
  end.

(** [x // y] where [y] is an int and [x] is an int or [None] *)
Definition py_floordiv (x : option Z) (y : Z) : result Z :=
  match x with
  | None => Raise TypeError
  | Some x => if (y =? 0)%Z then Raise ZeroDivisionError else Ok (x / y)%Z
  end.

(** [np.e], the binary64 number nearest to e *)
Definition np_e : Q := 6121026514868073 # 2251799813685248.

(** [enumerate(l)] *)
Definition enumerate {A : Type} (l : list A) : list (nat * A) :=
  combine (seq 0 (length l)) l.

(** [{token: idx for idx, token in enumerate(lst_tokens)}]: a later
    occurrence of a key overwrites an earlier one. *)
Definition dict_of_enumerate (lst_tokens : list string) : gmap string nat :=
  foldl (fun (m : gmap string nat) (p : nat * string) => <[p.2 := p.1]> m)
        ∅ (enumerate lst_tokens).

(** [d[key]] *)
Definition dict_get (d : gmap string nat) (key : string) : result nat :=
  match d !! key with
  | Some v => Ok v
  | None => Raise KeyError
  end.

(** [np.stack(rows)]: at least one row, all of one length. *)
Definition np_stack (rows : list (list Q)) : result (list (list Q)) :=
  match rows with
  | [] => Raise ValueError
  | r :: rest =>
      if forallb (fun r' => (length r' =? length r)%nat) rest then Ok rows
      else Raise ValueError
  end.

(** The entities of a list of records, as the source collects them:
    [set_tokens.add(hyponymy["hyponym"]); set_tokens.add(hyponymy["hypernym"])]. *)
Definition tokens_of (batch_hyponymy : list hyponymy) : gset string :=
  foldl (fun (s : gset string) h => {[hypernym h]} ∪ ({[hyponym h]} ∪ s))
        ∅ batch_hyponymy.

(** ** class WordEmbeddingsAndHyponymyDataset *)

Record WordEmbeddingsAndHyponymyDataset_object (dataloader : Type) : Type := {
  _word_embeddings_dataset : word_embeddings_dataset;
  _hyponymy_dataset : hyponymy_dataset;
  _n_embeddings : nat;
  _n_hyponymy : nat;
  _embedding_batch_size : Z;
  _hyponymy_batch_size : Z;
  _hyponymy_dataloader : dataloader;
  _verbose : bool
}.

Arguments _word_embeddings_dataset {dataloader} _.
Arguments _hyponymy_dataset {dataloader} _.
Arguments _n_embeddings {dataloader} _.
Arguments _n_hyponymy {dataloader} _.
Arguments _embedding_batch_size {dataloader} _.
Arguments _hyponymy_batch_size {dataloader} _.
Arguments _hyponymy_dataloader {dataloader} _.
Arguments _verbose {dataloader} _.

(** ** class WordEmbeddingsAndHyponymyDatasetWithNonHyponymyRelation *)

Record WithNonHyponymyRelation_object (dataloader : Type) : Type := {
  super : WordEmbeddingsAndHyponymyDataset_object dataloader;
  _non_hyponymy_batch_size : Z;
  _non_hyponymy_multiple : Z;
  _non_hyponymy_relation_distance : option Q;
  _non_hyponymy_relation_target : string;
  _exclude_reverse_hyponymy_from_non_hyponymy_relation : bool;
  _limit_hyponym_candidates_within_minibatch : bool;
  _split_hyponymy_and_non_hyponymy : bool;
  (** [None] until [__init__] has built the taxonomy *)
  _taxonomy : option taxonomy
}.

Arguments super {dataloader} _.
Arguments _non_hyponymy_batch_size {dataloader} _.
Arguments _non_hyponymy_multiple {dataloader} _.
Arguments _non_hyponymy_relation_distance {dataloader} _.
Arguments _non_hyponymy_relation_target {dataloader} _.
Arguments _exclude_reverse_hyponymy_from_non_hyponymy_relation {dataloader} _.
Arguments _limit_hyponym_candidates_within_minibatch {dataloader} _.
Arguments _split_hyponymy_and_non_hyponymy {dataloader} _.
Arguments _taxonomy {dataloader} _.

(** ** The environment of the sampler

    The random draws, the iteration order of a Python set and the torch
    [DataLoader] are not code of the two classes; the methods below take
    them from an [environment]. [rng] is the state of the random number
    generators, which every draw advances. *)
Record environment (rng dataloader : Type) : Type := {
  (** [np.random.choice(range(n), size=k, replace=False)] for [k <= n] *)
  draw_choice : rng -> nat -> nat -> list nat * rng;
  (** [BasicTaxonomy.sample_random_hyponyms] and [sample_random_hypernyms]
      with the arguments [entity], [candidates], [size] and
      [exclude_hypernyms]; they return [(hypernym, hyponym, distance)]
      tuples *)
  sample_random_hyponyms :
    rng -> string -> option (gset string) -> Z -> bool ->
    list (string * string * Q) * rng;
  sample_random_hypernyms :
    rng -> string -> option (gset string) -> Z -> bool ->
    list (string * string * Q) * rng;
  (** [list(set_tokens)]: the iteration order of a Python set *)
  list_of_set : gset string -> list string;
  (** [DataLoader(hyponymy_dataset, collate_fn=lambda v:v, batch_size=...)] *)
  DataLoader : hyponymy_dataset -> Z -> result dataloader;
  (** the chunks that one iteration over the loader yields *)
  iterate : dataloader -> rng -> list (list hyponymy) * rng
}.

Arguments draw_choice {rng dataloader} _.
Arguments sample_random_hyponyms {rng dataloader} _.
Arguments sample_random_hypernyms {rng dataloader} _.
Arguments list_of_set {rng dataloader} _.
Arguments DataLoader {rng dataloader} _.
Arguments iterate {rng dataloader} _.

(** What the environment guarantees: numpy draws [size] distinct indices
    below [n], and listing a set gives each of its members once. *)
Record environment_ok {rng dataloader : Type} (E : environment rng dataloader) : Prop := {
  draw_choice_length :
    forall g n size, (size <= n)%nat -> length (draw_choice E g n size).1 = size;
  draw_choice_NoDup :
    forall g n size, (size <= n)%nat -> NoDup (draw_choice E g n size).1;
  draw_choice_range :
    forall g n size i, (size <= n)%nat -> i ∈ (draw_choice E g n size).1 -> (i < n)%nat;
  list_of_set_NoDup : forall X, NoDup (list_of_set E X);
  list_of_set_elem : forall X x, x ∈ list_of_set E X <-> x ∈ X
}.

(** A generator that has been run to its end: what it yielded, and how it
    ended. *)
Record generated (rng : Type) : Type := {
  yielded : list batch;
  finished : result rng
}.

Arguments yielded {rng} _.
Arguments finished {rng} _.

Module WordEmbeddingsAndHyponymyDataset.

Section Methods.

Context {rng dataloader : Type} (E : environment rng dataloader).

Local Abbreviation object := (WordEmbeddingsAndHyponymyDataset_object dataloader).

Definition np_random_choice (g : rng) (n size : nat) : result (list nat * rng) :=
  if (n <? size)%nat then Raise ValueError else Ok (draw_choice E g n size).

Definition verify_batch_sizes (self : object) : result report :=
  let n_embeddings := inject_Z (Z.of_nat (we_len (_word_embeddings_dataset self))) in
  let n_hyponymy := inject_Z (Z.of_nat (length (ds_records (_hyponymy_dataset self)))) in
  let hyponymy_batch_size := inject_Z (_hyponymy_batch_size self) in
  let embedding_batch_size := inject_Z (_embedding_batch_size self) in
  let coef_effective_samples := (1 - 1 / np_e)%Q in
  n_iteration ← py_div n_hyponymy hyponymy_batch_size;
  let n_embeddings_sample_in_batch := (embedding_batch_size - 2 * hyponymy_batch_size)%Q in
  let n_embeddings_used_in_epoch :=
    (coef_effective_samples * n_iteration * n_embeddings_sample_in_batch)%Q in
  ratio ← py_div n_embeddings_used_in_epoch n_embeddings;
  q1 ← py_div n_embeddings (coef_effective_samples * n_iteration);
  let balanced_embedding_batch_size := Qceiling (q1 + 2 * hyponymy_batch_size) in
  q2 ← py_div (n_hyponymy * embedding_batch_size * coef_effective_samples)
              (n_embeddings + 2 * coef_effective_samples * n_hyponymy);
  let balanced_hyponymy_batch_size := Qceiling q2 in
  Ok {| n_embeddings_used_in_epoch := n_embeddings_used_in_epoch;
        ratio := ratio;
        balanced_embedding_batch_size := balanced_embedding_batch_size;
        balanced_hyponymy_batch_size := balanced_hyponymy_batch_size;
        n_non_hyponymy := None;
        balanced_non_hyponymy_batch_size := None |}.

(** [verbose] is passed as [False] when the subclass calls this constructor. *)
Definition __init__ (word_embeddings_dataset : word_embeddings_dataset)
    (hyponymy_dataset : hyponymy_dataset)
    (embedding_batch_size hyponymy_batch_size : Z) (verbose : bool)
  : result (object * option report) :=
  _ ← assert (2 * hyponymy_batch_size <=? embedding_batch_size)%Z;
  loader ← DataLoader E hyponymy_dataset hyponymy_batch_size;
  let self :=
    {| _word_embeddings_dataset := word_embeddings_dataset;
       _hyponymy_dataset := hyponymy_dataset;
       _n_embeddings := we_len word_embeddings_dataset;
       _n_hyponymy := length (ds_records hyponymy_dataset);
       _embedding_batch_size := embedding_batch_size;
       _hyponymy_batch_size := hyponymy_batch_size;
       _hyponymy_dataloader := loader;
       _verbose := verbose |} in
  if verbose then
    printed ← verify_batch_sizes self;
    Ok (self, Some printed)
  else Ok (self, None).

Definition is_encodable_all (self : object) (tokens : list string) : bool :=
  forallb (is_encodable (_word_embeddings_dataset self)) tokens.

(** The records of a chunk whose two entities are encodable. *)
Definition encodable_samples (self : object) (batch_hyponymy_b : list hyponymy)
  : list hyponymy :=
  List.filter (fun sample => is_encodable_all self [hyponym sample; hypernym sample])
              batch_hyponymy_b.

Definition _create_batch_from_hyponymy_samples (self : object)
    (batch_hyponymy : list hyponymy) (g : rng) : result (batch * rng) :=
  (* take tokens from hyponymy pairs *)
  let set_tokens := tokens_of batch_hyponymy in
  (* take remaining tokens randomly from word embeddings dataset vocabulary *)
  let n_diff := (_embedding_batch_size self - Z.of_nat (size set_tokens))%Z in
  '(set_tokens, lst_tokens_from_embeddings, g) ←
    (if (0 <? n_diff)%Z then
       '(lst_index, g) ← np_random_choice g (_n_embeddings self) (Z.to_nat n_diff);
       lst_tokens_from_embeddings ←
         traverse (index_to_entity (_word_embeddings_dataset self)) lst_index;
       Ok (set_tokens ∪ list_to_set lst_tokens_from_embeddings,
           lst_tokens_from_embeddings, g)
     else Ok (set_tokens, [], g));
  (* create temporary token-to-index mapping *)
  let lst_tokens := list_of_set E set_tokens in
  let token_to_index := dict_of_enumerate lst_tokens in
  (* create embeddings *)
  rows ← traverse (we_embedding (_word_embeddings_dataset self)) lst_tokens;
  mat_embeddings ← np_stack rows;
  (* create hyponymy relations *)
  lst_hyponymy_relation ←
    traverse (fun hyponymy =>
                idx_hypo ← dict_get token_to_index (hyponym hyponymy);
                idx_hyper ← dict_get token_to_index (hypernym hyponymy);
                Ok (idx_hyper, idx_hypo, distance hyponymy))
             batch_hyponymy;
  Ok ({| embedding := mat_embeddings;
         entity := lst_tokens;
         hyponymy_relation := lst_hyponymy_relation;
         hyponymy_relation_raw := batch_hyponymy;
         entity_sampled :=
           if _verbose self then Some lst_tokens_from_embeddings else None;
         non_hyponymy_relation := None;
         non_hyponymy_relation_raw := None |}, g).

(** The body of the loop of [__iter__], over the chunks of the loader. *)
Fixpoint iter_chunks (self : object) (chunks : list (list hyponymy)) (g : rng)
  : generated rng :=
  match chunks with
  | [] => {| yielded := []; finished := Ok g |}
  | batch_hyponymy_b :: rest =>
      (* remove hyponymy pairs which is not encodable *)
      match encodable_samples self batch_hyponymy_b with
      | [] => iter_chunks self rest g
      | batch_hyponymy =>
          match _create_batch_from_hyponymy_samples self batch_hyponymy g with
          | Raise e => {| yielded := []; finished := Raise e |}
          | Ok (batch, g) =>
              let later := iter_chunks self rest g in
              {| yielded := batch :: yielded later; finished := finished later |}
          end
      end
  end.

Definition __iter__ (self : object) (g : rng) : generated rng :=
  let '(chunks, g) := iterate E (_hyponymy_dataloader self) g in
  iter_chunks self chunks g.

(** [while True] is run for at most [fuel] rounds; [None] when they do not
    suffice. *)
Fixpoint __getitem__ (fuel : nat) (self : object) (idx : Z) (g : rng)
  : option (result (batch * rng)) :=
  match fuel with
  | O => None
  | S fuel =>
      let n_idx_min := (_hyponymy_batch_size self * idx)%Z in
      let n_idx_max := (_hyponymy_batch_size self * (idx + 1))%Z in
      let batch_hyponymy_b := py_slice (ds_records (_hyponymy_dataset self)) n_idx_min n_idx_max in
      (* remove hyponymy pairs which is not encodable *)
      match encodable_samples self batch_hyponymy_b with
      | [] => __getitem__ fuel self (idx + 1)%Z g
      | batch_hyponymy =>
          Some (_create_batch_from_hyponymy_samples self batch_hyponymy g)
      end
  end.

(** [int(np.ceil(len(self._hyponymy_dataset) / self._hyponymy_batch_size))] *)
Definition __len__ (self : object) : result Z :=
  q ← py_div (inject_Z (Z.of_nat (length (ds_records (_hyponymy_dataset self)))))
             (inject_Z (_hyponymy_batch_size self));
  Ok (Qceiling q).

Definition n_samples (self : object) : result Z :=
  n ← __len__ self;
  Ok (_embedding_batch_size self * n)%Z.

End Methods.

End WordEmbeddingsAndHyponymyDataset.

Module WordEmbeddingsAndHyponymyDatasetWithNonHyponymyRelation.

Section Methods.

Context {rng dataloader : Type} (E : environment rng dataloader).

Local Abbreviation object := (WithNonHyponymyRelation_object dataloader).

Definition verify_batch_sizes (self : object) : result report :=
  let n_embeddings := inject_Z (Z.of_nat (we_len (_word_embeddings_dataset (super self)))) in
  let n_hyponymy_int := Z.of_nat (length (ds_records (_hyponymy_dataset (super self)))) in
  let n_hyponymy := inject_Z n_hyponymy_int in
  let hyponymy_batch_size := inject_Z (_hyponymy_batch_size (super self)) in
  let embedding_batch_size := inject_Z (_embedding_batch_size (super self)) in
  let coef_effective_samples := (1 - 1 / np_e)%Q in
  n_iteration ← py_div n_hyponymy hyponymy_batch_size;
  let '(n_embeddings_sample_in_batch, multiplier) :=
    if _limit_hyponym_candidates_within_minibatch self then
      ((embedding_batch_size - 2 * hyponymy_batch_size)%Q, 2%Z)
    else
      ((embedding_batch_size - 2 * hyponymy_batch_size
        - inject_Z (_non_hyponymy_batch_size self))%Q,
       (2 + _non_hyponymy_multiple self)%Z) in
  let n_embeddings_used_in_epoch :=
    (coef_effective_samples * n_iteration * n_embeddings_sample_in_batch)%Q in
  ratio ← py_div n_embeddings_used_in_epoch n_embeddings;
  q0 ← py_div n_embeddings coef_effective_samples;
  balanced_embeddings_sample_in_batch ← py_div q0 n_iteration;
  let balanced_embedding_batch_size :=
    Qceiling (embedding_batch_size
              - (n_embeddings_sample_in_batch - balanced_embeddings_sample_in_batch)) in
  q2 ← py_div (n_hyponymy * embedding_batch_size * coef_effective_samples)
              (n_embeddings + inject_Z multiplier * coef_effective_samples * n_hyponymy);
  let balanced_hyponymy_batch_size := Qfloor q2 in
  Ok {| n_embeddings_used_in_epoch := n_embeddings_used_in_epoch;
        ratio := ratio;
        balanced_embedding_batch_size := balanced_embedding_batch_size;
        balanced_hyponymy_batch_size := balanced_hyponymy_batch_size;
        n_non_hyponymy := Some (n_hyponymy_int * _non_hyponymy_multiple self)%Z;
        balanced_non_hyponymy_batch_size :=
          Some (balanced_hyponymy_batch_size * _non_hyponymy_multiple self)%Z |}.

Definition available_options : list string := ["hyponym"; "hypernym"; "both"].

Definition __init__ (word_embeddings_dataset : word_embeddings_dataset)
    (hyponymy_dataset : hyponymy_dataset)
    (embedding_batch_size hyponymy_batch_size : Z)
    (non_hyponymy_batch_size : option Z)
    (non_hyponymy_relation_distance : option Q)
    (non_hyponymy_relation_target : string)
    (exclude_reverse_hyponymy_from_non_hyponymy_relation : bool)
    (limit_hyponym_candidates_within_minibatch : bool)
    (split_hyponymy_and_non_hyponymy : bool)
    (verbose : bool)
  : result (object * option report) :=
  '(base, _) ← WordEmbeddingsAndHyponymyDataset.__init__ E word_embeddings_dataset
                  hyponymy_dataset embedding_batch_size hyponymy_batch_size false;
  remainder ← py_mod non_hyponymy_batch_size hyponymy_batch_size;
  _ ← assert (remainder =? 0)%Z;
  _ ← (if negb limit_hyponym_candidates_within_minibatch then
         bound ← py_add (2 * hyponymy_batch_size)%Z non_hyponymy_batch_size;
         assert (bound <=? embedding_batch_size)%Z
       else Ok tt);
  _ ← assert (existsb (String.eqb non_hyponymy_relation_target) available_options);
  let self_non_hyponymy_batch_size :=
    match non_hyponymy_batch_size with
    | None => hyponymy_batch_size
    | Some n => n
    end in
  multiple ← py_floordiv non_hyponymy_batch_size hyponymy_batch_size;
  let self : object :=
    {| super :=
         {| _word_embeddings_dataset := _word_embeddings_dataset base;
            _hyponymy_dataset := _hyponymy_dataset base;
            _n_embeddings := _n_embeddings base;
            _n_hyponymy := _n_hyponymy base;
            _embedding_batch_size := _embedding_batch_size base;
            _hyponymy_batch_size := _hyponymy_batch_size base;
            _hyponymy_dataloader := _hyponymy_dataloader base;
            _verbose := verbose |};
       _non_hyponymy_batch_size := self_non_hyponymy_batch_size;
       _non_hyponymy_multiple := multiple;
       _non_hyponymy_relation_distance := non_hyponymy_relation_distance;
       _non_hyponymy_relation_target := non_hyponymy_relation_target;
       _exclude_reverse_hyponymy_from_non_hyponymy_relation :=
         exclude_reverse_hyponymy_from_non_hyponymy_relation;
       _limit_hyponym_candidates_within_minibatch :=
         limit_hyponym_candidates_within_minibatch;
       _split_hyponymy_and_non_hyponymy := split_hyponymy_and_non_hyponymy;
       _taxonomy := None |} in
  _ ← (if String.eqb non_hyponymy_relation_target "both" then
         assert (multiple mod 2 =? 0)%Z
       else Ok tt);
  printed ← (if verbose then
               r ← verify_batch_sizes self;
               Ok (Some r)
             else Ok None);
  (* build the taxonomy from hyponymy relation *)
  taxonomy ← match ds_class hyponymy_dataset with
             | WordNetHyponymyDataset => Ok WordNetTaxonomy
             | HyponymyDataset => Ok BasicTaxonomy
             | OtherDataset => Raise NotImplementedError
             end;
  Ok ({| super := super self;
         _non_hyponymy_batch_size := _non_hyponymy_batch_size self;
         _non_hyponymy_multiple := _non_hyponymy_multiple self;
         _non_hyponymy_relation_distance := _non_hyponymy_relation_distance self;
         _non_hyponymy_relation_target := _non_hyponymy_relation_target self;
         _exclude_reverse_hyponymy_from_non_hyponymy_relation :=
           _exclude_reverse_hyponymy_from_non_hyponymy_relation self;
         _limit_hyponym_candidates_within_minibatch :=
           _limit_hyponym_candidates_within_minibatch self;
         _split_hyponymy_and_non_hyponymy := _split_hyponymy_and_non_hyponymy self;
         _taxonomy := Some taxonomy |}, printed).

(** The record built for one sampled tuple [(hypernym, hyponym, distance)]. *)
Definition non_hyponymy_sample (self : object) (tup : string * string * Q) : hyponymy :=
  let '(hypernym, hyponym, distance) := tup in
  {| hyponym := hyponym;
     hypernym := hypernym;
     distance := match _non_hyponymy_relation_distance self with
                 | None => distance
                 | Some d => d
                 end |}.

(** The body of the second loop of
    [_create_non_hyponymy_samples_from_hyponymy_samples]. *)
Fixpoint non_hyponymy_loop (self : object) (set_candidates : option (gset string))
    (size_per_sample : Z) (batch_hyponymy : list hyponymy) (g : rng)
  : result (list hyponymy * rng) :=
  match batch_hyponymy with
  | [] => Ok ([], g)
  | hyponymy :: rest =>
      let hyper := hypernym hyponymy in
      let hypo := hyponym hyponymy in
      let target := _non_hyponymy_relation_target self in
      let exclude := _exclude_reverse_hyponymy_from_non_hyponymy_relation self in
      '(lst_tup_sample_b, g) ←
        match _taxonomy self with
        | None => Raise AttributeError
        | Some WordNetTaxonomy => Raise NotImplementedError
        | Some BasicTaxonomy =>
            let '(swap_hypo, g) :=
              if String.eqb target "hyponym" || String.eqb target "both" then
                sample_random_hyponyms E g hyper set_candidates size_per_sample exclude
              else ([], g) in
            let '(swap_hyper, g) :=
              if String.eqb target "hypernym" || String.eqb target "both" then
                sample_random_hypernyms E g hypo set_candidates size_per_sample exclude
              else ([], g) in
            Ok (swap_hypo ++ swap_hyper, g)
        end;
      '(later, g) ← non_hyponymy_loop self set_candidates size_per_sample rest g;
      Ok (map (non_hyponymy_sample self) lst_tup_sample_b ++ later, g)
  end.

Definition _create_non_hyponymy_samples_from_hyponymy_samples (self : object)
    (batch_hyponymy : list hyponymy) (size_per_sample : Z) (g : rng)
  : result (list hyponymy * rng) :=
  let set_candidates :=
    if _limit_hyponym_candidates_within_minibatch self
    then Some (tokens_of batch_hyponymy) else None in
  non_hyponymy_loop self set_candidates size_per_sample batch_hyponymy g.

(** The four lists of the split, after the pair [(relation, relation_raw)]
    has been appended to the two lists of its side. *)
Definition split_step
    (acc : list relation * list hyponymy * list relation * list hyponymy)
    (p : relation * hyponymy)
  : list relation * list hyponymy * list relation * list hyponymy :=
  let '(lst_hyponymy_relation, lst_hyponymy_relation_raw,
        lst_non_hyponymy_relation, lst_non_hyponymy_relation_raw) := acc in
  let '(relation, relation_raw) := p in
  let distance := relation.2 in
  if Qlt_le_dec 0 distance then
    (lst_hyponymy_relation ++ [relation], lst_hyponymy_relation_raw ++ [relation_raw],
     lst_non_hyponymy_relation, lst_non_hyponymy_relation_raw)
  else
    (lst_hyponymy_relation, lst_hyponymy_relation_raw,
     lst_non_hyponymy_relation ++ [relation], lst_non_hyponymy_relation_raw ++ [relation_raw]).

Definition _split_hyponymy_samples_and_non_hyponymy_samples (batch : Dataset.batch)
  : Dataset.batch :=
  let '(lst_hyponymy_relation, lst_hyponymy_relation_raw,
        lst_non_hyponymy_relation, lst_non_hyponymy_relation_raw) :=
    foldl split_step ([], [], [], [])
          (combine (hyponymy_relation batch) (hyponymy_relation_raw batch)) in
  {| embedding := embedding batch;
     entity := entity batch;
     hyponymy_relation := lst_hyponymy_relation;
     hyponymy_relation_raw := lst_hyponymy_relation_raw;
     entity_sampled := entity_sampled batch;
     non_hyponymy_relation := Some lst_non_hyponymy_relation;
     non_hyponymy_relation_raw := Some lst_non_hyponymy_relation_raw |}.

(** What [__getitem__] and [__iter__] do with a non-empty filtered chunk. *)
Definition batch_of_chunk (self : object) (batch_hyponymy : list hyponymy) (g : rng)
  : result (batch * rng) :=
  (* we randomly sample the non-hyponymy relation from the mini-batch *)
  let size_per_sample :=
    if String.eqb (_non_hyponymy_relation_target self) "both"
    then (_non_hyponymy_multiple self / 2)%Z
    else _non_hyponymy_multiple self in
  '(batch_non_hyponymy, g) ←
    _create_non_hyponymy_samples_from_hyponymy_samples self batch_hyponymy size_per_sample g;
  (* create a minibatch from both hyponymy samples and non-hyponymy samples *)
  let batch_hyponymy := batch_hyponymy ++ batch_non_hyponymy in
  '(batch, g) ←
    WordEmbeddingsAndHyponymyDataset._create_batch_from_hyponymy_samples E
      (super self) batch_hyponymy g;
  (* (optional) split hyponymy relation and non-hyponymy relation *)
  if _split_hyponymy_and_non_hyponymy self then
    Ok (_split_hyponymy_samples_and_non_hyponymy_samples batch, g)
  else Ok (batch, g).

Fixpoint __getitem__ (fuel : nat) (self : object) (idx : Z) (g : rng)
  : option (result (batch * rng)) :=
  match fuel with
  | O => None
  | S fuel =>
      let n_idx_min := (_hyponymy_batch_size (super self) * idx)%Z in
      let n_idx_max := (_hyponymy_batch_size (super self) * (idx + 1))%Z in
      (* feed hyponymy relation from the hyponymy dataset *)
      let batch_hyponymy_b :=
        py_slice (ds_records (_hyponymy_dataset (super self))) n_idx_min n_idx_max in
      (* remove hyponymy pairs which is not encodable *)
      match WordEmbeddingsAndHyponymyDataset.encodable_samples (super self) batch_hyponymy_b with
      | [] => __getitem__ fuel self (idx + 1)%Z g
      | batch_hyponymy => Some (batch_of_chunk self batch_hyponymy g)
      end
  end.

Fixpoint iter_chunks (self : object) (chunks : list (list hyponymy)) (g : rng)
  : generated rng :=
  match chunks with
  | [] => {| yielded := []; finished := Ok g |}
  | batch_hyponymy_b :: rest =>
      match WordEmbeddingsAndHyponymyDataset.encodable_samples (super self) batch_hyponymy_b with
      | [] => iter_chunks self rest g
      | batch_hyponymy =>
          match batch_of_chunk self batch_hyponymy g with
          | Raise e => {| yielded := []; finished := Raise e |}
          | Ok (batch, g) =>
              let later := iter_chunks self rest g in
              {| yielded := batch :: yielded later; finished := finished later |}
          end
      end
  end.

Definition __iter__ (self : object) (g : rng) : generated rng :=
  let '(chunks, g) := iterate E (_hyponymy_dataloader (super self)) g in
  iter_chunks self chunks g.

End Methods.

End WordEmbeddingsAndHyponymyDatasetWithNonHyponymyRelation.

End Dataset.

(* ===================================================================== *)
(** * The MSE metrics in IEEE 754 arithmetic *)
(* ===================================================================== *)

(** The tensors of [LossSupervised] hold rationals. This module evaluates the
    MSE metrics of [CodeLengthPredictionLoss] on one-dimensional tensors in a
    binary floating-point format, with the correctly rounded operations of
    [SpecFloat]: [prec = 24], [emax = 128] is torch.float32, the default
    dtype, and [prec = 53], [emax = 1024] is torch.float64. *)
Module Ieee.

Import SpecFloat.

(** The Python float [1E-6]: [float.hex(1E-6)] is [0x1.0c6f7a0b5ed8dp-20]. *)
Definition python_1E_6 : spec_float := S754_finite false 4722366482869645 (-72).

Section Format.

Variables prec emax : Z.

(** [vec.std(dim=-1, keepdim=True)], whose rounding depends on the kernel. *)
Variable std : list spec_float -> spec_float.

Definition of_int (z : Z) : spec_float := binary_normalize prec emax z 0 false.

(** A Python float that enters an operation with a tensor is cast to the
    dtype of the tensor. *)
Definition of_python_float (x : spec_float) : spec_float :=
  match x with
  | S754_finite s m e => binary_normalize prec emax (cond_Zopp s (Z.pos m)) e s
  | _ => x
  end.

(** [torch.sum(t)] *)
Definition sum (t : list spec_float) : spec_float :=
  fold_left (SFadd prec emax) t (of_int 0).

(** [t ** 2] *)
Definition square (t : list spec_float) : list spec_float :=
  map (fun x => SFmul prec emax x x) t.

(** [a * b] and [a - b] for tensors of one shape *)
Definition mul (a b : list spec_float) : result (list spec_float) :=
  if (length a =? length b)%nat
  then Ok (map (fun p => SFmul prec emax p.1 p.2) (combine a b))
  else Raise RuntimeError.

Definition sub (a b : list spec_float) : result (list spec_float) :=
  if (length a =? length b)%nat
  then Ok (map (fun p => SFsub prec emax p.1 p.2) (combine a b))
  else Raise RuntimeError.

(** [F.mse_loss(u, v, reduction=reduction)]; a 0-dim result is a list of one
    number. *)
Definition mse_loss (u v : list spec_float) (reduction : string)
  : result (list spec_float) :=
  d ← sub u v;
  let squares := square d in
  if String.eqb reduction "none" then Ok squares
  else if String.eqb reduction "mean"
       then Ok [SFdiv prec emax (sum squares) (of_int (Z.of_nat (length squares)))]
  else if String.eqb reduction "sum" then Ok [sum squares]
  else Raise ValueError.

Definition _scale_dynamic (vec : list spec_float) : list spec_float :=
  let stds := std vec in
  map (fun x => SFdiv prec emax x (SFadd prec emax stds (of_python_float python_1E_6))) vec.

Definition _scaled_mse (reduction : string) (u v : list spec_float)
  : result (list spec_float) :=
  mse_loss (_scale_dynamic u) (_scale_dynamic v) reduction.

(** The local variable [scale] of [_auto_scaled_mse]. *)
Definition fitted_scale (u v : list spec_float) : result spec_float :=
  uv ← mul u v;
  Ok (SFdiv prec emax (sum uv)
        (SFadd prec emax (sum (square u)) (of_python_float python_1E_6))).

Definition _auto_scaled_mse (reduction : string) (u v : list spec_float)
  : result (list spec_float) :=
  scale ← fitted_scale u v;
  if SFltb (of_int 0) scale then
    mse_loss (map (fun x => SFmul prec emax scale x) u) v reduction
  else _scaled_mse reduction u v.

End Format.

End Ieee.

(* ===================================================================== *)
(** * src/dataset/filter.py *)
(* ===================================================================== *)

Module Filter.

(** A [Dict[str, Set]]: the fields in the order of the dict, each with its
    set of values. *)
Definition fields : Type := list (string * gset string).

(** A sample: a [Dict[str, str]]. *)
Definition sample : Type := gmap string string.

Record DictionaryFilter_object : Type := {
  _includes : option fields;
  _excludes : option fields
}.

Definition __init__ (includes excludes : option fields) : result DictionaryFilter_object :=
  _ ← assert (bool_decide (includes <> None) || bool_decide (excludes <> None));
  _ ← assert (bool_decide (includes = None) || bool_decide (excludes = None));
  Ok {| _includes := includes; _excludes := excludes |}.

(** [sample[field_name]] *)
Definition getitem (sample : sample) (field_name : string) : result string :=
  match sample !! field_name with
  | Some value => Ok value
  | None => Raise KeyError
  end.

(** The loop over [self._includes.items()] and the [return False] after it. *)
Fixpoint includes_loop (sample : sample) (items : fields) : result bool :=
  match items with
  | [] => Ok false
  | (field_name, values) :: rest =>
      value ← getitem sample field_name;
      if bool_decide (value ∈ values) then Ok true else includes_loop sample rest
  end.

(** The loop over [self._excludes.items()] and the [return True] after it. *)
Fixpoint excludes_loop (sample : sample) (items : fields) : result bool :=
  match items with
  | [] => Ok true
  | (field_name, values) :: rest =>
      value ← getitem sample field_name;
      if bool_decide (value ∈ values) then Ok false else excludes_loop sample rest
  end.

(** [None] is the value of a call that reaches the end of the method. *)
Definition __call__ (self : DictionaryFilter_object) (sample : sample)
  : result (option bool) :=
  match _includes self with
  | Some includes => b ← includes_loop sample includes; Ok (Some b)
  | None =>
      match _excludes self with
      | Some excludes => b ← excludes_loop sample excludes; Ok (Some b)
      | None => Ok None
      end
  end.

End Filter.

Module Sampler := Dataset.WordEmbeddingsAndHyponymyDataset.
Module NegSampler := Dataset.WordEmbeddingsAndHyponymyDatasetWithNonHyponymyRelation.

(* ===================================================================== *)
(** * The notions of the specification *)
(* ===================================================================== *)

Module Spec.

Import Torch LossSupervised Dataset.

(** ** Code distributions (section 3) *)

(** A batch of [B] code distributions: an array of shape [(B, N, A)] whose
    entries are non-negative and sum to 1 along the last axis. *)
Definition code_distribution (t : tensor) (B N A : nat) : Prop :=
  shape t = [B; N; A] /\
  forall b n, (b < B)%nat -> (n < N)%nat ->
    (forall a, (a < A)%nat -> (0 <= get t [b; n; a])%Q) /\
    (qsum (map (fun a => get t [b; n; a]) (seq 0 A)) == 1)%Q.

(** The shape that [squeeze] leaves of the batch dimension. *)
Definition batch_prefix (B : nat) : list nat := if (B =? 1)%nat then [] else [B].

(** The probability that the stopping process of [_intensity_to_probability]
    stops at position [k], from the intensities [z 0 .. z (n-1)] of one row. *)
Definition stop_probability (z : nat -> Q) (n k : nat) : Q :=
  (prod_upto (fun j => 1 - (if (j <? 1)%nat then 0 else z (j - 1)%nat)) k
   * (if (k <? n)%nat then z k else 1))%Q.

(** The expected stopping position, by recursion on the first digit. *)
Fixpoint expected_length (z : nat -> Q) (n : nat) : Q :=
  match n with
  | O => 0
  | S n' => (1 - z 0%nat) * (1 + expected_length (fun j => z (S j)) n')
  end.

(** ** Clamping (section 4.4) *)



(** ** Distance metrics (section 4.5) *)

(** The names that the chain of [__init__] recognises. *)
Definition recognised_metrics : list string :=
  [ "mse"; "scaled-mse"; "standardized-mse"; "autoscaled-mse";
    "positive-autoscaled-mse"; "batchnorm-mse"; "mae"; "scaled-mae";
    "cosine"; "hinge"; "binary-cross-entropy" ].

(** The names with which construction succeeds. *)
Definition constructible_metrics : list string :=
  [ "mse"; "scaled-mse"; "standardized-mse"; "autoscaled-mse";
    "positive-autoscaled-mse"; "mae"; "scaled-mae";
    "cosine"; "hinge"; "binary-cross-entropy" ].

(** [self._distance_metric = name] *)
Definition set_distance_metric (self : loss) (name : string) : loss :=
  {| reduction := reduction self;
     _scale := _scale self;
     _normalize_code_length := _normalize_code_length self;
     _normalize_coef_for_gt := _normalize_coef_for_gt self;
     _distance_metric := name;
     _func_distance := _func_distance self;
     _normalize_hyponymy_score := _normalize_hyponymy_score self |}.

(** ** Batches (sections 3 and 4.1) *)

(** [distance > 0] for an index triple *)
Definition is_hyponymy (r : relation) : bool :=
  if Qlt_le_dec 0 r.2 then true else false.

Definition relation_in_range (n : nat) (r : relation) : Prop :=
  (r.1.1 < n)%nat /\ (r.1.2 < n)%nat.

(** The invariant of a batch: no entity twice, every index of a relation
    triple below the number of entities. *)
Definition batch_invariant (b : batch) : Prop :=
  NoDup (entity b) /\
  Forall (relation_in_range (length (entity b))) (hyponymy_relation b) /\
  (forall l, non_hyponymy_relation b = Some l ->
             Forall (relation_in_range (length (entity b))) l).

(** A batch that one of the two classes hands to its caller. *)
Inductive emitted {rng dataloader : Type} (E : environment rng dataloader)
  : batch -> Prop :=
| emitted_create self batch_hyponymy g g' b :
    Sampler._create_batch_from_hyponymy_samples E self batch_hyponymy g = Ok (b, g') ->
    emitted E b
| emitted_getitem fuel self idx g g' b :
    Sampler.__getitem__ E fuel self idx g = Some (Ok (b, g')) -> emitted E b
| emitted_iter self g b :
    In b (yielded (Sampler.__iter__ E self g)) -> emitted E b
| emitted_getitem_non_hyponymy fuel self idx g g' b :
    NegSampler.__getitem__ E fuel self idx g = Some (Ok (b, g')) -> emitted E b
| emitted_iter_non_hyponymy self g b :
    In b (yielded (NegSampler.__iter__ E self g)) -> emitted E b.

(** The batch of [_create_batch_from_hyponymy_samples] of which [b] is made:
    [b] itself, or the batch that was split into [b]. *)
Definition made_from {rng dataloader : Type} (E : environment rng dataloader)
    (b b0 : batch) : Prop :=
  (exists self bh g g',
      Sampler._create_batch_from_hyponymy_samples E self bh g = Ok (b0, g')) /\
  (b = b0 \/ b = NegSampler._split_hyponymy_samples_and_non_hyponymy_samples b0).

(** ** The batch size balancer (section 4.2) *)

(** The expected number of embeddings touched in an epoch as section 4.2
    words it, with the number of relation batches [ceil(N_relations / B_r)]. *)
Definition spec_embeddings_used_in_epoch (n_relations b_r b_e : Z) : Q :=
  ((1 - 1 / np_e)
   * inject_Z (Qceiling (inject_Z n_relations / inject_Z b_r))
   * (inject_Z b_e - 2 * inject_Z b_r))%Q.

(** ** Notions of the properties of the code *)

(** The index of entity [b] in a tensor that [squeeze] has taken the batch
    dimension of, when the batch has one entity. *)
Definition squeezed_index (B b : nat) : list nat := if (B =? 1)%nat then [] else [b].

(** The sum of [calc_ancestor_probability] for one pair:
    [beta 0 + beta 1 * gamma 0 + beta 2 * gamma 0 * gamma 1 + ...], with [n]
    terms. *)
Definition ancestor_series (beta gamma : nat -> Q) (n : nat) : Q :=
  qsum (map (fun k => beta k * prod_upto (fun j => if (j <? 1)%nat then 1 else gamma (j - 1)%nat) k)%Q
            (seq 0 n)).

(** The probability that the codes of pair [b] agree at digit [n] on a value
    other than 0: [sum(x * y, dim=-1) - x_zero * y_zero]. *)
Definition digit_overlap (x y : tensor) (A b n : nat) : Q :=
  (qsum (map (fun v => get x [b; n; v] * get y [b; n; v]) (seq 0 A))
   - get x [b; n; 0%nat] * get y [b; n; 0%nat])%Q.

(** The chunk that [__getitem__] reads for [idx]:
    [self._hyponymy_dataset[n_idx_min:n_idx_max]]. *)
Definition chunk_at {dataloader : Type}
    (self : WordEmbeddingsAndHyponymyDataset_object dataloader) (idx : Z) : list hyponymy :=
  py_slice (ds_records (_hyponymy_dataset self))
           (_hyponymy_batch_size self * idx) (_hyponymy_batch_size self * (idx + 1)).

(** A relation triple points at the two entities of its raw record. *)
Definition decodes (b : batch) (h : hyponymy) (r : relation) : Prop :=
  entity b !! r.1.1 = Some (hypernym h) /\
  entity b !! r.1.2 = Some (hyponym h) /\
  r.2 = distance h.

Definition nonempty {A : Type} (l : list A) : bool :=
  match l with
  | [] => false
  | _ :: _ => true
  end.

(** A field of the dict whose set has the value of the sample. *)
Definition field_matches (sample : Filter.sample) (items : Filter.fields) : Prop :=
  exists field_name values value,
    In (field_name, values) items /\ sample !! field_name = Some value /\ value ∈ values.

End Spec.

(* ===================================================================== *)
(** * Concrete inputs *)
(* ===================================================================== *)

Module Examples.

Import Torch LossSupervised Dataset.

(** ** Losses *)

(** The object built with [distance_metric="mse"], [reduction="mean"] and
    the defaults of the other arguments. *)
Definition mse_object : loss :=
  {| reduction := "mean";
     _scale := 1;
     _normalize_code_length := false;
     _normalize_coef_for_gt := 1;
     _distance_metric := "mse";
     _func_distance := CodeLengthPredictionLoss._mse;
     _normalize_hyponymy_score := Some false |}.

(** The torch functions that the embedding leaves abstract, for the inputs
    below, none of which evaluates them. *)
Definition unused_torch : torch_ext :=
  {| ext_std := fun _ => Raise NotImplementedError;
     ext_cosine_similarity := fun _ _ => Raise NotImplementedError;
     ext_binary_cross_entropy := fun _ _ _ => Raise NotImplementedError |}.

(** Two entities with two binary digits: the first never stops, the second
    stops at each digit with probability one half. *)
Definition two_entities : tensor :=
  Tensor [2; 2; 2]%nat [0; 1; 0; 1; 1 # 2; 1 # 2; 1 # 2; 1 # 2]%Q.

(** Two entities with two binary digits: the code of the first is one digit
    long, the code of the second two digits. *)
Definition hypernyms : tensor :=
  Tensor [2; 2; 2]%nat [0; 1; 1; 0; 0; 1; 0; 1]%Q.

(** Two entities with a single binary digit that never stops. *)
Definition one_digit : tensor := Tensor [2; 1; 2]%nat [0; 1; 0; 1]%Q.

(** One entity with a single binary digit. *)
Definition one_entity_one_digit : tensor := Tensor [1; 1; 2]%nat [0; 1]%Q.

(** Two stopping intensities of one half. *)
Definition half_intensities : tensor := of_list [1 # 2; 1 # 2]%Q.

(** The scenario of section 8 for the auto-scaled MSE. *)
Definition u222 : tensor := of_list [2; 2; 2]%Q.
Definition v111 : tensor := of_list [1; 1; 1]%Q.

(** The same scenario in a floating-point format. *)
Definition u222_float (prec emax : Z) : list SpecFloat.spec_float :=
  map (Ieee.of_int prec emax) [2; 2; 2]%Z.
Definition v111_float (prec emax : Z) : list SpecFloat.spec_float :=
  map (Ieee.of_int prec emax) [1; 1; 1]%Z.

(** The value of a computation that is known to succeed. *)
Definition value (m : result tensor) : tensor :=
  match m with
  | Ok t => t
  | Raise _ => scalar 0
  end.

(** ** Samplers *)

(** An embedding source over a list of words; the embedding of a word is its
    length. *)
Definition vocabulary_source (vocabulary : list string) : word_embeddings_dataset :=
  {| we_len := length vocabulary;
     is_encodable := fun token => existsb (String.eqb token) vocabulary;
     index_to_entity := fun i =>
       match nth_error vocabulary i with
       | Some w => Ok w
       | None => Raise IndexError
       end;
     we_embedding := fun token =>
       if existsb (String.eqb token) vocabulary
       then Ok [inject_Z (Z.of_nat (String.length token))]
       else Raise KeyError |}.

(** The loader of a dataset in order: chunk [i] is
    [records[i*batch_size : (i+1)*batch_size]]. *)
Definition sequential_chunks (records : list hyponymy) (batch_size : Z)
  : list (list hyponymy) :=
  map (fun i => py_slice records (batch_size * Z.of_nat i) (batch_size * (Z.of_nat i + 1)))
      (seq 0 (Z.to_nat (Qceiling (inject_Z (Z.of_nat (length records)) / inject_Z batch_size)))).

(** An environment without randomness: numpy draws the first indices, the
    taxonomy proposes ["tree"] as the one unrelated entity, a set is listed
    in the order of stdpp's [elements]. *)
Definition first_indices : environment unit (list (list hyponymy)) :=
  {| draw_choice := fun g n size => (seq 0 size, g);
     sample_random_hyponyms := fun g entity candidates size exclude =>
       ([(entity, "tree", (- (1))%Q)], g);
     sample_random_hypernyms := fun g entity candidates size exclude =>
       ([("tree", entity, (- (1))%Q)], g);
     list_of_set := elements;
     DataLoader := fun ds batch_size =>
       if (0 <? batch_size)%Z then Ok (sequential_chunks (ds_records ds) batch_size)
       else Raise ValueError;
     iterate := fun loader g => (loader, g) |}.

Definition dog_is_animal : hyponymy :=
  {| hyponym := "dog"; hypernym := "animal"; distance := 3 |}.
Definition cat_is_animal : hyponymy :=
  {| hyponym := "cat"; hypernym := "animal"; distance := 3 |}.
Definition oak_is_tree : hyponymy :=
  {| hyponym := "oak"; hypernym := "tree"; distance := 2 |}.

Definition animals : hyponymy_dataset :=
  {| ds_class := HyponymyDataset;
     ds_records := [dog_is_animal; cat_is_animal; oak_is_tree] |}.

(** A sampler over [vocabulary] with [B_e = 3] and [B_r = 1]. *)
Definition small_sampler (vocabulary : list string)
  : WordEmbeddingsAndHyponymyDataset_object (list (list hyponymy)) :=
  {| _word_embeddings_dataset := vocabulary_source vocabulary;
     _hyponymy_dataset := animals;
     _n_embeddings := length vocabulary;
     _n_hyponymy := 3;
     _embedding_batch_size := 3;
     _hyponymy_batch_size := 1;
     _hyponymy_dataloader := sequential_chunks (ds_records animals) 1;
     _verbose := false |}.

(** The first index of this vocabulary is an entity of [dog_is_animal]. *)
Definition animal_first : list string := ["animal"; "dog"; "cat"; "tree"; "oak"].

(** The first index of this vocabulary is no entity of [dog_is_animal]. *)
Definition tree_first : list string := ["tree"; "oak"; "animal"; "dog"; "cat"].

(** A sampler with [N_relations = 3], [B_r = 2], [B_e = 5] and a vocabulary of
    five words. *)
Definition uneven_sampler : WordEmbeddingsAndHyponymyDataset_object (list (list hyponymy)) :=
  {| _word_embeddings_dataset := vocabulary_source animal_first;
     _hyponymy_dataset := animals;
     _n_embeddings := 5;
     _n_hyponymy := 3;
     _embedding_batch_size := 5;
     _hyponymy_batch_size := 2;
     _hyponymy_dataloader := sequential_chunks (ds_records animals) 2;
     _verbose := true |}.

(** A negative sampler over [tree_first] with [B_e = 6], [B_r = 2] and two
    negatives for each relation, one on each side. *)
Definition negative_sampler : WithNonHyponymyRelation_object (list (list hyponymy)) :=
  {| super :=
       {| _word_embeddings_dataset := vocabulary_source tree_first;
          _hyponymy_dataset := animals;
          _n_embeddings := 5;
          _n_hyponymy := 3;
          _embedding_batch_size := 6;
          _hyponymy_batch_size := 2;
          _hyponymy_dataloader := sequential_chunks (ds_records animals) 2;
          _verbose := false |};
     _non_hyponymy_batch_size := 4;
     _non_hyponymy_multiple := 2;
     _non_hyponymy_relation_distance := None;
     _non_hyponymy_relation_target := "both";
     _exclude_reverse_hyponymy_from_non_hyponymy_relation := true;
     _limit_hyponym_candidates_within_minibatch := true;
     _split_hyponymy_and_non_hyponymy := true;
     _taxonomy := Some BasicTaxonomy |}.

(** The batch that the negative sampler returns for index 0. *)
Definition first_negative_batch : batch :=
  match Dataset.WordEmbeddingsAndHyponymyDatasetWithNonHyponymyRelation.__getitem__ first_indices 1 negative_sampler 0 tt with
  | Some (Ok (b, _)) => b
  | _ => {| embedding := []; entity := []; hyponymy_relation := [];
            hyponymy_relation_raw := []; entity_sampled := None;
            non_hyponymy_relation := None; non_hyponymy_relation_raw := None |}
  end.

(** The batch of [_create_batch_from_hyponymy_samples] for the two animal
    records and two negative records. *)
Definition mixed_batch : batch :=
  match Dataset.WordEmbeddingsAndHyponymyDataset._create_batch_from_hyponymy_samples first_indices
          (super negative_sampler)
          [dog_is_animal;
           {| hyponym := "tree"; hypernym := "animal"; distance := - (1) |};
           cat_is_animal;
           {| hyponym := "cat"; hypernym := "tree"; distance := 0 |}] tt with
  | Ok (b, _) => b
  | Raise _ => {| embedding := []; entity := []; hyponymy_relation := [];
                  hyponymy_relation_raw := []; entity_sampled := None;
                  non_hyponymy_relation := None; non_hyponymy_relation_raw := None |}
  end.

(** A vocabulary of trees: the two animal records are not encodable. *)
Definition trees : list string := ["tree"; "oak"; "elm"; "ash"].

(** A negative sampler over [trees] with [B_e = 4] and [B_r = 2], whose
    negatives get the distance [-2]. *)
Definition forest_sampler : WithNonHyponymyRelation_object (list (list hyponymy)) :=
  {| super :=
       {| _word_embeddings_dataset := vocabulary_source trees;
          _hyponymy_dataset := animals;
          _n_embeddings := 4;
          _n_hyponymy := 3;
          _embedding_batch_size := 4;
          _hyponymy_batch_size := 2;
          _hyponymy_dataloader := sequential_chunks (ds_records animals) 2;
          _verbose := true |};
     _non_hyponymy_batch_size := 2;
     _non_hyponymy_multiple := 1;
     _non_hyponymy_relation_distance := Some (- (2))%Q;
     _non_hyponymy_relation_target := "hyponym";
     _exclude_reverse_hyponymy_from_non_hyponymy_relation := true;
     _limit_hyponym_candidates_within_minibatch := true;
     _split_hyponymy_and_non_hyponymy := true;
     _taxonomy := Some BasicTaxonomy |}.

End Examples.

(* ===================================================================== *)
(** * Properties *)
(* ===================================================================== *)

Import Torch LossSupervised Dataset Spec.

(** ** Indices, tabulation and broadcasting *)

Lemma length_all_indices (s : list nat) : length (all_indices s) = numel s.
Proof.
  induction s as [|n s IH]; simpl; [reflexivity|].
  rewrite (flat_map_constant_length (c := numel s)).
  - now rewrite length_seq.
  - intros x _. now rewrite length_map.
Qed.

Lemma tabulate_well_formed (s : list nat) (g : list nat -> Q) :
  well_formed (tabulate s g).
Proof. unfold well_formed; simpl. now rewrite length_map, length_all_indices. Qed.

Lemma offset_lt (idx s : list nat) :
  valid_index idx s -> (offset s idx < numel s)%nat.
Proof.
  induction 1 as [|i n idx s Hi _ IH]; simpl; [lia|].
  nia.
Qed.

Lemma nth_flat_map_block {A : Type} (F : nat -> list A) (len : nat) (d : A) :
  (forall x, length (F x) = len) ->
  forall n k i j, (i < n)%nat -> (j < len)%nat ->
    nth (i * len + j) (flat_map F (seq k n)) d = nth j (F (k + i)%nat) d.
Proof.
  intros HF. induction n as [|n IH]; intros k i j Hi Hj; [lia|].
  simpl. destruct i as [|i].
  - simpl. rewrite app_nth1 by (rewrite HF; lia). now rewrite Nat.add_0_r.
  - rewrite app_nth2 by (rewrite HF; simpl; lia).
    rewrite HF. replace (S i * len + j - len)%nat with (i * len + j)%nat by (simpl; lia).
    rewrite IH by lia. f_equal. f_equal. lia.
Qed.

Lemma nth_offset_all_indices (idx s : list nat) (d : list nat) :
  valid_index idx s -> nth (offset s idx) (all_indices s) d = idx.
Proof.
  induction 1 as [|i n idx s Hi Hv IH]; simpl; [reflexivity|].
  rewrite (nth_flat_map_block _ (numel s)).
  - simpl. rewrite (nth_indep _ d (i :: d)).
    + rewrite map_nth. now rewrite IH.
    + rewrite length_map, length_all_indices. now apply offset_lt.
  - intros x. now rewrite length_map, length_all_indices.
  - exact Hi.
  - now apply offset_lt.
Qed.

Lemma get_tabulate (s idx : list nat) (g : list nat -> Q) :
  valid_index idx s -> get (tabulate s g) idx = g idx.
Proof.
  intros Hv. unfold get, tabulate; simpl.
  rewrite (nth_indep _ 0%Q (g [])).
  - rewrite map_nth. now rewrite nth_offset_all_indices.
  - rewrite length_map, length_all_indices. now apply offset_lt.
Qed.

Lemma get_tmap (f : Q -> Q) (t : tensor) (idx : list nat) :
  well_formed t -> valid_index idx (shape t) -> get (tmap f t) idx = f (get t idx).
Proof.
  intros Hwf Hv. unfold get, tmap; simpl.
  rewrite (nth_indep _ 0%Q (f 0%Q)).
  - now rewrite map_nth.
  - rewrite length_map, Hwf. now apply offset_lt.
Qed.

Lemma tmap_well_formed (f : Q -> Q) (t : tensor) :
  well_formed t -> well_formed (tmap f t).
Proof. unfold well_formed; simpl. now rewrite length_map. Qed.

(** ** Indices with a last component *)

Lemma valid_index_snoc (pre P : list nat) (k n : nat) :
  valid_index (pre ++ [k]) (P ++ [n]) <-> valid_index pre P /\ (k < n)%nat.
Proof.
  unfold valid_index. split.
  - intros H. apply List.Forall2_app_inv_r in H as (l1 & l2 & H1 & H2 & Heq).
    inversion H2 as [|? ? ? ? Hk Hnil]; subst. inversion Hnil; subst.
    apply app_inj_tail in Heq as [-> ->]. now split.
  - intros [H1 H2]. apply Forall2_app; [exact H1|]. now constructor.
Qed.

Lemma valid_index_snoc_inv (idx P : list nat) (n : nat) :
  valid_index idx (P ++ [n]) ->
  exists pre k, idx = pre ++ [k] /\ valid_index pre P /\ (k < n)%nat.
Proof.
  intros H. apply List.Forall2_app_inv_r in H as (l1 & l2 & H1 & H2 & Heq).
  inversion H2 as [|k ? l2' ? Hk Hnil]; subst. inversion Hnil; subst.
  now exists l1, k.
Qed.

Lemma Forall2_rev {A B : Type} (R : A -> B -> Prop) (l : list A) (l' : list B) :
  Forall2 R l l' -> Forall2 R (rev l) (rev l').
Proof.
  induction 1; simpl; [constructor|].
  apply Forall2_app; [assumption|]. now constructor.
Qed.

(** ** Broadcasting *)

Lemma bdim_same (d : nat) : bdim d d = Some d.
Proof. unfold bdim. now rewrite Nat.eqb_refl. Qed.

Lemma bshape_rev_same (s : list nat) : bshape_rev s s = Some s.
Proof.
  induction s as [|d s IH]; simpl; [reflexivity|].
  now rewrite bdim_same, IH.
Qed.

Lemma bshape_same (s : list nat) : bshape s s = Some s.
Proof. unfold bshape. now rewrite bshape_rev_same, rev_involutive. Qed.

Lemma bshape_rev_longer_l (a p : list nat) : bshape_rev (a ++ p) a = Some (a ++ p).
Proof.
  induction a as [|d a IH]; simpl.
  - now destruct p.
  - now rewrite bdim_same, IH.
Qed.

Lemma bshape_rev_longer_r (a p : list nat) : bshape_rev a (a ++ p) = Some (a ++ p).
Proof.
  induction a as [|d a IH]; simpl; [reflexivity|].
  now rewrite bdim_same, IH.
Qed.

Lemma bshape_suffix_l (P s : list nat) : bshape (P ++ s) s = Some (P ++ s).
Proof.
  unfold bshape. rewrite rev_app_distr, bshape_rev_longer_l.
  now rewrite <- rev_app_distr, rev_involutive.
Qed.

Lemma bshape_suffix_r (P s : list nat) : bshape s (P ++ s) = Some (P ++ s).
Proof.
  unfold bshape. rewrite rev_app_distr, bshape_rev_longer_r.
  now rewrite <- rev_app_distr, rev_involutive.
Qed.

Lemma bidx_rev_same (idx s : list nat) : Forall2 lt idx s -> bidx_rev s idx = idx.
Proof.
  induction 1 as [|i d idx s Hi _ IH]; simpl; [reflexivity|].
  rewrite IH. destruct (Nat.eqb_spec d 1); [|reflexivity].
  f_equal. lia.
Qed.

Lemma bidx_same (idx s : list nat) : valid_index idx s -> bidx s idx = idx.
Proof.
  intros H. unfold bidx. rewrite bidx_rev_same by now apply Forall2_rev.
  apply rev_involutive.
Qed.

Lemma bidx_rev_longer (i j s : list nat) : Forall2 lt i s -> bidx_rev s (i ++ j) = i.
Proof.
  induction 1 as [|i0 d i s Hi _ IH]; simpl.
  - now destruct j.
  - rewrite IH. destruct (Nat.eqb_spec d 1); [|reflexivity].
    f_equal. lia.
Qed.

Lemma bidx_suffix (pre idx s : list nat) :
  valid_index idx s -> bidx s (pre ++ idx) = idx.
Proof.
  intros H. unfold bidx. rewrite rev_app_distr.
  rewrite bidx_rev_longer by now apply Forall2_rev.
  apply rev_involutive.
Qed.

Lemma expandable_rev_refl (s : list nat) : expandable_rev s s.
Proof. induction s; simpl; auto. Qed.

Lemma expandable_rev_trans (a c e : list nat) :
  expandable_rev a c -> expandable_rev c e -> expandable_rev a e.
Proof.
  revert c e. induction a as [|d a IH]; intros [|d' c] [|d'' e]; simpl; try tauto.
  intros [H1 H2] [H3 H4]. split; [|now apply (IH c)].
  destruct H1 as [->| ->]; auto.
Qed.

Lemma bdim_cases (d d' e : nat) :
  bdim d d' = Some e -> (d = e \/ d = 1%nat) /\ (d' = e \/ d' = 1%nat).
Proof.
  unfold bdim.
  destruct (Nat.eqb_spec d d'), (Nat.eqb_spec d 1), (Nat.eqb_spec d' 1);
    intros; simplify_eq; auto.
Qed.

Lemma bshape_rev_expandable (a b c : list nat) :
  bshape_rev a b = Some c -> expandable_rev a c /\ expandable_rev b c.
Proof.
  revert b c. induction a as [|d a IH]; intros b c Hs.
  - simpl in Hs. simplify_eq. split; [exact I|apply expandable_rev_refl].
  - destruct b as [|d' b].
    + simpl in Hs. simplify_eq. split; [apply expandable_rev_refl|exact I].
    + simpl in Hs. destruct (bdim d d') as [e|] eqn:He; [|discriminate].
      destruct (bshape_rev a b) as [q|] eqn:Hq; [|discriminate]. simplify_eq.
      destruct (bdim_cases _ _ _ He) as [H1 H2].
      destruct (IH _ _ Hq) as [H3 H4]. simpl. auto.
Qed.

Lemma bidx_rev_valid (a c i : list nat) :
  expandable_rev a c -> Forall2 lt i c -> Forall2 lt (bidx_rev a i) a.
Proof.
  revert c i. induction a as [|d a IH]; intros c i He Hi.
  - destruct i; constructor.
  - destruct c as [|e c]; [contradiction|]. destruct He as [Hd He].
    inversion Hi as [|i0 ? i' ? Hi0 Hi']; subst. simpl.
    constructor; [|now apply (IH c)].
    destruct (Nat.eqb_spec d 1); lia.
Qed.

Lemma bidx_rev_compose (a c i : list nat) :
  expandable_rev a c -> bidx_rev a (bidx_rev c i) = bidx_rev a i.
Proof.
  revert c i. induction a as [|d a IH]; intros c i He.
  - now destruct (bidx_rev c i).
  - destruct c as [|e c]; [contradiction|]. destruct He as [Hd He].
    destruct i as [|i0 i]; simpl; [reflexivity|].
    rewrite (IH c i He). f_equal.
    destruct (Nat.eqb_spec d 1); [reflexivity|].
    destruct (Nat.eqb_spec e 1); [lia|reflexivity].
Qed.

Lemma expandable_refl (s : list nat) : expandable s s.
Proof. apply expandable_rev_refl. Qed.

Lemma expandable_trans (a c e : list nat) :
  expandable a c -> expandable c e -> expandable a e.
Proof. apply expandable_rev_trans. Qed.

Lemma bshape_expandable (a b c : list nat) :
  bshape a b = Some c -> expandable a c /\ expandable b c.
Proof.
  unfold bshape, expandable.
  destruct (bshape_rev (rev a) (rev b)) as [q|] eqn:Hq; [|discriminate].
  intros; simplify_eq. rewrite rev_involutive. now apply bshape_rev_expandable.
Qed.

Lemma bidx_valid (a c idx : list nat) :
  expandable a c -> valid_index idx c -> valid_index (bidx a idx) a.
Proof.
  intros He Hv. unfold valid_index, bidx.
  rewrite <- (rev_involutive a) at 2. apply Forall2_rev.
  apply (bidx_rev_valid _ (rev c)); [exact He|now apply Forall2_rev].
Qed.

Lemma bidx_compose (a c idx : list nat) :
  expandable a c -> bidx a (bidx c idx) = bidx a idx.
Proof.
  intros He. unfold bidx. rewrite rev_involutive.
  now rewrite (bidx_rev_compose _ (rev c)).
Qed.

(** ** Entries of the results of the operations *)

Lemma bget_tabulate (s c idx : list nat) (g : list nat -> Q) :
  expandable s c -> valid_index idx c ->
  bget (tabulate s g) idx = g (bidx s idx).
Proof.
  intros He Hv. unfold bget. simpl. apply get_tabulate.
  now apply (bidx_valid _ c).
Qed.

Lemma binop_inv (f : Q -> Q -> Q) (a b c : tensor) :
  binop f a b = Ok c ->
  exists s, bshape (shape a) (shape b) = Some s /\
            c = tabulate s (fun idx => f (bget a idx) (bget b idx)).
Proof.
  unfold binop. destruct (bshape (shape a) (shape b)) as [s|]; [|discriminate].
  intros; simplify_eq. now exists s.
Qed.

Lemma binop_well_formed (f : Q -> Q -> Q) (a b c : tensor) :
  binop f a b = Ok c -> well_formed c.
Proof.
  intros H. apply binop_inv in H as (s & _ & ->). apply tabulate_well_formed.
Qed.

Lemma binop_expandable (f : Q -> Q -> Q) (a b c : tensor) :
  binop f a b = Ok c ->
  expandable (shape a) (shape c) /\ expandable (shape b) (shape c).
Proof.
  intros H. apply binop_inv in H as (s & Hs & ->). simpl.
  now apply bshape_expandable.
Qed.

(** The entry of [a op b] that is read at an index of any shape to which the
    result expands is [op] of the entries of [a] and [b] read at this index. *)
Lemma bget_binop (f : Q -> Q -> Q) (a b c : tensor) (s idx : list nat) :
  binop f a b = Ok c -> expandable (shape c) s -> valid_index idx s ->
  bget c idx = f (bget a idx) (bget b idx).
Proof.
  intros H He Hv. apply binop_inv in H as (sc & Hs & ->). simpl in He.
  rewrite (bget_tabulate _ s) by assumption.
  destruct (bshape_expandable _ _ _ Hs) as [Ha Hb].
  unfold bget. now rewrite (bidx_compose _ sc), (bidx_compose _ sc).
Qed.

Lemma bget_tmap (f : Q -> Q) (t : tensor) (s idx : list nat) :
  well_formed t -> expandable (shape t) s -> valid_index idx s ->
  bget (tmap f t) idx = f (bget t idx).
Proof.
  intros Hwf He Hv. unfold bget. simpl. apply get_tmap; [exact Hwf|].
  now apply (bidx_valid _ s).
Qed.

Lemma bget_valid (t : tensor) (idx : list nat) :
  valid_index idx (shape t) -> bget t idx = get t idx.
Proof. intros H. unfold bget. now rewrite bidx_same. Qed.


(** ** The exception monad *)

Lemma bind_inv {A B : Type} (m : result A) (f : A -> result B) (v : B) :
  mbind f m = Ok v -> exists a, m = Ok a /\ f a = Ok v.
Proof. destruct m as [a|e]; simpl; [|discriminate]. intros H. now exists a. Qed.

Ltac inv_bind H :=
  repeat (let a := fresh "r" in
          let Ha := fresh "H" a in
          apply bind_inv in H as (a & Ha & H)).

Lemma sum_last_well_formed (t : tensor) : well_formed t -> well_formed (sum_last t).
Proof.
  intros H. unfold sum_last. destruct (rev (shape t)); [exact H|].
  apply tabulate_well_formed.
Qed.



(** ** Entries of scans, reductions and concatenations *)

Import CodeLengthPredictionLoss HyponymyScoreLoss.

Lemma index_select_last_snoc (t : tensor) (P : list nat) (n i : nat) :
  shape t = P ++ [n] -> (i < n)%nat ->
  index_select_last t i
  = Ok (tabulate (P ++ [1%nat]) (fun idx => get t (removelast idx ++ [i]))).
Proof.
  intros Hs Hi. unfold index_select_last. rewrite Hs, rev_unit, removelast_last.
  destruct (Nat.ltb_spec i n); [reflexivity|lia].
Qed.

Lemma cat_last_snoc (a b : tensor) (P : list nat) (n m : nat) :
  shape a = P ++ [n] -> shape b = P ++ [m] ->
  exists c, cat_last a b = Ok c /\ shape c = P ++ [(n + m)%nat] /\ well_formed c /\
    forall pre k, valid_index pre P -> (k < n + m)%nat ->
      get c (pre ++ [k])
      = if (k <? n)%nat then get a (pre ++ [k]) else get b (pre ++ [(k - n)%nat]).
Proof.
  intros Ha Hb. unfold cat_last. rewrite Ha, Hb, !rev_unit, !removelast_last.
  rewrite decide_True by reflexivity.
  eexists; split; [reflexivity|]. split; [reflexivity|].
  split; [apply tabulate_well_formed|].
  intros pre k Hp Hk. rewrite get_tabulate by now apply valid_index_snoc.
  cbv zeta. now rewrite last_last, removelast_last.
Qed.

Lemma prod_upto_ext (x x' : nat -> Q) (k : nat) :
  (forall j, (j <= k)%nat -> x j = x' j) -> prod_upto x k = prod_upto x' k.
Proof.
  induction k as [|k IH]; intros H; simpl.
  - apply H; lia.
  - rewrite IH by (intros; apply H; lia). now rewrite (H (S k)) by lia.
Qed.

Lemma cumprod_last_snoc (t : tensor) (P : list nat) (n : nat) :
  shape t = P ++ [n] ->
  shape (cumprod_last t) = P ++ [n] /\ well_formed (cumprod_last t) /\
  forall pre k, valid_index pre P -> (k < n)%nat ->
    get (cumprod_last t) (pre ++ [k]) = prod_upto (fun j => get t (pre ++ [j])) k.
Proof.
  intros Hs. unfold cumprod_last. rewrite Hs.
  destruct (P ++ [n]) as [|d s] eqn:E; [now destruct P|]. rewrite <- E.
  split; [reflexivity|]. split; [apply tabulate_well_formed|].
  intros pre k Hp Hk. rewrite get_tabulate by now apply valid_index_snoc.
  now rewrite last_last, removelast_last.
Qed.

Lemma sum_last_snoc (t : tensor) (P : list nat) (n : nat) :
  shape t = P ++ [n] ->
  sum_last t
  = tabulate P (fun idx => qsum (map (fun k => get t (idx ++ [k])) (seq 0 n))).
Proof.
  intros Hs. unfold sum_last. now rewrite Hs, rev_unit, removelast_last.
Qed.

Lemma get_arange (n k : nat) :
  (k < n)%nat -> get (arange n) [k] = inject_Z (Z.of_nat k).
Proof.
  intros Hk. unfold arange. rewrite get_tabulate; [reflexivity|].
  constructor; [exact Hk|constructor].
Qed.

Lemma get_full (s idx : list nat) (x : Q) :
  valid_index idx s -> get (full s x) idx = x.
Proof. intros H. unfold full. now rewrite get_tabulate. Qed.

Lemma binop_same_shape (f : Q -> Q -> Q) (a b : tensor) :
  shape a = shape b ->
  exists c, binop f a b = Ok c /\ shape c = shape a /\ well_formed c /\
    forall idx, valid_index idx (shape a) -> get c idx = f (get a idx) (get b idx).
Proof.
  intros Hs. unfold binop. rewrite <- Hs, bshape_same.
  eexists; split; [reflexivity|]. split; [reflexivity|].
  split; [apply tabulate_well_formed|].
  intros idx Hv. rewrite get_tabulate by exact Hv.
  rewrite bget_valid by exact Hv. rewrite bget_valid by now rewrite <- Hs.
  reflexivity.
Qed.

Lemma binop_suffix_shape (f : Q -> Q -> Q) (a b : tensor) (P s : list nat) :
  shape a = P ++ s -> shape b = s ->
  exists c, binop f a b = Ok c /\ shape c = P ++ s /\ well_formed c /\
    forall pre idx, valid_index pre P -> valid_index idx s ->
      get c (pre ++ idx) = f (get a (pre ++ idx)) (get b idx).
Proof.
  intros Ha Hb. unfold binop. rewrite Ha, Hb, bshape_suffix_l.
  eexists; split; [reflexivity|]. split; [reflexivity|].
  split; [apply tabulate_well_formed|].
  intros pre idx Hp Hi.
  assert (valid_index (pre ++ idx) (P ++ s)) as Hv by now apply Forall2_app.
  rewrite get_tabulate by exact Hv.
  rewrite bget_valid by now rewrite Ha.
  unfold bget. now rewrite Hb, bidx_suffix.
Qed.


Lemma intensity_to_probability_snoc (z : tensor) (P : list nat) (n : nat) :
  shape z = P ++ [n] ->
  exists pr, _intensity_to_probability z = Ok pr /\ shape pr = P ++ [S n] /\
    well_formed pr /\
    forall pre k, valid_index pre P -> (k < S n)%nat ->
      get pr (pre ++ [k]) = stop_probability (fun j => get z (pre ++ [j])) n k.
Proof.
  intros Hs. unfold _intensity_to_probability, pad_shape.
  rewrite Hs, removelast_last.
  destruct (cat_last_snoc (zeros (P ++ [1%nat])) z P 1 n eq_refl Hs)
    as (c1 & Hc1 & Sc1 & Wc1 & Gc1).
  destruct (cat_last_snoc z (ones (P ++ [1%nat])) P n 1 Hs eq_refl)
    as (c2 & Hc2 & Sc2 & Wc2 & Gc2).
  rewrite Hc1, Hc2. cbn [mbind result_bind Py.bind].
  change (1 + n)%nat with (S n) in Sc1. rewrite Nat.add_1_r in Sc2.
  destruct (cumprod_last_snoc (rsub 1 c1) P (S n) Sc1) as (Scp & Wcp & Gcp).
  destruct (binop_same_shape Qmult (cumprod_last (rsub 1 c1)) c2) as (m & Hm & Sm & Wm & Gm).
  { now rewrite Scp, Sc2. }
  exists m. split; [exact Hm|]. split; [now rewrite Sm, Scp|]. split; [exact Wm|].
  intros pre k Hp Hk.
  assert (valid_index (pre ++ [k]) (P ++ [S n])) as Hv by now apply valid_index_snoc.
  rewrite Gm by now rewrite Scp. rewrite Gcp by assumption.
  unfold stop_probability. f_equal.
  - apply prod_upto_ext. intros j Hj.
    unfold rsub. rewrite get_tmap; [|exact Wc1|rewrite Sc1; apply valid_index_snoc; split; [assumption|lia]].
    rewrite Gc1 by (first [assumption | simpl; lia]).
    destruct (Nat.ltb_spec j 1); [|reflexivity].
    unfold zeros. rewrite get_full; [reflexivity|apply valid_index_snoc; split; [assumption|lia]].
  - rewrite Gc2 by (first [assumption | lia]).
    destruct (Nat.ltb_spec k n); [reflexivity|].
    unfold ones. rewrite get_full; [reflexivity|apply valid_index_snoc; split; [assumption|lia]].
Qed.


(** ** The stopping process *)

Section StoppingProcess.

Local Open Scope Q_scope.


(** ** Sums over [seq] *)

Lemma qsum_seq_S (h : nat -> Q) (n : nat) :
  qsum (map h (seq 0 (S n))) = (qsum (map h (seq 0 n)) + h n)%Q.
Proof.
  unfold qsum. rewrite seq_S, map_app, fold_left_app. reflexivity.
Qed.

Lemma qsum_seq_0 (h : nat -> Q) : qsum (map h (seq 0 0)) = 0%Q.
Proof. reflexivity. Qed.

Lemma qsum_seq_ext (h h' : nat -> Q) (n : nat) :
  (forall k, (k < n)%nat -> h k == h' k) ->
  qsum (map h (seq 0 n)) == qsum (map h' (seq 0 n)).
Proof.
  induction n as [|n IH]; intros H; [reflexivity|].
  rewrite !qsum_seq_S, IH, (H n) by (intros; try apply H; lia). reflexivity.
Qed.

Lemma qsum_seq_front (h : nat -> Q) (n : nat) :
  qsum (map h (seq 0 (S n))) == h 0%nat + qsum (map (fun k => h (S k)) (seq 0 n)).
Proof.
  induction n as [|n IH].
  - rewrite qsum_seq_S, !qsum_seq_0. ring.
  - rewrite qsum_seq_S, IH, (qsum_seq_S (fun k => h (S k))). ring.
Qed.

Lemma qsum_seq_scale (c : Q) (h : nat -> Q) (n : nat) :
  qsum (map (fun k => c * h k) (seq 0 n)) == c * qsum (map h (seq 0 n)).
Proof.
  induction n as [|n IH]; [rewrite !qsum_seq_0; ring|].
  rewrite !qsum_seq_S, IH. ring.
Qed.

Lemma qsum_seq_add (h h' : nat -> Q) (n : nat) :
  qsum (map (fun k => h k + h' k) (seq 0 n))
  == qsum (map h (seq 0 n)) + qsum (map h' (seq 0 n)).
Proof.
  induction n as [|n IH]; [rewrite !qsum_seq_0; ring|].
  rewrite !qsum_seq_S, IH. ring.
Qed.

(** ** The stopping process *)

Lemma stop_probability_0 (z : nat -> Q) (n : nat) :
  stop_probability z (S n) 0 == z 0%nat.
Proof. unfold stop_probability. simpl. ring. Qed.

Lemma survival_front (z : nat -> Q) (k : nat) :
  prod_upto (fun j => 1 - (if (j <? 1)%nat then 0 else z (j - 1)%nat)) (S k)
  == (1 - z 0%nat)
     * prod_upto (fun j => 1 - (if (j <? 1)%nat then 0 else z (S (j - 1)))) k.
Proof.
  induction k as [|k IH].
  - simpl. ring.
  - change (prod_upto ?x (S (S k))) with (prod_upto x (S k) * x (S (S k)))%Q.
    rewrite IH.
    change (prod_upto ?x (S k)) with (prod_upto x k * x (S k))%Q.
    simpl. rewrite Nat.sub_0_r. ring.
Qed.

Lemma stop_probability_S (z : nat -> Q) (n k : nat) :
  stop_probability z (S n) (S k)
  == (1 - z 0%nat) * stop_probability (fun j => z (S j)) n k.
Proof.
  unfold stop_probability. rewrite survival_front.
  change (S k <? S n)%nat with (k <? n)%nat. ring.
Qed.

Lemma stop_probability_total (z : nat -> Q) (n : nat) :
  qsum (map (stop_probability z n) (seq 0 (S n))) == 1.
Proof.
  revert z. induction n as [|n IH]; intros z.
  - rewrite qsum_seq_S, qsum_seq_0. unfold stop_probability. simpl. ring.
  - rewrite qsum_seq_front, stop_probability_0.
    rewrite (qsum_seq_ext _ (fun k => (1 - z 0%nat) * stop_probability (fun j => z (S j)) n k))
      by (intros; apply stop_probability_S).
    rewrite qsum_seq_scale, IH. ring.
Qed.

Lemma inject_Z_S (k : nat) :
  inject_Z (Z.of_nat (S k)) == inject_Z (Z.of_nat k) + 1.
Proof. rewrite Nat2Z.inj_succ, <- Z.add_1_r, inject_Z_plus. reflexivity. Qed.

Lemma expected_stop (z : nat -> Q) (n : nat) :
  qsum (map (fun k => stop_probability z n k * inject_Z (Z.of_nat k)) (seq 0 (S n)))
  == expected_length z n.
Proof.
  revert z. induction n as [|n IH]; intros z.
  - rewrite qsum_seq_S, qsum_seq_0. simpl. ring.
  - rewrite qsum_seq_front.
    rewrite (qsum_seq_ext _
               (fun k => (1 - z 0%nat)
                         * (stop_probability (fun j => z (S j)) n k * inject_Z (Z.of_nat k)
                            + stop_probability (fun j => z (S j)) n k))).
    + rewrite qsum_seq_scale, qsum_seq_add, IH, stop_probability_total.
      simpl. ring.
    + intros k _. rewrite stop_probability_S, inject_Z_S. ring.
Qed.

Lemma expected_length_bounds (z : nat -> Q) (n : nat) :
  (forall j, (j < n)%nat -> 0 <= z j <= 1) ->
  0 <= expected_length z n <= inject_Z (Z.of_nat n).
Proof.
  revert z. induction n as [|n IH]; intros z Hz.
  - simpl. split; apply Qle_refl.
  - assert (0 <= expected_length (fun j => z (S j)) n <= inject_Z (Z.of_nat n)) as [L U]
      by (apply IH; intros; apply Hz; lia).
    destruct (Hz 0%nat) as [L0 U0]; [lia|].
    rewrite inject_Z_S. simpl. split; nra.
Qed.

Lemma expected_length_all_zero (z : nat -> Q) (n : nat) :
  (forall j, (j < n)%nat -> z j == 0) ->
  expected_length z n == inject_Z (Z.of_nat n).
Proof.
  revert z. induction n as [|n IH]; intros z Hz.
  - reflexivity.
  - rewrite inject_Z_S. simpl. rewrite IH by (intros; apply Hz; lia).
    rewrite (Hz 0%nat) by lia. ring.
Qed.

Lemma expected_length_first_one (z : nat -> Q) (n : nat) :
  (0 < n)%nat -> z 0%nat == 1 -> expected_length z n == 0.
Proof.
  intros Hn H. destruct n as [|n]; [lia|]. simpl. rewrite H. ring.
Qed.


End StoppingProcess.

(** ** Soft code length *)


Lemma batch_prefix_row (B : nat) (pre : list nat) :
  valid_index pre (batch_prefix B) -> (hd 0%nat pre < B)%nat.
Proof.
  unfold batch_prefix. destruct (Nat.eqb_spec B 1) as [->|]; intros H.
  - inversion H; subst. simpl. lia.
  - inversion H as [|b ? ? ? Hb Hn]; subst. exact Hb.
Qed.

Lemma squeeze_select_zero (t : tensor) (B N A : nat) :
  shape t = [B; N; A] -> (0 < A)%nat -> N <> 1%nat ->
  exists sel, index_select_last t 0 = Ok sel /\
    shape (squeeze sel) = batch_prefix B ++ [N] /\
    forall pre n, valid_index pre (batch_prefix B) -> (n < N)%nat ->
      get (squeeze sel) (pre ++ [n]) = get t [hd 0%nat pre; n; 0%nat].
Proof.
  intros Hs HA HN.
  rewrite (index_select_last_snoc t [B; N] A 0 Hs HA).
  eexists; split; [reflexivity|].
  unfold squeeze, batch_prefix. cbn [shape tabulate app List.filter].
  destruct (Nat.eqb_spec N 1) as [|_]; [contradiction|].
  destruct (Nat.eqb_spec B 1) as [->|HB]; cbn [negb app]; (split; [reflexivity|]);
    intros pre n Hp Hn.
  - inversion Hp; subst.
    transitivity (get (tabulate [1; N; 1]%nat (fun idx => get t (removelast idx ++ [0%nat])))
                      [0; n; 0]%nat).
    + unfold get. cbn [shape data app tabulate]. f_equal; try (simpl; lia).
    + rewrite get_tabulate; [reflexivity|].
      repeat constructor; lia.
  - inversion Hp as [|b ? ? ? Hb Hnil]; subst. inversion Hnil; subst.
    transitivity (get (tabulate [B; N; 1]%nat (fun idx => get t (removelast idx ++ [0%nat])))
                      [b; n; 0]%nat).
    + unfold get. cbn [shape data app tabulate]. f_equal; try (simpl; lia).
    + rewrite get_tabulate; [reflexivity|].
      repeat constructor; lia.
Qed.

Lemma stop_probability_ext (z z' : nat -> Q) (n k : nat) :
  (forall j, (j < n)%nat -> z j = z' j) -> (k <= n)%nat ->
  stop_probability z n k = stop_probability z' n k.
Proof.
  intros H Hk. unfold stop_probability. f_equal.
  - apply prod_upto_ext. intros j Hj.
    destruct (Nat.ltb_spec j 1); [reflexivity|]. rewrite H by lia. reflexivity.
  - destruct (Nat.ltb_spec k n); [now apply H|reflexivity].
Qed.

(** The value of [calc_soft_code_length] on a batch of shape [(B, N, A)] with
    [N <> 1]: one entry for each row that [squeeze] leaves, the expected
    stopping position of the row. *)
Lemma calc_soft_code_length_rows (t : tensor) (B N A : nat) :
  shape t = [B; N; A] -> (0 < A)%nat -> N <> 1%nat ->
  exists r, calc_soft_code_length t = Ok r /\ shape r = batch_prefix B /\
    well_formed r /\
    forall pre, valid_index pre (batch_prefix B) ->
      (get r pre == expected_length (fun n => get t [hd 0%nat pre; n; 0%nat]) N)%Q.
Proof.
  intros Hs HA HN.
  destruct (squeeze_select_zero t B N A Hs HA HN) as (sel & Hsel & Sz & Gz).
  unfold calc_soft_code_length. rewrite Hsel. cbn [mbind result_bind Py.bind].
  unfold shape_last. rewrite Sz, rev_unit. cbn [mbind result_bind Py.bind].
  destruct (intensity_to_probability_snoc _ _ _ Sz) as (pr & Hpr & Spr & Wpr & Gpr).
  rewrite Hpr. cbn [mbind result_bind Py.bind]. rewrite Nat.add_1_r.
  destruct (binop_suffix_shape Qmult pr (arange (S N)) (batch_prefix B) [S N] Spr eq_refl)
    as (m & Hm & Sm & Wm & Gm).
  unfold mul. rewrite Hm. cbn [mbind result_bind Py.bind].
  rewrite (sum_last_snoc m _ _ Sm).
  eexists; split; [reflexivity|]. split; [reflexivity|].
  split; [apply tabulate_well_formed|].
  intros pre Hp. rewrite get_tabulate by exact Hp.
  rewrite <- expected_stop. apply qsum_seq_ext. intros k Hk.
  rewrite Gm; [|exact Hp|constructor; [exact Hk|constructor]].
  rewrite Gpr by assumption. rewrite get_arange by exact Hk.
  rewrite (stop_probability_ext _ (fun n => get t [hd 0%nat pre; n; 0%nat]) N k);
    [reflexivity| |lia].
  intros j Hj. now apply Gz.
Qed.

Lemma qsum_seq_nonneg (h : nat -> Q) (n : nat) :
  (forall k, (k < n)%nat -> (0 <= h k)%Q) -> (0 <= qsum (map h (seq 0 n)))%Q.
Proof.
  induction n as [|n IH]; intros H; [rewrite qsum_seq_0; lra|].
  rewrite qsum_seq_S. pose proof (H n ltac:(lia)).
  assert (0 <= qsum (map h (seq 0 n)))%Q by (apply IH; intros; apply H; lia).
  lra.
Qed.

Lemma qsum_seq_term_le (h : nat -> Q) (n a : nat) :
  (forall k, (k < n)%nat -> (0 <= h k)%Q) -> (a < n)%nat ->
  (h a <= qsum (map h (seq 0 n)))%Q.
Proof.
  induction n as [|n IH]; intros H Ha; [lia|].
  rewrite qsum_seq_S. pose proof (H n ltac:(lia)) as Hn.
  assert (0 <= qsum (map h (seq 0 n)))%Q as L
    by (apply qsum_seq_nonneg; intros; apply H; lia).
  destruct (Nat.eq_dec a n) as [->|Hne]; [lra|].
  assert (h a <= qsum (map h (seq 0 n)))%Q by (apply IH; [intros; apply H|]; lia).
  lra.
Qed.

Lemma code_distribution_zero_digit (t : tensor) (B N A : nat) (b n : nat) :
  code_distribution t B N A -> (0 < A)%nat -> (b < B)%nat -> (n < N)%nat ->
  (0 <= get t [b; n; 0%nat] <= 1)%Q.
Proof.
  intros [_ H] HA Hb Hn. destruct (H b n Hb Hn) as [Hpos Hsum].
  split; [now apply Hpos|].
  rewrite <- Hsum. now apply (qsum_seq_term_le (fun a => get t [b; n; a]) A 0).
Qed.

(** For every batch of code distributions with [n_digits <> 1]: the soft
    code length of each entity lies in [[0, n_digits]]; it is [n_digits] when
    every digit-0 probability is 0, and 0 when the first one is 1. *)
Theorem calc_soft_code_length_bounds (t : tensor) (B N A : nat) :
  code_distribution t B N A -> (0 < A)%nat -> N <> 1%nat ->
  exists r, calc_soft_code_length t = Ok r /\ shape r = batch_prefix B /\
    forall pre, valid_index pre (batch_prefix B) ->
      let b := hd 0%nat pre in
      (0 <= get r pre <= inject_Z (Z.of_nat N))%Q /\
      ((forall n, (n < N)%nat -> get t [b; n; 0%nat] == 0)%Q ->
       (get r pre == inject_Z (Z.of_nat N))%Q) /\
      ((0 < N)%nat -> (get t [b; 0; 0]%nat == 1)%Q -> (get r pre == 0)%Q).
Proof.
  intros Hd HA HN.
  destruct (calc_soft_code_length_rows t B N A (proj1 Hd) HA HN) as (r & Hr & Sr & _ & Gr).
  exists r. split; [exact Hr|]. split; [exact Sr|].
  intros pre Hp b. pose proof (batch_prefix_row _ _ Hp) as Hb. fold b in Hb.
  rewrite (Gr pre Hp). fold b. repeat split.
  - apply expected_length_bounds. intros j Hj.
    now apply (code_distribution_zero_digit t B N A).
  - apply expected_length_bounds. intros j Hj.
    now apply (code_distribution_zero_digit t B N A).
  - intros Hz. now apply expected_length_all_zero.
  - intros HN0 H1. now apply expected_length_first_one.
Qed.


(** ** Hyponymy score *)


Lemma calc_ancestor_probability_well_formed (x y alpha : tensor) :
  calc_ancestor_probability x y = Ok alpha -> well_formed alpha.
Proof.
  unfold calc_ancestor_probability. intros H.
  apply bind_inv in H as ([n_digits n_ary] & _ & H).
  inv_bind H. simplify_eq. apply sum_last_well_formed.
  eapply binop_well_formed; eassumption.
Qed.

(** Claim C7: at every index of its result, [calc_soft_hyponymy_score] is
    [alpha * (L_y - L_x) + (1 - alpha) * (L_lca - L_x)] of the entries that
    broadcasting reads of the ancestor probability [alpha], the soft code
    lengths [L_x], [L_y] and the soft LCA length [L_lca]; where the ancestor
    probability is 1, the score is [L_y - L_x]. The score is defined when the
    four results have one shape. *)
Theorem hyponymy_score_formula (x y l_hyper l_hypo alpha l_lca : tensor) :
  calc_soft_code_length x = Ok l_hyper ->
  calc_soft_code_length y = Ok l_hypo ->
  calc_ancestor_probability x y = Ok alpha ->
  calc_soft_lowest_common_ancestor_length x y = Ok l_lca ->
  (forall score idx,
      calc_soft_hyponymy_score x y = Ok score ->
      valid_index idx (shape score) ->
      get score idx
      = (bget alpha idx * (bget l_hypo idx - bget l_hyper idx)
         + (1 - bget alpha idx) * (bget l_lca idx - bget l_hyper idx))%Q
      /\ (bget alpha idx == 1 ->
          get score idx == bget l_hypo idx - bget l_hyper idx)%Q)
  /\ (shape l_hypo = shape l_hyper -> shape alpha = shape l_hyper ->
      shape l_lca = shape l_hyper ->
      exists score, calc_soft_hyponymy_score x y = Ok score
                    /\ shape score = shape l_hyper).
Proof.
  intros Hx Hy Ha Hl. split.
  - intros score idx Hs Hv.
    unfold calc_soft_hyponymy_score in Hs. rewrite Hx, Hy, Ha, Hl in Hs. simpl in Hs.
    apply bind_inv in Hs as (d1 & Hd1 & Hs). apply bind_inv in Hs as (a1 & Ha1 & Hs).
    apply bind_inv in Hs as (d2 & Hd2 & Hs). apply bind_inv in Hs as (a2 & Ha2 & Hs).
    pose proof (calc_ancestor_probability_well_formed _ _ _ Ha) as Hwf.
    destruct (binop_expandable _ _ _ _ Hs) as [E1 E2].
    destruct (binop_expandable _ _ _ _ Ha1) as [E3 E4].
    destruct (binop_expandable _ _ _ _ Ha2) as [E5 E6].
    assert (get score idx
            = (bget alpha idx * (bget l_hypo idx - bget l_hyper idx)
               + (1 - bget alpha idx) * (bget l_lca idx - bget l_hyper idx))%Q) as Heq.
    { rewrite <- (bget_valid score idx Hv).
      rewrite (bget_binop _ _ _ _ _ _ Hs (expandable_refl _) Hv).
      rewrite (bget_binop _ _ _ _ _ _ Ha1 E1 Hv).
      rewrite (bget_binop _ _ _ _ _ _ Ha2 E2 Hv).
      rewrite (bget_binop _ _ _ _ _ _ Hd1 (expandable_trans _ _ _ E4 E1) Hv).
      rewrite (bget_binop _ _ _ _ _ _ Hd2 (expandable_trans _ _ _ E6 E2) Hv).
      unfold rsub. rewrite (bget_tmap _ _ (shape score)); [reflexivity|exact Hwf| |exact Hv].
      simpl in E5. exact (expandable_trans _ _ _ E5 E2). }
    split; [exact Heq|]. intros H1. rewrite Heq, H1. ring.
  - intros S1 S2 S3. unfold calc_soft_hyponymy_score. rewrite Hx, Hy, Ha, Hl.
    unfold sub, mul, add, binop, rsub, tmap, tabulate; cbn [mbind result_bind Py.bind shape].
    rewrite S1, bshape_same; cbn [mbind result_bind Py.bind shape].
    rewrite S2, bshape_same; cbn [mbind result_bind Py.bind shape].
    rewrite S3, bshape_same; cbn [mbind result_bind Py.bind shape].
    rewrite bshape_same; cbn [mbind result_bind Py.bind shape].
    rewrite bshape_same. eexists; split; reflexivity.
Qed.


(** ** The scoring functions on batches with [n_digits <> 1] *)

Lemma binop_shape (f : Q -> Q -> Q) (a b : tensor) (s : list nat) :
  bshape (shape a) (shape b) = Some s ->
  exists c, binop f a b = Ok c /\ shape c = s /\ well_formed c.
Proof.
  intros H. unfold binop. rewrite H. eexists. split; [reflexivity|].
  split; [reflexivity|apply tabulate_well_formed].
Qed.

Lemma bshape_batch_prefix_l (B : nat) (s : list nat) :
  bshape (B :: s) (batch_prefix B ++ s) = Some (B :: s).
Proof.
  unfold batch_prefix. destruct (Nat.eqb_spec B 1) as [->|_].
  - apply (bshape_suffix_l [1%nat] s).
  - apply bshape_same.
Qed.

Lemma bshape_batch_prefix_r (B : nat) (s : list nat) :
  bshape (batch_prefix B ++ s) (B :: s) = Some (B :: s).
Proof.
  unfold batch_prefix. destruct (Nat.eqb_spec B 1) as [->|_].
  - apply (bshape_suffix_r [1%nat] s).
  - apply bshape_same.
Qed.

Lemma narrow_last_snoc (t : tensor) (P : list nat) (n len : nat) :
  shape t = P ++ [n] -> (len <= n)%nat ->
  exists c, narrow_last t len = Ok c /\ shape c = P ++ [len].
Proof.
  intros Hs Hl. unfold narrow_last. rewrite Hs, rev_unit, removelast_last.
  destruct (Nat.leb_spec len n); [|lia]. eexists. split; reflexivity.
Qed.

Lemma shape_sum_last (t : tensor) (P : list nat) (n : nat) :
  shape t = P ++ [n] -> shape (sum_last t) = P.
Proof. intros H. now rewrite (sum_last_snoc t P n H). Qed.

(** The break intensity and the product row of two batches have one row for
    each entity, also when the batch has one entity. *)
Lemma calc_break_intensity_shape (x y : tensor) (B N A : nat) :
  shape x = [B; N; A] -> shape y = [B; N; A] -> (0 < A)%nat -> N <> 1%nat ->
  exists r, HyponymyScoreLoss._calc_break_intensity x y = Ok r /\ shape r = [B; N].
Proof.
  intros Sx Sy HA HN. unfold HyponymyScoreLoss._calc_break_intensity.
  destruct (squeeze_select_zero x B N A Sx HA HN) as (selx & Hx & Szx & _).
  destruct (squeeze_select_zero y B N A Sy HA HN) as (sely & Hy & Szy & _).
  rewrite Hx, Hy. cbn [mbind result_bind Py.bind].
  destruct (binop_same_shape Qmult x y) as (xy & Hxy & Sxy & _); [congruence|].
  destruct (binop_same_shape Qmult (squeeze selx) (squeeze sely)) as (zz & Hzz & Szz & _);
    [congruence|].
  unfold mul. rewrite Hxy, Hzz. cbn [mbind result_bind Py.bind].
  assert (shape (sum_last xy) = [B; N]) as Ss
    by (apply (shape_sum_last xy [B; N] A); rewrite Sxy, Sx; reflexivity).
  destruct (binop_shape Qminus (sum_last xy) zz [B; N]) as (d & Hd & Sd & _).
  { rewrite Ss, Szz, Szx. apply (bshape_batch_prefix_l B [N]). }
  unfold sub. rewrite Hd. cbn [mbind result_bind Py.bind].
  eexists. split; [reflexivity|]. exact Sd.
Qed.

Lemma calc_ancestor_probability_shape (x y : tensor) (B N A : nat) :
  shape x = [B; N; A] -> shape y = [B; N; A] -> (0 < A)%nat -> N <> 1%nat ->
  exists r, HyponymyScoreLoss.calc_ancestor_probability x y = Ok r /\ shape r = [B].
Proof.
  intros Sx Sy HA HN. unfold HyponymyScoreLoss.calc_ancestor_probability.
  unfold shape_last2. rewrite Sx. cbn [rev app mbind result_bind Py.bind].
  destruct (squeeze_select_zero x B N A Sx HA HN) as (selx & Hx & Szx & _).
  destruct (squeeze_select_zero y B N A Sy HA HN) as (sely & Hy & Szy & _).
  rewrite Hx, Hy. cbn [mbind result_bind Py.bind].
  destruct (binop_same_shape Qmult (squeeze selx) (rsub 1 (squeeze sely)))
    as (beta & Hbeta & Sbeta & _); [cbn [rsub tmap shape]; congruence|].
  destruct (binop_same_shape Qmult x y) as (xy & Hxy & Sxy & _); [congruence|].
  destruct (binop_same_shape Qmult (squeeze selx) (squeeze sely)) as (zz & Hzz & Szz & _);
    [congruence|].
  unfold mul. rewrite Hbeta, Hxy, Hzz. cbn [mbind result_bind Py.bind].
  assert (shape (sum_last xy) = [B; N]) as Ss
    by (apply (shape_sum_last xy [B; N] A); rewrite Sxy, Sx; reflexivity).
  destruct (binop_shape Qminus (sum_last xy) zz [B; N]) as (gamma_hat & Hg & Sg & _).
  { rewrite Ss, Szz, Szx. apply (bshape_batch_prefix_l B [N]). }
  unfold sub. rewrite Hg. cbn [mbind result_bind Py.bind].
  unfold pad_shape. rewrite Sg. cbn [removelast app].
  destruct (cat_last_snoc (ones [B; 1%nat]) gamma_hat [B] 1 N eq_refl Sg)
    as (c & Hc & Sc & _).
  rewrite Hc. cbn [mbind result_bind Py.bind].
  destruct (narrow_last_snoc c [B] (1 + N) N Sc ltac:(lia)) as (gamma & Hgam & Sgam).
  rewrite Hgam. cbn [mbind result_bind Py.bind].
  destruct (cumprod_last_snoc gamma [B] N Sgam) as (Scp & _).
  destruct (binop_shape Qmult beta (cumprod_last gamma) [B; N]) as (p & Hp & Sp & _).
  { rewrite Sbeta, Szx, Scp. apply (bshape_batch_prefix_r B [N]). }
  rewrite Hp. cbn [mbind result_bind Py.bind].
  eexists. split; [reflexivity|]. apply (shape_sum_last p [B] N Sp).
Qed.

Lemma calc_soft_lowest_common_ancestor_length_shape (x y : tensor) (B N A : nat) :
  shape x = [B; N; A] -> shape y = [B; N; A] -> (0 < A)%nat -> N <> 1%nat ->
  exists r, HyponymyScoreLoss.calc_soft_lowest_common_ancestor_length x y = Ok r
            /\ shape r = [B].
Proof.
  intros Sx Sy HA HN. unfold HyponymyScoreLoss.calc_soft_lowest_common_ancestor_length.
  unfold shape_last2. rewrite Sx. cbn [rev app mbind result_bind Py.bind].
  destruct (calc_break_intensity_shape x y B N A Sx Sy HA HN) as (br & Hbr & Sbr).
  rewrite Hbr. cbn [mbind result_bind Py.bind].
  destruct (intensity_to_probability_snoc br [B] N Sbr) as (pr & Hpr & Spr & _).
  rewrite Hpr. cbn [mbind result_bind Py.bind]. rewrite Nat.add_1_r.
  destruct (binop_suffix_shape Qmult pr (arange (S N)) [B] [S N] Spr eq_refl)
    as (m & Hm & Sm & _).
  unfold mul. rewrite Hm. cbn [mbind result_bind Py.bind].
  eexists. split; [reflexivity|]. apply (shape_sum_last m [B] (S N) Sm).
Qed.

(** On two batches of [B] entities with [n_digits <> 1], the four scoring
    functions and the hyponymy score return: the code lengths with one entry
    for each row that [squeeze] leaves, the others with one entry for each
    entity. *)
Theorem hyponymy_score_defined (x y : tensor) (B N A : nat) :
  shape x = [B; N; A] -> shape y = [B; N; A] -> (0 < A)%nat -> N <> 1%nat ->
  exists l_hyper l_hypo alpha l_lca score,
    CodeLengthPredictionLoss.calc_soft_code_length x = Ok l_hyper /\
    CodeLengthPredictionLoss.calc_soft_code_length y = Ok l_hypo /\
    HyponymyScoreLoss.calc_ancestor_probability x y = Ok alpha /\
    HyponymyScoreLoss.calc_soft_lowest_common_ancestor_length x y = Ok l_lca /\
    HyponymyScoreLoss.calc_soft_hyponymy_score x y = Ok score /\
    shape l_hyper = batch_prefix B /\ shape l_hypo = batch_prefix B /\
    shape alpha = [B] /\ shape l_lca = [B] /\ shape score = [B].
Proof.
  intros Sx Sy HA HN.
  destruct (calc_soft_code_length_rows x B N A Sx HA HN) as (lx & Hlx & Slx & _).
  destruct (calc_soft_code_length_rows y B N A Sy HA HN) as (ly & Hly & Sly & _).
  destruct (calc_ancestor_probability_shape x y B N A Sx Sy HA HN) as (al & Hal & Sal).
  destruct (calc_soft_lowest_common_ancestor_length_shape x y B N A Sx Sy HA HN)
    as (lca & Hlca & Slca).
  unfold HyponymyScoreLoss.calc_soft_hyponymy_score.
  rewrite Hlx, Hly, Hal, Hlca. cbn [mbind result_bind Py.bind].
  destruct (binop_same_shape Qminus ly lx) as (d1 & Hd1 & Sd1 & _); [congruence|].
  destruct (binop_shape Qmult al d1 [B]) as (a1 & Ha1 & Sa1 & _).
  { rewrite Sal, Sd1, Sly. rewrite <- (app_nil_r (batch_prefix B)).
    apply (bshape_batch_prefix_l B []). }
  destruct (binop_shape Qminus lca lx [B]) as (d2 & Hd2 & Sd2 & _).
  { rewrite Slca, Slx. rewrite <- (app_nil_r (batch_prefix B)).
    apply (bshape_batch_prefix_l B []). }
  destruct (binop_same_shape Qmult (rsub 1 al) d2) as (a2 & Ha2 & Sa2 & _);
    [cbn [rsub tmap shape]; congruence|].
  destruct (binop_same_shape Qplus a1 a2) as (sc & Hsc & Ssc & _);
    [cbn [rsub tmap shape] in Sa2; congruence|].
  unfold sub, mul, add. rewrite Hd1. cbn [mbind result_bind Py.bind].
  rewrite Ha1. cbn [mbind result_bind Py.bind].
  rewrite Hd2. cbn [mbind result_bind Py.bind].
  rewrite Ha2. cbn [mbind result_bind Py.bind].
  exists lx, ly, al, lca, sc. repeat split; try assumption; congruence.
Qed.

(** ** The split *)

Lemma is_hyponymy_true (r : relation) : is_hyponymy r = true <-> (0 < r.2)%Q.
Proof.
  unfold is_hyponymy. destruct (Qlt_le_dec 0 r.2) as [H|H]; split; intros; try easy.
  exfalso. apply (Qlt_not_le _ _ H0 H).
Qed.

Lemma is_hyponymy_false (r : relation) : is_hyponymy r = false <-> (r.2 <= 0)%Q.
Proof.
  unfold is_hyponymy. destruct (Qlt_le_dec 0 r.2) as [H|H]; split; intros; try easy.
  exfalso. apply (Qlt_not_le _ _ H H0).
Qed.

Lemma split_step_is_hyponymy (r : relation) (raw : hyponymy)
    (h : list relation) (hr : list hyponymy) (n : list relation) (nr : list hyponymy) :
  NegSampler.split_step (h, hr, n, nr) (r, raw)
  = if is_hyponymy r then (h ++ [r], hr ++ [raw], n, nr)
    else (h, hr, n ++ [r], nr ++ [raw]).
Proof. unfold NegSampler.split_step, is_hyponymy. now destruct (Qlt_le_dec 0 r.2). Qed.

Lemma foldl_split_step (pairs : list (relation * hyponymy))
    (h : list relation) (hr : list hyponymy) (n : list relation) (nr : list hyponymy) :
  foldl NegSampler.split_step (h, hr, n, nr) pairs
  = (h ++ map fst (List.filter (fun p => is_hyponymy p.1) pairs),
     hr ++ map snd (List.filter (fun p => is_hyponymy p.1) pairs),
     n ++ map fst (List.filter (fun p => negb (is_hyponymy p.1)) pairs),
     nr ++ map snd (List.filter (fun p => negb (is_hyponymy p.1)) pairs)).
Proof.
  revert h hr n nr. induction pairs as [|[r raw] pairs IH]; intros h hr n nr.
  - simpl. now rewrite !app_nil_r.
  - cbn [foldl List.filter fst]. rewrite split_step_is_hyponymy.
    destruct (is_hyponymy r); rewrite IH; cbn [negb map fst snd];
      now rewrite <- ?app_assoc.
Qed.

Lemma filter_combine_fst {A B : Type} (f : A -> bool) (l : list A) (l' : list B) :
  length l = length l' ->
  map fst (List.filter (fun p => f p.1) (combine l l')) = List.filter f l.
Proof.
  revert l'. induction l as [|x l IH]; intros [|y l'] H; simpl in *; try easy.
  destruct (f x); simpl; rewrite IH by lia; reflexivity.
Qed.

Lemma combine_map_fst_snd {A B : Type} (l : list (A * B)) :
  combine (map fst l) (map snd l) = l.
Proof. induction l as [|[a b] l IH]; simpl; [reflexivity|now rewrite IH]. Qed.

Lemma filter_negb_Permutation {A : Type} (f : A -> bool) (l : list A) :
  Permutation (List.filter f l ++ List.filter (fun x => negb (f x)) l) l.
Proof.
  induction l as [|x l IH]; simpl; [constructor|].
  destruct (f x); simpl.
  - now constructor.
  - symmetry. apply Permutation_cons_app. now symmetry.
Qed.

(** The four lists that the split returns, as filters of the records paired
    with their raw records: the fold keeps the order of the input. *)
Lemma split_lists (b : batch) :
  let pairs := combine (hyponymy_relation b) (hyponymy_relation_raw b) in
  let b' := NegSampler._split_hyponymy_samples_and_non_hyponymy_samples b in
  hyponymy_relation b' = map fst (List.filter (fun p => is_hyponymy p.1) pairs) /\
  hyponymy_relation_raw b' = map snd (List.filter (fun p => is_hyponymy p.1) pairs) /\
  non_hyponymy_relation b'
  = Some (map fst (List.filter (fun p => negb (is_hyponymy p.1)) pairs)) /\
  non_hyponymy_relation_raw b'
  = Some (map snd (List.filter (fun p => negb (is_hyponymy p.1)) pairs)).
Proof.
  intros pairs b'. subst pairs b'.
  unfold NegSampler._split_hyponymy_samples_and_non_hyponymy_samples.
  rewrite foldl_split_step. cbn [app]. repeat split.
Qed.

(** With aligned lists, the relation lists are filters of the relation list. *)
Lemma split_relations (b : batch) :
  length (hyponymy_relation b) = length (hyponymy_relation_raw b) ->
  let b' := NegSampler._split_hyponymy_samples_and_non_hyponymy_samples b in
  hyponymy_relation b' = List.filter is_hyponymy (hyponymy_relation b) /\
  non_hyponymy_relation b'
  = Some (List.filter (fun r => negb (is_hyponymy r)) (hyponymy_relation b)).
Proof.
  intros Hlen b'. subst b'. destruct (split_lists b) as (-> & _ & -> & _).
  rewrite (filter_combine_fst is_hyponymy) by exact Hlen.
  rewrite (filter_combine_fst (fun r => negb (is_hyponymy r))) by exact Hlen.
  split; reflexivity.
Qed.

(** Claim C5: for a batch whose relation list and raw list are aligned, as
    [_create_batch_from_hyponymy_samples] builds them, the split puts in the
    hyponymy sublist exactly the triples with [distance > 0] and in the
    non-hyponymy sublist exactly those with [distance <= 0]; each sublist
    keeps its raw records aligned, and the two sublists together are a
    permutation of the list before the split. *)
Theorem split_by_distance (b : batch) :
  length (hyponymy_relation b) = length (hyponymy_relation_raw b) ->
  let b' := NegSampler._split_hyponymy_samples_and_non_hyponymy_samples b in
  exists non non_raw,
    non_hyponymy_relation b' = Some non /\
    non_hyponymy_relation_raw b' = Some non_raw /\
    (forall r, In r (hyponymy_relation b') <-> In r (hyponymy_relation b) /\ (0 < r.2)%Q) /\
    (forall r, In r non <-> In r (hyponymy_relation b) /\ (r.2 <= 0)%Q) /\
    combine (hyponymy_relation b') (hyponymy_relation_raw b')
    = List.filter (fun p => is_hyponymy p.1)
        (combine (hyponymy_relation b) (hyponymy_relation_raw b)) /\
    combine non non_raw
    = List.filter (fun p => negb (is_hyponymy p.1))
        (combine (hyponymy_relation b) (hyponymy_relation_raw b)) /\
    length (hyponymy_relation b') = length (hyponymy_relation_raw b') /\
    length non = length non_raw /\
    Permutation (hyponymy_relation b' ++ non) (hyponymy_relation b) /\
    Permutation (combine (hyponymy_relation b') (hyponymy_relation_raw b')
                 ++ combine non non_raw)
                (combine (hyponymy_relation b) (hyponymy_relation_raw b)).
Proof.
  intros Hlen b'. subst b'. unfold NegSampler._split_hyponymy_samples_and_non_hyponymy_samples.
  rewrite foldl_split_step. cbn [app].
  set (pairs := combine (hyponymy_relation b) (hyponymy_relation_raw b)).
  cbn [hyponymy_relation hyponymy_relation_raw non_hyponymy_relation
       non_hyponymy_relation_raw].
  eexists _, _. split; [reflexivity|]. split; [reflexivity|].
  assert (map fst (List.filter (fun p => is_hyponymy p.1) pairs)
          = List.filter is_hyponymy (hyponymy_relation b)) as E1
    by (apply filter_combine_fst; exact Hlen).
  assert (map fst (List.filter (fun p => negb (is_hyponymy p.1)) pairs)
          = List.filter (fun r => negb (is_hyponymy r)) (hyponymy_relation b)) as E2
    by (apply (filter_combine_fst (fun r => negb (is_hyponymy r))); exact Hlen).
  rewrite !combine_map_fst_snd, !length_map, E1, E2.
  split; [|split; [|split; [|split; [|split; [|split; [|split]]]]]];
    try reflexivity.
  - intros r. rewrite filter_In, is_hyponymy_true. reflexivity.
  - intros r. rewrite filter_In, <- is_hyponymy_false.
    now destruct (is_hyponymy r).
  - apply filter_negb_Permutation.
  - apply (filter_negb_Permutation (fun p => is_hyponymy p.1)).
Qed.


Lemma traverse_Forall2 {A B : Type} (f : A -> result B) (l : list A) (ys : list B) :
  traverse f l = Ok ys -> Forall2 (fun x y => f x = Ok y) l ys.
Proof.
  revert ys. induction l as [|x l IH]; intros ys H; simpl in H.
  - simplify_eq. constructor.
  - destruct (f x) as [y|] eqn:Hx; simpl in H; [|discriminate].
    destruct (traverse f l) as [ys'|] eqn:Hl; simpl in H; [|discriminate].
    simplify_eq. constructor; [exact Hx|now apply IH].
Qed.

Lemma traverse_length {A B : Type} (f : A -> result B) (l : list A) (ys : list B) :
  traverse f l = Ok ys -> length ys = length l.
Proof. intros H. apply traverse_Forall2 in H. symmetry. exact (Forall2_length _ _ _ H). Qed.

(** ** The token-to-index dict *)

Lemma foldl_enumerate_lookup (l : list string) (m : gmap string nat) (k : nat)
    (tok : string) (i : nat) :
  foldl (fun (m : gmap string nat) (p : nat * string) => <[p.2 := p.1]> m) m
        (combine (seq k (length l)) l) !! tok = Some i ->
  m !! tok = Some i \/ ((k <= i)%nat /\ l !! (i - k)%nat = Some tok).
Proof.
  revert m k. induction l as [|x l IH]; intros m k H; simpl in H.
  - now left.
  - apply IH in H as [H|[H1 H2]].
    + destruct (decide (x = tok)) as [->|Hne].
      * rewrite lookup_insert_eq in H. simplify_eq. right. split; [lia|].
        now rewrite Nat.sub_diag.
      * rewrite lookup_insert_ne in H by exact Hne. now left.
    + right. split; [lia|]. replace (i - k)%nat with (S (i - S k)) by lia. exact H2.
Qed.

Lemma dict_of_enumerate_lookup (l : list string) (tok : string) (i : nat) :
  dict_of_enumerate l !! tok = Some i -> l !! i = Some tok.
Proof.
  unfold dict_of_enumerate, enumerate. intros H.
  apply foldl_enumerate_lookup in H as [H|[_ H]].
  - now rewrite lookup_empty in H.
  - now rewrite Nat.sub_0_r in H.
Qed.

Lemma dict_get_lookup (l : list string) (tok : string) (i : nat) :
  dict_get (dict_of_enumerate l) tok = Ok i -> l !! i = Some tok.
Proof.
  unfold dict_get. destruct (dict_of_enumerate l !! tok) eqn:E; [|discriminate].
  intros; simplify_eq. now apply dict_of_enumerate_lookup.
Qed.

(** ** [_create_batch_from_hyponymy_samples] *)

Section CreateBatch.

Context {rng dataloader : Type} (E : environment rng dataloader).
Hypothesis E_ok : environment_ok E.

(** The set whose listing is the entity sequence of the batch. *)
Lemma create_batch_inv (self : WordEmbeddingsAndHyponymyDataset_object dataloader)
    (bh : list hyponymy) (g g' : rng) (b : batch) :
  Sampler._create_batch_from_hyponymy_samples E self bh g = Ok (b, g') ->
  exists (X : gset string) (fillers : list string),
    entity b = list_of_set E X /\
    hyponymy_relation_raw b = bh /\
    non_hyponymy_relation b = None /\
    Forall2 (fun h (r : relation) =>
               entity b !! r.1.1 = Some (hypernym h) /\
               entity b !! r.1.2 = Some (hyponym h) /\
               r.2 = distance h) bh (hyponymy_relation b) /\
    Forall2 (fun tok row => we_embedding (_word_embeddings_dataset self) tok = Ok row)
            (entity b) (embedding b) /\
    let n_diff := (_embedding_batch_size self - Z.of_nat (size (tokens_of bh)))%Z in
    if (0 <? n_diff)%Z then
      X = tokens_of bh ∪ list_to_set fillers /\
      (Z.to_nat n_diff <= _n_embeddings self)%nat /\
      traverse (index_to_entity (_word_embeddings_dataset self))
               (draw_choice E g (_n_embeddings self) (Z.to_nat n_diff)).1 = Ok fillers
    else X = tokens_of bh /\ fillers = [].
Proof.
  unfold Sampler._create_batch_from_hyponymy_samples. intros H.
  apply bind_inv in H as ([[X fillers] g1] & H1 & H).
  apply bind_inv in H as (rows & Hrows & H).
  apply bind_inv in H as (mat & Hmat & H).
  apply bind_inv in H as (rels & Hrels & H).
  simplify_eq. exists X, fillers. cbn [entity hyponymy_relation_raw non_hyponymy_relation
                                       hyponymy_relation embedding].
  split; [reflexivity|]. split; [reflexivity|]. split; [reflexivity|].
  split; [|split].
  - apply traverse_Forall2 in Hrels. eapply Forall2_impl; [exact Hrels|].
    intros h r Hr. cbv beta in Hr.
    apply bind_inv in Hr as (i1 & Hi1 & Hr). apply bind_inv in Hr as (i2 & Hi2 & Hr).
    simplify_eq. cbn [fst snd].
    split; [now apply dict_get_lookup|]. split; [now apply dict_get_lookup|reflexivity].
  - assert (mat = rows) as ->.
    { unfold np_stack in Hmat. destruct rows; [discriminate|].
      destruct (forallb _ _); now simplify_eq. }
    now apply traverse_Forall2.
  - cbv zeta. destruct (0 <? _ - _)%Z.
    + apply bind_inv in H1 as ([idxs g2] & Hc & H1).
      apply bind_inv in H1 as (lst & Hl & H1). simplify_eq.
      unfold Sampler.np_random_choice in Hc.
      destruct (Nat.ltb_spec (_n_embeddings self)
                  (Z.to_nat (_embedding_batch_size self - Z.of_nat (size (tokens_of bh)))));
        [discriminate|].
      simplify_eq. split; [reflexivity|]. split; [assumption|].
      destruct (draw_choice E g _ _); simplify_eq. exact Hl.
    + now simplify_eq.
Qed.

Lemma create_batch_invariant (self : WordEmbeddingsAndHyponymyDataset_object dataloader)
    (bh : list hyponymy) (g g' : rng) (b : batch) :
  Sampler._create_batch_from_hyponymy_samples E self bh g = Ok (b, g') ->
  batch_invariant b.
Proof using E_ok.
  intros H. apply create_batch_inv in H as (X & fillers & He & _ & Hn & Hr & _).
  split; [|split].
  - rewrite He. apply (list_of_set_NoDup E E_ok).
  - clear He. induction Hr as [|h r ? ? (H1 & H2 & _) _ IH]; constructor; [|exact IH].
    split; eapply lookup_lt_Some; eassumption.
  - intros l Hl. rewrite Hn in Hl. discriminate.
Qed.

End CreateBatch.


Section Emitted.

Context {rng dataloader : Type} (E : environment rng dataloader).

Lemma base_getitem_made (fuel : nat) self idx g g' b :
  Sampler.__getitem__ E fuel self idx g = Some (Ok (b, g')) -> made_from E b b.
Proof.
  revert idx. induction fuel as [|fuel IH]; intros idx H; simpl in H; [discriminate|].
  destruct (Sampler.encodable_samples self _) as [|h bh] eqn:Hf.
  - now apply IH in H.
  - simplify_eq. split; [|now left]. eauto.
Qed.

Lemma base_iter_chunks_made self chunks g b :
  In b (yielded (Sampler.iter_chunks E self chunks g)) -> made_from E b b.
Proof.
  revert g. induction chunks as [|c chunks IH]; intros g H; simpl in H; [contradiction|].
  destruct (Sampler.encodable_samples self c) as [|h bh] eqn:Hf.
  - now apply IH in H.
  - destruct (Sampler._create_batch_from_hyponymy_samples E self (h :: bh) g)
      as [[b0 g0]|] eqn:Hc; simpl in H; [|contradiction].
    destruct H as [<-|H]; [|now apply IH in H].
    split; [|now left]. eauto.
Qed.

Lemma batch_of_chunk_made self bh g g' b :
  NegSampler.batch_of_chunk E self bh g = Ok (b, g') -> exists b0, made_from E b b0.
Proof.
  unfold NegSampler.batch_of_chunk. intros H.
  apply bind_inv in H as ([non g1] & _ & H).
  apply bind_inv in H as ([b0 g2] & Hc & H).
  exists b0. split; [eauto|].
  destruct (_split_hyponymy_and_non_hyponymy self); simplify_eq; auto.
Qed.

Lemma sub_getitem_made (fuel : nat) self idx g g' b :
  NegSampler.__getitem__ E fuel self idx g = Some (Ok (b, g')) -> exists b0, made_from E b b0.
Proof.
  revert idx. induction fuel as [|fuel IH]; intros idx H; simpl in H; [discriminate|].
  destruct (Sampler.encodable_samples (super self) _) as [|h bh] eqn:Hf.
  - now apply IH in H.
  - simplify_eq. eapply batch_of_chunk_made; eassumption.
Qed.

Lemma sub_iter_chunks_made self chunks g b :
  In b (yielded (NegSampler.iter_chunks E self chunks g)) -> exists b0, made_from E b b0.
Proof.
  revert g. induction chunks as [|c chunks IH]; intros g H; simpl in H; [contradiction|].
  destruct (Sampler.encodable_samples (super self) c) as [|h bh] eqn:Hf.
  - now apply IH in H.
  - destruct (NegSampler.batch_of_chunk E self (h :: bh) g) as [[b0 g0]|] eqn:Hc;
      simpl in H; [|contradiction].
    destruct H as [<-|H]; [|now apply IH in H].
    eapply batch_of_chunk_made; eassumption.
Qed.

(** Every emitted batch is a batch of [_create_batch_from_hyponymy_samples],
    or the split of one. *)
Lemma emitted_made_from (b : batch) : emitted E b -> exists b0, made_from E b b0.
Proof.
  intros [self bh g g' b' H|fuel self idx g g' b' H|self g b' H
         |fuel self idx g g' b' H|self g b' H].
  - exists b'. split; [eauto|now left].
  - exists b'. eapply base_getitem_made; eassumption.
  - exists b'. unfold Sampler.__iter__ in H. destruct (iterate E _ g) as [chunks g1].
    eapply base_iter_chunks_made; eassumption.
  - eapply sub_getitem_made; eassumption.
  - unfold NegSampler.__iter__ in H. destruct (iterate E _ g) as [chunks g1].
    eapply sub_iter_chunks_made; eassumption.
Qed.

Lemma split_entity (b : batch) :
  entity (NegSampler._split_hyponymy_samples_and_non_hyponymy_samples b) = entity b.
Proof.
  unfold NegSampler._split_hyponymy_samples_and_non_hyponymy_samples.
  now destruct (foldl _ _ _) as [[[? ?] ?] ?].
Qed.

Lemma split_invariant (b : batch) :
  length (hyponymy_relation b) = length (hyponymy_relation_raw b) ->
  batch_invariant b ->
  batch_invariant (NegSampler._split_hyponymy_samples_and_non_hyponymy_samples b).
Proof.
  intros Hlen (Hnd & Hr & _).
  destruct (split_relations b Hlen) as [Hh Hn].
  unfold batch_invariant. rewrite split_entity. split; [exact Hnd|]. split.
  - rewrite Hh. apply List.Forall_forall. intros r Hin.
    apply filter_In in Hin as [Hin _].
    revert r Hin. now apply List.Forall_forall.
  - intros l Hl. rewrite Hn in Hl. simplify_eq.
    apply List.Forall_forall. intros r Hin. apply filter_In in Hin as [Hin _].
    revert r Hin. now apply List.Forall_forall.
Qed.

Hypothesis E_ok : environment_ok E.

(** Claim C4: every batch that the sampler emits, through
    [_create_batch_from_hyponymy_samples], [__getitem__] or [__iter__] of either
    class, satisfies the batch invariant: its entity sequence has no
    duplicates, and the hypernym and hyponym index of every relation triple
    (of the hyponymy and of the non-hyponymy list) is below the number of
    entities. *)
Theorem emitted_batch_invariant (b : batch) : emitted E b -> batch_invariant b.
Proof using E_ok.
  intros H. apply emitted_made_from in H as (b0 & ((self & bh & g & g' & Hc) & [->| ->])).
  - eapply create_batch_invariant; eassumption.
  - apply split_invariant; [|eapply create_batch_invariant; eassumption].
    apply create_batch_inv in Hc as (_ & _ & _ & Hraw & _ & Hr & _).
    rewrite Hraw. symmetry. exact (Forall2_length _ _ _ Hr).
Qed.

End Emitted.


(** ** The number of entities of a batch *)



Lemma first_indices_ok : environment_ok Examples.first_indices.
Proof.
  split; simpl.
  - intros _ n size _. apply length_seq.
  - intros _ n size _. apply NoDup_seq.
  - intros _ n size i Hs Hi. apply list_elem_of_In, in_seq in Hi. lia.
  - intros X. apply NoDup_elements.
  - intros X x. apply elem_of_elements.
Qed.

Section Fill.

Context {rng dataloader : Type} (E : environment rng dataloader).
Hypothesis E_ok : environment_ok E.


(** An emitted batch has the entities of the batch it is made from. *)
Lemma made_from_entity (b b0 : batch) : made_from E b b0 -> entity b = entity b0.
Proof. intros [_ [->| ->]]; [reflexivity|apply split_entity]. Qed.


End Fill.



(** ** The batch size balancer *)

Lemma py_div_inv (x y q : Q) :
  py_div x y = Ok q -> ~ (y == 0)%Q /\ q = (x / y)%Q.
Proof.
  unfold py_div. destruct (Qeq_bool y 0) eqn:E; [discriminate|].
  intros; simplify_eq. split; [|reflexivity].
  intros H. apply Qeq_bool_iff in H. congruence.
Qed.

(** What a returned report of the base class holds. *)
Lemma verify_batch_sizes_inv {dataloader : Type}
    (self : WordEmbeddingsAndHyponymyDataset_object dataloader) (r : report) :
  Sampler.verify_batch_sizes self = Ok r ->
  let n_relations := inject_Z (Z.of_nat (length (ds_records (_hyponymy_dataset self)))) in
  let vocabulary := inject_Z (Z.of_nat (we_len (_word_embeddings_dataset self))) in
  let b_r := inject_Z (_hyponymy_batch_size self) in
  let b_e := inject_Z (_embedding_batch_size self) in
  ~ (b_r == 0)%Q /\ ~ (vocabulary == 0)%Q /\
  n_embeddings_used_in_epoch r
  = ((1 - 1 / np_e) * (n_relations / b_r) * (b_e - 2 * b_r))%Q /\
  ratio r = (n_embeddings_used_in_epoch r / vocabulary)%Q.
Proof.
  intros H. cbv zeta.
  unfold Sampler.verify_batch_sizes in H. cbv zeta in H.
  apply bind_inv in H as (n_iteration & H1 & H). apply py_div_inv in H1 as [N1 ->].
  apply bind_inv in H as (rat & H2 & H). apply py_div_inv in H2 as [N2 ->].
  apply bind_inv in H as (q1 & _ & H). apply bind_inv in H as (q2 & _ & H).
  simplify_eq. cbn [n_embeddings_used_in_epoch ratio]. auto.
Qed.

(** Claim C3, amended: the number of relation batches that
    [verify_batch_sizes] multiplies by is the quotient [N_relations / B_r]
    itself, not rounded up. The expected number of embeddings touched in an
    epoch is [(1 - 1/e) * (N_relations / B_r) * fillers], where [fillers] is
    [B_e - 2*B_r], less [non_hyponymy_batch_size] in the subclass when the
    candidates are not limited to the mini-batch; the ratio is this number
    divided by the vocabulary size. *)
Theorem verify_batch_sizes_formula {dataloader : Type} :
  (forall (self : WordEmbeddingsAndHyponymyDataset_object dataloader) (r : report),
      Sampler.verify_batch_sizes self = Ok r ->
      let n_relations := inject_Z (Z.of_nat (length (ds_records (_hyponymy_dataset self)))) in
      let vocabulary := inject_Z (Z.of_nat (we_len (_word_embeddings_dataset self))) in
      let b_r := inject_Z (_hyponymy_batch_size self) in
      let b_e := inject_Z (_embedding_batch_size self) in
      ~ (b_r == 0)%Q /\ ~ (vocabulary == 0)%Q /\
      n_embeddings_used_in_epoch r
      = ((1 - 1 / np_e) * (n_relations / b_r) * (b_e - 2 * b_r))%Q /\
      ratio r = (n_embeddings_used_in_epoch r / vocabulary)%Q) /\
  (forall (self : WithNonHyponymyRelation_object dataloader) (r : report),
      NegSampler.verify_batch_sizes self = Ok r ->
      let n_relations :=
        inject_Z (Z.of_nat (length (ds_records (_hyponymy_dataset (super self))))) in
      let vocabulary :=
        inject_Z (Z.of_nat (we_len (_word_embeddings_dataset (super self)))) in
      let b_r := inject_Z (_hyponymy_batch_size (super self)) in
      let b_e := inject_Z (_embedding_batch_size (super self)) in
      let fillers :=
        if _limit_hyponym_candidates_within_minibatch self
        then (b_e - 2 * b_r)%Q
        else (b_e - 2 * b_r - inject_Z (_non_hyponymy_batch_size self))%Q in
      ~ (b_r == 0)%Q /\ ~ (vocabulary == 0)%Q /\
      n_embeddings_used_in_epoch r = ((1 - 1 / np_e) * (n_relations / b_r) * fillers)%Q /\
      ratio r = (n_embeddings_used_in_epoch r / vocabulary)%Q).
Proof.
  split; intros self r H; cbv zeta.
  - exact (verify_batch_sizes_inv self r H).
  - unfold NegSampler.verify_batch_sizes in H. cbv zeta in H.
    apply bind_inv in H as (n_iteration & H1 & H). apply py_div_inv in H1 as [N1 ->].
    destruct (_limit_hyponym_candidates_within_minibatch self).
    + apply bind_inv in H as (rat & H2 & H). apply py_div_inv in H2 as [N2 ->].
      apply bind_inv in H as (q0 & _ & H). apply bind_inv in H as (q1 & _ & H).
      apply bind_inv in H as (q2 & _ & H).
      simplify_eq. cbn [n_embeddings_used_in_epoch ratio]. auto.
    + apply bind_inv in H as (rat & H2 & H). apply py_div_inv in H2 as [N2 ->].
      apply bind_inv in H as (q0 & _ & H). apply bind_inv in H as (q1 & _ & H).
      apply bind_inv in H as (q2 & _ & H).
      simplify_eq. cbn [n_embeddings_used_in_epoch ratio]. auto.
Qed.

(** When [B_r] divides [N_relations], the quotient is the number of batches
    [ceil(N_relations / B_r)], and the count is the one of the specification. *)
Lemma verify_batch_sizes_whole_batches {dataloader : Type}
    (self : WordEmbeddingsAndHyponymyDataset_object dataloader) (r : report) (k : Z) :
  Sampler.verify_batch_sizes self = Ok r ->
  Z.of_nat (length (ds_records (_hyponymy_dataset self))) = (k * _hyponymy_batch_size self)%Z ->
  (n_embeddings_used_in_epoch r
   == spec_embeddings_used_in_epoch
        (Z.of_nat (length (ds_records (_hyponymy_dataset self))))
        (_hyponymy_batch_size self) (_embedding_batch_size self))%Q.
Proof.
  intros H Hk.
  destruct (verify_batch_sizes_inv self r H) as (N1 & _ & -> & _).
  unfold spec_embeddings_used_in_epoch. rewrite Hk.
  assert (inject_Z (k * _hyponymy_batch_size self) / inject_Z (_hyponymy_batch_size self)
          == inject_Z k)%Q as Hq.
  { rewrite inject_Z_mult. field. exact N1. }
  rewrite Hq. rewrite Qceiling_Z. reflexivity.
Qed.

(** Claim C3, counterexample: with three relations and [B_r = 2] the code
    counts one batch and a half, and the specification two. *)
Lemma verify_batch_sizes_fractional_batches :
  exists r, Sampler.verify_batch_sizes Examples.uneven_sampler = Ok r /\
    ~ (n_embeddings_used_in_epoch r == spec_embeddings_used_in_epoch 3 2 5)%Q /\
    (n_embeddings_used_in_epoch r == (1 - 1 / np_e) * (3 # 2) * 1)%Q /\
    (spec_embeddings_used_in_epoch 3 2 5 == (1 - 1 / np_e) * 2 * 1)%Q.
Proof.
  eexists. split; [vm_compute; reflexivity|].
  split; [|split]; vm_compute; congruence.
Qed.

(** ** The sampler on concrete inputs *)

(** Claim C4, witness: the batch of the negative sampler for index 0 has five
    entities and six relation triples, and satisfies the invariant. *)
Lemma emitted_batch_invariant_witness :
  length (entity Examples.first_negative_batch) = 5%nat /\
  length (hyponymy_relation Examples.first_negative_batch) = 2%nat /\
  non_hyponymy_relation Examples.first_negative_batch
  = Some [(2%nat, 3%nat, (- (1))%Q); (3%nat, 4%nat, (- (1))%Q);
          (2%nat, 3%nat, (- (1))%Q); (3%nat, 1%nat, (- (1))%Q)] /\
  batch_invariant Examples.first_negative_batch.
Proof.
  split; [reflexivity|]. split; [reflexivity|]. split; [reflexivity|].
  apply (emitted_batch_invariant Examples.first_indices first_indices_ok).
  apply (emitted_getitem_non_hyponymy Examples.first_indices 1
           Examples.negative_sampler 0%Z tt tt).
  vm_compute. reflexivity.
Defined.

(** Claim C5, witness: the split of a batch with two hyponymy and two
    non-hyponymy records, one of them at distance 0. *)
Lemma split_by_distance_witness :
  hyponymy_relation Examples.mixed_batch
  = [(2%nat, 4%nat, 3%Q); (2%nat, 3%nat, (- (1))%Q); (2%nat, 1%nat, 3%Q);
     (3%nat, 1%nat, 0%Q)] /\
  exists non non_raw,
    non_hyponymy_relation
      (NegSampler._split_hyponymy_samples_and_non_hyponymy_samples Examples.mixed_batch) = Some non /\
    non_hyponymy_relation_raw
      (NegSampler._split_hyponymy_samples_and_non_hyponymy_samples Examples.mixed_batch)
    = Some non_raw /\
    Permutation
      (hyponymy_relation
         (NegSampler._split_hyponymy_samples_and_non_hyponymy_samples Examples.mixed_batch) ++ non)
      (hyponymy_relation Examples.mixed_batch).
Proof.
  split.
  - reflexivity.
  - destruct (split_by_distance Examples.mixed_batch eq_refl)
      as (non & non_raw & H1 & H2 & _ & _ & _ & _ & _ & _ & H3 & _).
    exists non, non_raw. auto.
Defined.

(** ** Construction of the negative sampler *)

(** Claim C10: with [non_hyponymy_batch_size=None] the constructor of the
    negative sampler raises, whatever the other arguments ([None % int] is
    evaluated before the default is substituted); hence every successful
    construction was given an integer [non_hyponymy_batch_size], a multiple
    of [hyponymy_batch_size]. *)
Theorem non_hyponymy_batch_size_is_required {rng dataloader : Type}
    (E : environment rng dataloader)
    (word_embeddings_dataset : word_embeddings_dataset)
    (hyponymy_dataset : hyponymy_dataset)
    (embedding_batch_size hyponymy_batch_size : Z)
    (non_hyponymy_relation_distance : option Q)
    (non_hyponymy_relation_target : string)
    (exclude_reverse limit_candidates split verbose : bool) :
  (exists e,
      NegSampler.__init__ E word_embeddings_dataset hyponymy_dataset
        embedding_batch_size hyponymy_batch_size None
        non_hyponymy_relation_distance non_hyponymy_relation_target
        exclude_reverse limit_candidates split verbose = Raise e) /\
  (forall non_hyponymy_batch_size constructed,
      NegSampler.__init__ E word_embeddings_dataset hyponymy_dataset
        embedding_batch_size hyponymy_batch_size non_hyponymy_batch_size
        non_hyponymy_relation_distance non_hyponymy_relation_target
        exclude_reverse limit_candidates split verbose = Ok constructed ->
      exists n, non_hyponymy_batch_size = Some n /\
                hyponymy_batch_size <> 0%Z /\
                (n mod hyponymy_batch_size = 0)%Z).
Proof.
  split.
  - unfold NegSampler.__init__.
    destruct (Sampler.__init__ E word_embeddings_dataset hyponymy_dataset
                embedding_batch_size hyponymy_batch_size false) as [[base printed]|e].
    + exists TypeError. reflexivity.
    + exists e. reflexivity.
  - intros nhbs constructed H. unfold NegSampler.__init__ in H.
    apply bind_inv in H as ([base printed] & _ & H).
    apply bind_inv in H as (remainder & Hmod & H).
    apply bind_inv in H as ([] & Hassert & _).
    unfold py_mod in Hmod. destruct nhbs as [n|]; [|discriminate].
    destruct (Z.eqb_spec hyponymy_batch_size 0) as [|Hne]; [discriminate|].
    simplify_eq. exists n. split; [reflexivity|]. split; [exact Hne|].
    unfold assert in Hassert.
    destruct (Z.eqb_spec (n mod hyponymy_batch_size) 0); [assumption|discriminate].
Qed.

(** Claim C10, witness: construction with [non_hyponymy_batch_size=4] and
    [hyponymy_batch_size=2] succeeds, and [4 mod 2 = 0]. *)
Lemma non_hyponymy_batch_size_is_required_witness :
  exists constructed n,
    NegSampler.__init__ Examples.first_indices
      (Examples.vocabulary_source Examples.tree_first) Examples.animals
      6 2 (Some 4%Z) None "both" true true true false = Ok constructed /\
    Some 4%Z = Some n /\ (n mod 2 = 0)%Z.
Proof.
  destruct (NegSampler.__init__ Examples.first_indices
              (Examples.vocabulary_source Examples.tree_first) Examples.animals
              6 2 (Some 4%Z) None "both" true true true false) as [constructed|e] eqn:H.
  - destruct (proj2 (non_hyponymy_batch_size_is_required Examples.first_indices
                       (Examples.vocabulary_source Examples.tree_first) Examples.animals
                       6 2 None "both" true true true false) _ _ H) as (n & Hn & _ & Hm).
    exists constructed, n. auto.
  - exfalso. vm_compute in H. discriminate H.
Defined.

(** ** Clamping of the input of the forward passes *)







(** The losses of the counterexample, as numbers: the code length loss of
    [two_entities] against the targets 2 and 1 is 1/32, and is smaller on the
    clamped input. *)
Lemma forward_without_clamp_values :
  exists l l',
    CodeLengthPredictionLoss.forward Examples.mse_object Examples.two_entities
      [(0%nat, 2%Q); (1%nat, 1%Q)] = Ok l /\
    CodeLengthPredictionLoss.forward Examples.mse_object
      (clamp Examples.two_entities HyponymyScoreLoss.clamp_min HyponymyScoreLoss.clamp_max)
      [(0%nat, 2%Q); (1%nat, 1%Q)] = Ok l' /\
    (get l [] == 1 # 32)%Q /\ ~ (get l' [] == get l [])%Q.
Proof.
  eexists _, _. split; [vm_compute; reflexivity|]. split; [vm_compute; reflexivity|].
  split; vm_compute; congruence.
Qed.

(** ** A single digit *)

Lemma one_digit_is_distribution : code_distribution Examples.one_digit 2 1 2.
Proof.
  split; [reflexivity|]. intros b n Hb Hn.
  assert (n = 0%nat) as -> by lia.
  assert (b = 0%nat \/ b = 1%nat) as [-> | ->] by lia.
  - split; [|vm_compute; reflexivity].
    intros a Ha. assert (a = 0%nat \/ a = 1%nat) as [-> | ->] by lia;
      vm_compute; discriminate.
  - split; [|vm_compute; reflexivity].
    intros a Ha. assert (a = 0%nat \/ a = 1%nat) as [-> | ->] by lia;
      vm_compute; discriminate.
Qed.

(** Claim C6, the failing input: for two entities with a single digit,
    [squeeze] removes the digit dimension, the batch dimension is taken for
    the digits, and the result is one number for the two entities, 2, above
    [n_digits = 1]. For one entity with a single digit, [squeeze] leaves no
    dimension and [shape[-1]] raises. *)
Theorem soft_code_length_of_a_single_digit :
  code_distribution Examples.one_digit 2 1 2 /\
  (exists r, CodeLengthPredictionLoss.calc_soft_code_length Examples.one_digit = Ok r /\
             shape r = [] /\ (get r [] == 2)%Q /\ ~ (get r [] <= 1)%Q) /\
  CodeLengthPredictionLoss.calc_soft_code_length Examples.one_entity_one_digit
  = Raise Py.IndexError.
Proof.
  split; [exact one_digit_is_distribution|]. split; [|vm_compute; reflexivity].
  eexists. split; [vm_compute; reflexivity|]. split; [reflexivity|].
  split; vm_compute; congruence.
Qed.

(** ** The hyponymy score on concrete inputs *)

(** Claim C7, witness: for [hypernyms] and [two_entities], the first pair has
    ancestor probability 1, and its score is the difference [2 - 1] of the
    code lengths. *)
Lemma hyponymy_score_formula_witness :
  exists score,
    HyponymyScoreLoss.calc_soft_hyponymy_score Examples.hypernyms Examples.two_entities
    = Ok score /\
    (get score [0%nat]
     == get (Examples.value
               (CodeLengthPredictionLoss.calc_soft_code_length Examples.two_entities))
            [0%nat]
        - get (Examples.value
                 (CodeLengthPredictionLoss.calc_soft_code_length Examples.hypernyms))
              [0%nat])%Q /\
    (get score [0%nat] == 1)%Q.
Proof.
  pose proof (hyponymy_score_formula Examples.hypernyms Examples.two_entities
      (Examples.value (CodeLengthPredictionLoss.calc_soft_code_length Examples.hypernyms))
      (Examples.value (CodeLengthPredictionLoss.calc_soft_code_length Examples.two_entities))
      (Examples.value (HyponymyScoreLoss.calc_ancestor_probability
                         Examples.hypernyms Examples.two_entities))
      (Examples.value (HyponymyScoreLoss.calc_soft_lowest_common_ancestor_length
                         Examples.hypernyms Examples.two_entities))
      ltac:(vm_compute; reflexivity) ltac:(vm_compute; reflexivity)
      ltac:(vm_compute; reflexivity) ltac:(vm_compute; reflexivity)) as [Hformula Hdefined].
  destruct (Hdefined eq_refl eq_refl eq_refl) as (score & Hscore & Hshape).
  exists score. split; [exact Hscore|].
  assert (valid_index [0%nat] (shape score)) as Hv.
  { rewrite Hshape. vm_compute. constructor; [lia|constructor]. }
  destruct (Hformula score [0%nat] Hscore Hv) as [_ Hone].
  assert (get score [0%nat]
          == get (Examples.value
                    (CodeLengthPredictionLoss.calc_soft_code_length Examples.two_entities))
                 [0%nat]
             - get (Examples.value
                      (CodeLengthPredictionLoss.calc_soft_code_length Examples.hypernyms))
                   [0%nat])%Q as Heq.
  { rewrite Hone by (vm_compute; reflexivity). vm_compute. reflexivity. }
  split; [exact Heq|]. rewrite Heq. vm_compute. reflexivity.
Defined.

(** ** The auto-scaled MSE *)

(** Claim C8, amended: for [u = [2,2,2]] and [v = [1,1,1]] the fitted scale
    is [6 / (12 + 1E-6)], just below 0.5 because of the [1E-6] in the
    denominator, and the loss is [(12 / (12 + 1E-6) - 1)^2], positive and
    below [1E-14]: the fit is exact up to this regulariser only. *)
Theorem auto_scaled_mse_scenario (ext : torch_ext) :
  exists scale loss,
    CodeLengthPredictionLoss.fitted_scale Examples.u222 Examples.v111 = Ok scale /\
    CodeLengthPredictionLoss._auto_scaled_mse ext "mean" Examples.u222 Examples.v111
    = Ok loss /\
    shape scale = [] /\ shape loss = [] /\
    (get scale [] == 6 / (12 + (1 # 1000000)))%Q /\
    (4999999 # 10000000 < get scale [] < 1 # 2)%Q /\
    (get loss [] == (12 / (12 + (1 # 1000000)) - 1) * (12 / (12 + (1 # 1000000)) - 1))%Q /\
    (0 < get loss [] < 1 # 100000000000000)%Q.
Proof.
  eexists _, _. split; [vm_compute; reflexivity|]. split; [vm_compute; reflexivity|].
  split; [reflexivity|]. split; [reflexivity|].
  repeat split; vm_compute; reflexivity.
Qed.

(** Claim C8, counterexample: the fitted scale is not 0.5 and the loss is
    not 0. *)
Lemma auto_scaled_mse_is_not_exact :
  exists scale loss,
    CodeLengthPredictionLoss.fitted_scale Examples.u222 Examples.v111 = Ok scale /\
    (forall ext,
        CodeLengthPredictionLoss._auto_scaled_mse ext "mean" Examples.u222 Examples.v111
        = Ok loss) /\
    ~ (get scale [] == 1 # 2)%Q /\ ~ (get loss [] == 0)%Q.
Proof.
  eexists _, _. split; [vm_compute; reflexivity|].
  split; [intros ext; vm_compute; reflexivity|].
  split; vm_compute; congruence.
Qed.

(** The same scenario with rounding. In torch.float32 the denominator
    [12 + 1E-6] rounds to [12 + 2^-20], the fitted scale is [0.5 - 2^-25] and
    the loss is [2^-48]; in torch.float64 the scale is
    [9007198504141117 * 2^-54] and the loss [8803127692968995 * 2^-100]. In
    both formats the scale is below 0.5 and the loss is positive. *)
Lemma auto_scaled_mse_scenario_rounded (std : list SpecFloat.spec_float -> SpecFloat.spec_float) :
  let half prec emax :=
    SpecFloat.SFdiv prec emax (Ieee.of_int prec emax 1) (Ieee.of_int prec emax 2) in
  let zero prec emax := Ieee.of_int prec emax 0 in
  (exists scale loss,
      Ieee.fitted_scale 24 128 (Examples.u222_float 24 128) (Examples.v111_float 24 128)
      = Ok scale /\
      Ieee._auto_scaled_mse 24 128 std "mean"
        (Examples.u222_float 24 128) (Examples.v111_float 24 128) = Ok [loss] /\
      scale = SpecFloat.S754_finite false 16777215 (-25) /\
      loss = SpecFloat.S754_finite false 8388608 (-71) /\
      SpecFloat.SFltb scale (half 24 128)%Z = true /\
      SpecFloat.SFltb (zero 24 128)%Z loss = true) /\
  (exists scale loss,
      Ieee.fitted_scale 53 1024 (Examples.u222_float 53 1024) (Examples.v111_float 53 1024)
      = Ok scale /\
      Ieee._auto_scaled_mse 53 1024 std "mean"
        (Examples.u222_float 53 1024) (Examples.v111_float 53 1024) = Ok [loss] /\
      scale = SpecFloat.S754_finite false 9007198504141117 (-54) /\
      loss = SpecFloat.S754_finite false 8803127692968995 (-100) /\
      SpecFloat.SFltb scale (half 53 1024)%Z = true /\
      SpecFloat.SFltb (zero 53 1024)%Z loss = true).
Proof.
  cbv zeta. split; eexists _, _; repeat split; vm_compute; reflexivity.
Qed.

(** [python_1E_6] is the binary64 number that is nearest to [1 / 10^6]. *)
Lemma python_1E_6_is_rounded :
  SpecFloat.SFdiv 53 1024 (Ieee.of_int 53 1024 1) (Ieee.of_int 53 1024 1000000)
  = Ieee.python_1E_6.
Proof. vm_compute. reflexivity. Qed.

(** ** Distance metric names *)

Lemma dispatch_recognised (name : string) :
  CodeLengthPredictionLoss.dispatch name <> None <-> In name recognised_metrics.
Proof.
  unfold CodeLengthPredictionLoss.dispatch, recognised_metrics.
  repeat (match goal with
          | |- context [String.eqb name ?s] =>
              destruct (String.eqb_spec name s) as [->|?]
          end; [split; [intros _; simpl; tauto|discriminate]|]).
  split; [congruence|]. simpl. intuition congruence.
Qed.

(** A name that the chain does not recognise is rejected in [__init__]. *)
Lemma init_rejects_unrecognised (ext : torch_ext) (scale : Q) (normalize : bool)
    (coefficient : Q) (name : string) (size_average reduce : option bool)
    (reduction : string) :
  ~ In name recognised_metrics ->
  CodeLengthPredictionLoss.__init__ ext scale normalize coefficient name
    size_average reduce reduction = Raise Py.AttributeError.
Proof.
  intros H. unfold CodeLengthPredictionLoss.__init__.
  destruct (CodeLengthPredictionLoss.dispatch name) eqn:E; [|reflexivity].
  exfalso. apply H, dispatch_recognised. congruence.
Qed.

(** Construction succeeds with each of the ten names whose method exists. *)
Lemma init_accepts_constructible (ext : torch_ext) (scale : Q) (normalize : bool)
    (coefficient : Q) (name : string) (size_average reduce : option bool)
    (reduction : string) :
  In name constructible_metrics ->
  exists self,
    CodeLengthPredictionLoss.__init__ ext scale normalize coefficient name
      size_average reduce reduction = Ok self /\
    _distance_metric self = name /\ _scale self = scale.
Proof.
  unfold constructible_metrics. simpl.
  intros H. repeat (destruct H as [<-|H]; [eexists; split; [reflexivity|split; reflexivity]|]).
  contradiction.
Qed.

(** No forward pass reads the metric name. *)
Lemma forward_ignores_metric_name (self : loss) (name : string) (t : tensor) :
  (forall lst, CodeLengthPredictionLoss.forward (set_distance_metric self name) t lst
               = CodeLengthPredictionLoss.forward self t lst) /\
  (forall lst, CodeLengthDiffPredictionLoss.forward (set_distance_metric self name) t lst
               = CodeLengthDiffPredictionLoss.forward self t lst) /\
  (forall lst, HyponymyScoreLoss.forward (set_distance_metric self name) t lst
               = HyponymyScoreLoss.forward self t lst) /\
  (forall lst, LowestCommonAncestorLengthPredictionLoss.forward
                 (set_distance_metric self name) t lst
               = LowestCommonAncestorLengthPredictionLoss.forward self t lst) /\
  (forall lst, EntailmentProbabilityLoss.forward (set_distance_metric self name) t lst
               = EntailmentProbabilityLoss.forward self t lst).
Proof. repeat split. Qed.

(** The chain of [__init__] recognises ["batchnorm-mse"] and reads
    [self._batchnorm_mse], a method that no class of the module defines;
    construction raises [AttributeError] for this name as for a name that
    the chain does not know, for [CodeLengthPredictionLoss] and for
    [HyponymyScoreLoss], whose constructors the other classes inherit. *)
Lemma init_batchnorm_mse_raises (ext : torch_ext) (scale : Q) (normalize : bool)
    (coefficient : Q) (size_average reduce : option bool) (reduction : string) :
  In "batchnorm-mse" recognised_metrics /\
  CodeLengthPredictionLoss.dispatch "batchnorm-mse" = Some "_batchnorm_mse" /\
  CodeLengthPredictionLoss.getattr ext "_batchnorm_mse" = Raise Py.AttributeError /\
  CodeLengthPredictionLoss.__init__ ext scale normalize coefficient "batchnorm-mse"
    size_average reduce reduction = Raise Py.AttributeError /\
  HyponymyScoreLoss.__init__ ext scale normalize coefficient "batchnorm-mse"
    size_average reduce reduction = Raise Py.AttributeError.
Proof.
  split; [simpl; tauto|]. repeat split.
Qed.

(** Claim C9: the metric name is settled when the loss object is
    constructed.  For every name, either it is one of the ten metric names
    that the class supports, and the constructors of
    [CodeLengthPredictionLoss] and of [HyponymyScoreLoss] (which the other
    classes inherit) return an object that stores the name and the distance
    method that the chain selects for it; or it is any other name, and both
    constructors raise [AttributeError] in [__init__].
    [EntailmentProbabilityLoss], which fixes the name, is always constructed.
    No forward pass reads the metric name: each of the five gives the same
    result whatever name the object stores, so none can fail on the name at
    call time. *)
Theorem init_settles_metric_name (ext : torch_ext) (scale : Q) (normalize : bool)
    (coefficient : Q) (name : string) (size_average reduce : option bool)
    (reduction : string) :
  ((In name constructible_metrics /\
    (exists self attribute,
       CodeLengthPredictionLoss.__init__ ext scale normalize coefficient name
         size_average reduce reduction = Ok self /\
       _distance_metric self = name /\
       CodeLengthPredictionLoss.dispatch name = Some attribute /\
       CodeLengthPredictionLoss.getattr ext attribute = Ok (_func_distance self)) /\
    (exists self attribute,
       HyponymyScoreLoss.__init__ ext scale normalize coefficient name
         size_average reduce reduction = Ok self /\
       _distance_metric self = name /\
       CodeLengthPredictionLoss.dispatch name = Some attribute /\
       CodeLengthPredictionLoss.getattr ext attribute = Ok (_func_distance self)))
   \/
   (~ In name constructible_metrics /\
    CodeLengthPredictionLoss.__init__ ext scale normalize coefficient name
      size_average reduce reduction = Raise Py.AttributeError /\
    HyponymyScoreLoss.__init__ ext scale normalize coefficient name
      size_average reduce reduction = Raise Py.AttributeError)) /\
  (exists self,
     EntailmentProbabilityLoss.__init__ ext scale size_average reduce reduction
     = Ok self) /\
  (forall (self : loss) (stored : string) (t : tensor),
     (forall lst, CodeLengthPredictionLoss.forward (set_distance_metric self stored) t lst
                  = CodeLengthPredictionLoss.forward self t lst) /\
     (forall lst, CodeLengthDiffPredictionLoss.forward (set_distance_metric self stored) t lst
                  = CodeLengthDiffPredictionLoss.forward self t lst) /\
     (forall lst, HyponymyScoreLoss.forward (set_distance_metric self stored) t lst
                  = HyponymyScoreLoss.forward self t lst) /\
     (forall lst, LowestCommonAncestorLengthPredictionLoss.forward
                    (set_distance_metric self stored) t lst
                  = LowestCommonAncestorLengthPredictionLoss.forward self t lst) /\
     (forall lst, EntailmentProbabilityLoss.forward (set_distance_metric self stored) t lst
                  = EntailmentProbabilityLoss.forward self t lst)).
Proof.
  split; [|split; [eexists; reflexivity|intros; repeat split]].
  destruct (in_dec String.string_dec name constructible_metrics) as [H|H].
  - left. split; [exact H|].
    unfold constructible_metrics in H. simpl in H.
    repeat (destruct H as [<-|H];
            [split; do 2 eexists; (split; [reflexivity|]);
             (split; [reflexivity|]); split; reflexivity|]).
    contradiction.
  - right. split; [exact H|].
    unfold HyponymyScoreLoss.__init__, CodeLengthPredictionLoss.__init__,
      CodeLengthPredictionLoss.dispatch.
    repeat (match goal with
            | |- context [String.eqb name ?s] =>
                destruct (String.eqb_spec name s) as [->|?]
            end;
            [first [exfalso; apply H; unfold constructible_metrics; simpl; tauto
                   |split; reflexivity]|]).
    split; reflexivity.
Qed.

(** ** Instances of the general properties *)

Lemma two_entities_is_distribution : code_distribution Examples.two_entities 2 2 2.
Proof.
  split; [reflexivity|]. intros b n Hb Hn.
  assert (b = 0%nat \/ b = 1%nat) as [-> | ->] by lia;
    (assert (n = 0%nat \/ n = 1%nat) as [-> | ->] by lia);
    (split; [|vm_compute; reflexivity]);
    intros a Ha; (assert (a = 0%nat \/ a = 1%nat) as [-> | ->] by lia);
    vm_compute; discriminate.
Qed.

(** The soft code length of [two_entities]: the first entity never stops and
    has length [n_digits = 2], the second has a length between 0 and 2. *)
Lemma calc_soft_code_length_bounds_witness :
  exists r, CodeLengthPredictionLoss.calc_soft_code_length Examples.two_entities = Ok r /\
    shape r = [2%nat] /\ (get r [0%nat] == 2)%Q /\ (0 <= get r [1%nat] <= 2)%Q.
Proof.
  destruct (calc_soft_code_length_bounds Examples.two_entities 2 2 2
              two_entities_is_distribution ltac:(lia) ltac:(lia)) as (r & Hr & Sr & Hb).
  exists r. split; [exact Hr|]. split; [exact Sr|]. split.
  - refine (proj1 (proj2 (Hb [0%nat] _)) _).
    + constructor; [lia|constructor].
    + intros n Hn. assert (n = 0%nat \/ n = 1%nat) as [-> | ->] by lia;
        vm_compute; reflexivity.
  - refine (proj1 (Hb [1%nat] _)). constructor; [lia|constructor].
Defined.

(** The hyponymy score of [hypernyms] and [two_entities] has one entry for
    each of the two pairs. *)
Lemma hyponymy_score_defined_witness :
  exists score,
    HyponymyScoreLoss.calc_soft_hyponymy_score Examples.hypernyms Examples.two_entities
    = Ok score /\ shape score = [2%nat].
Proof.
  destruct (hyponymy_score_defined Examples.hypernyms Examples.two_entities 2 2 2
              eq_refl eq_refl ltac:(lia) ltac:(lia))
    as (lx & ly & al & lca & score & _ & _ & _ & _ & Hs & _ & _ & _ & _ & Ss).
  exists score. split; [exact Hs|exact Ss].
Defined.

(** ["rmse"] is no metric of the chain. *)
Lemma init_rejects_unrecognised_witness :
  ~ In "rmse" recognised_metrics /\
  CodeLengthPredictionLoss.__init__ Examples.unused_torch 1 false 1 "rmse" None None "mean"
  = Raise Py.AttributeError.
Proof.
  assert (~ In "rmse" recognised_metrics) as H.
  { unfold recognised_metrics. simpl. intuition discriminate. }
  split; [exact H|].
  exact (init_rejects_unrecognised Examples.unused_torch 1 false 1 "rmse" None None "mean" H).
Defined.

(** Construction with ["autoscaled-mse"]. *)
Lemma init_accepts_constructible_witness :
  exists self,
    CodeLengthPredictionLoss.__init__ Examples.unused_torch 1 false 1 "autoscaled-mse"
      None None "mean" = Ok self /\
    _distance_metric self = "autoscaled-mse".
Proof.
  destruct (init_accepts_constructible Examples.unused_torch 1 false 1 "autoscaled-mse"
              None None "mean") as (self & H & Hm & _).
  - unfold constructible_metrics. simpl. tauto.
  - exists self. split; [exact H|exact Hm].
Defined.

(** With three relations and [B_r = 1] there are three whole batches. *)
Lemma verify_batch_sizes_whole_batches_witness :
  exists r, Sampler.verify_batch_sizes (Examples.small_sampler Examples.tree_first) = Ok r /\
    (n_embeddings_used_in_epoch r == spec_embeddings_used_in_epoch 3 1 3)%Q.
Proof.
  eexists. split; [vm_compute; reflexivity|].
  refine (verify_batch_sizes_whole_batches (Examples.small_sampler Examples.tree_first)
            _ 3 _ _); vm_compute; reflexivity.
Defined.

Section StoppingBounds.
Local Open Scope Q_scope.

Lemma prod_upto_nonneg (x : nat -> Q) (k : nat) :
  (forall j, (j <= k)%nat -> 0 <= x j) -> 0 <= prod_upto x k.
Proof.
  induction k as [|k IH]; intros H; simpl.
  - apply H; lia.
  - apply Qmult_le_0_compat; [apply IH; intros; apply H; lia|apply H; lia].
Qed.

Lemma stop_probability_nonneg (z : nat -> Q) (n k : nat) :
  (forall j, (j < n)%nat -> 0 <= z j <= 1) -> (k <= n)%nat ->
  0 <= stop_probability z n k.
Proof.
  intros Hz Hk. unfold stop_probability. apply Qmult_le_0_compat.
  - apply prod_upto_nonneg. intros j Hj.
    destruct (Nat.ltb_spec j 1); [lra|].
    destruct (Hz (j - 1)%nat); [lia|lra].
  - destruct (Nat.ltb_spec k n); [apply Hz; lia|lra].
Qed.

Lemma stop_probability_le_1 (z : nat -> Q) (n k : nat) :
  (forall j, (j < n)%nat -> 0 <= z j <= 1) -> (k <= n)%nat ->
  stop_probability z n k <= 1.
Proof.
  intros Hz Hk. rewrite <- (stop_probability_total z n).
  apply (qsum_seq_term_le (stop_probability z n) (S n) k); [|lia].
  intros j Hj. apply stop_probability_nonneg; [exact Hz|lia].
Qed.

Lemma expected_length_monotone (z z' : nat -> Q) (n : nat) :
  (forall j, (j < n)%nat -> 0 <= z' j <= 1) ->
  (forall j, (j < n)%nat -> z j <= z' j) ->
  expected_length z' n <= expected_length z n.
Proof.
  revert z z'. induction n as [|n IH]; intros z z' H1 H2; simpl; [lra|].
  assert (expected_length (fun j => z' (S j)) n <= expected_length (fun j => z (S j)) n) as L
    by (apply IH; intros; [apply H1|apply H2]; lia).
  assert (0 <= expected_length (fun j => z' (S j)) n) as P
    by (apply expected_length_bounds; intros; apply H1; lia).
  pose proof (H1 0%nat ltac:(lia)). pose proof (H2 0%nat ltac:(lia)). nra.
Qed.

Lemma expected_length_ext (z z' : nat -> Q) (n : nat) :
  (forall j, (j < n)%nat -> z j == z' j) ->
  expected_length z n == expected_length z' n.
Proof.
  revert z z'. induction n as [|n IH]; intros z z' H; simpl; [reflexivity|].
  rewrite (H 0%nat) by lia.
  rewrite (IH (fun j => z (S j)) (fun j => z' (S j))) by (intros; apply H; lia).
  reflexivity.
Qed.

Lemma ancestor_series_step (beta gamma : nat -> Q) (n : nat) :
  (forall k, (k < n)%nat -> 0 <= beta k) ->
  (forall k, (k < n)%nat -> 0 <= gamma k) ->
  (forall k, (k < n)%nat -> beta k + gamma k <= 1) ->
  0 <= ancestor_series beta gamma n /\
  0 <= prod_upto (fun j => if (j <? 1)%nat then 1 else gamma (j - 1)%nat) n /\
  ancestor_series beta gamma n
  + prod_upto (fun j => if (j <? 1)%nat then 1 else gamma (j - 1)%nat) n <= 1.
Proof.
  induction n as [|n IH]; intros Hb Hg Hs.
  - unfold ancestor_series. rewrite qsum_seq_0. simpl. lra.
  - destruct IH as (S0 & P0 & L); try (intros; auto with arith).
    unfold ancestor_series in *. rewrite qsum_seq_S.
    cbn [prod_upto]. change (S n <? 1)%nat with false. cbv iota.
    replace (S n - 1)%nat with n by lia.
    pose proof (Hb n ltac:(lia)). pose proof (Hg n ltac:(lia)). pose proof (Hs n ltac:(lia)).
    set (S := qsum _) in *. set (P := prod_upto _ n) in *.
    repeat split; nra.
Qed.

Lemma ancestor_series_bounds (beta gamma : nat -> Q) (n : nat) :
  (forall k, (k < n)%nat -> 0 <= beta k) ->
  (forall k, (k < n)%nat -> 0 <= gamma k) ->
  (forall k, (k < n)%nat -> beta k + gamma k <= 1) ->
  0 <= ancestor_series beta gamma n <= 1.
Proof.
  intros Hb Hg Hs. destruct (ancestor_series_step beta gamma n Hb Hg Hs) as (S0 & P0 & L).
  split; lra.
Qed.

End StoppingBounds.

(** ** Squeezed tensors and broadcasting against the batch dimension *)

Lemma numel_squeeze (s : list nat) :
  numel (List.filter (fun d => negb (d =? 1)%nat) s) = numel s.
Proof.
  induction s as [|d s IH]; simpl; [reflexivity|].
  destruct (Nat.eqb_spec d 1) as [->|_]; simpl; rewrite IH; lia.
Qed.

Lemma squeeze_well_formed (t : tensor) : well_formed t -> well_formed (squeeze t).
Proof. unfold well_formed, squeeze. simpl. now rewrite numel_squeeze. Qed.

Lemma valid_squeezed_index (B b : nat) :
  (b < B)%nat ->
  valid_index (squeezed_index B b) (batch_prefix B) /\ hd 0%nat (squeezed_index B b) = b.
Proof.
  intros Hb. unfold squeezed_index, batch_prefix.
  destruct (Nat.eqb_spec B 1) as [->|_].
  - split; [constructor|simpl; lia].
  - split; [constructor; [exact Hb|constructor]|reflexivity].
Qed.

Lemma bget_squeezed (t : tensor) (B b : nat) :
  shape t = batch_prefix B -> (b < B)%nat -> bget t [b] = get t (squeezed_index B b).
Proof.
  intros Hs Hb. unfold bget, squeezed_index. rewrite Hs. unfold batch_prefix.
  destruct (Nat.eqb_spec B 1) as [->|_]; [reflexivity|].
  rewrite bidx_same; [reflexivity|constructor; [exact Hb|constructor]].
Qed.

Lemma squeeze_select_zero_well_formed (t : tensor) (B N A : nat) :
  shape t = [B; N; A] -> (0 < A)%nat -> N <> 1%nat ->
  exists sel, index_select_last t 0 = Ok sel /\
    shape (squeeze sel) = batch_prefix B ++ [N] /\ well_formed (squeeze sel) /\
    forall pre n, valid_index pre (batch_prefix B) -> (n < N)%nat ->
      get (squeeze sel) (pre ++ [n]) = get t [hd 0%nat pre; n; 0%nat].
Proof.
  intros Hs HA HN.
  destruct (squeeze_select_zero t B N A Hs HA HN) as (sel & Hsel & Sz & Gz).
  exists sel. split; [exact Hsel|]. split; [exact Sz|]. split; [|exact Gz].
  rewrite (index_select_last_snoc t [B; N] A 0 Hs HA) in Hsel. simplify_eq.
  apply squeeze_well_formed, tabulate_well_formed.
Qed.

Lemma binop_suffix_shape_r (f : Q -> Q -> Q) (a b : tensor) (P s : list nat) :
  shape a = s -> shape b = P ++ s ->
  exists c, binop f a b = Ok c /\ shape c = P ++ s /\ well_formed c /\
    forall pre idx, valid_index pre P -> valid_index idx s ->
      get c (pre ++ idx) = f (get a idx) (get b (pre ++ idx)).
Proof.
  intros Ha Hb. unfold binop. rewrite Ha, Hb, bshape_suffix_r.
  eexists; split; [reflexivity|]. split; [reflexivity|].
  split; [apply tabulate_well_formed|].
  intros pre idx Hp Hi.
  assert (valid_index (pre ++ idx) (P ++ s)) as Hv by now apply Forall2_app.
  rewrite get_tabulate by exact Hv.
  rewrite (bget_valid b) by now rewrite Hb.
  unfold bget. now rewrite Ha, bidx_suffix.
Qed.

Lemma binop_batch_prefix_l (f : Q -> Q -> Q) (a b : tensor) (B : nat) (s : list nat) :
  shape a = B :: s -> shape b = batch_prefix B ++ s ->
  exists c, binop f a b = Ok c /\ shape c = B :: s /\ well_formed c /\
    forall i idx, (i < B)%nat -> valid_index idx s ->
      get c (i :: idx) = f (get a (i :: idx)) (get b (squeezed_index B i ++ idx)).
Proof.
  unfold batch_prefix, squeezed_index.
  destruct (Nat.eqb_spec B 1) as [->|_]; intros Ha Hb.
  - destruct (binop_suffix_shape f a b [1%nat] s Ha Hb) as (c & Hc & Sc & Wc & Gc).
    exists c. split; [exact Hc|]. split; [exact Sc|]. split; [exact Wc|].
    intros i idx Hi Hv. apply (Gc [i] idx); [constructor; [exact Hi|constructor]|exact Hv].
  - destruct (binop_same_shape f a b) as (c & Hc & Sc & Wc & Gc); [now rewrite Ha, Hb|].
    exists c. split; [exact Hc|]. split; [now rewrite Sc|]. split; [exact Wc|].
    intros i idx Hi Hv. apply Gc. rewrite Ha. now constructor.
Qed.

Lemma binop_batch_prefix_r (f : Q -> Q -> Q) (a b : tensor) (B : nat) (s : list nat) :
  shape a = batch_prefix B ++ s -> shape b = B :: s ->
  exists c, binop f a b = Ok c /\ shape c = B :: s /\ well_formed c /\
    forall i idx, (i < B)%nat -> valid_index idx s ->
      get c (i :: idx) = f (get a (squeezed_index B i ++ idx)) (get b (i :: idx)).
Proof.
  unfold batch_prefix, squeezed_index.
  destruct (Nat.eqb_spec B 1) as [->|_]; intros Ha Hb.
  - destruct (binop_suffix_shape_r f a b [1%nat] s Ha Hb) as (c & Hc & Sc & Wc & Gc).
    exists c. split; [exact Hc|]. split; [exact Sc|]. split; [exact Wc|].
    intros i idx Hi Hv. apply (Gc [i] idx); [constructor; [exact Hi|constructor]|exact Hv].
  - destruct (binop_same_shape f a b) as (c & Hc & Sc & Wc & Gc); [now rewrite Ha, Hb|].
    exists c. split; [exact Hc|]. split; [now rewrite Sc, Ha|]. split; [exact Wc|].
    intros i idx Hi Hv. apply Gc. rewrite Ha. now constructor.
Qed.

(** ** The overlap of two codes at a digit *)

Lemma overlap_rows (x y x0 y0 : tensor) (B N A : nat) :
  shape x = [B; N; A] -> shape y = [B; N; A] ->
  shape x0 = batch_prefix B ++ [N] -> shape y0 = batch_prefix B ++ [N] ->
  (forall pre n, valid_index pre (batch_prefix B) -> (n < N)%nat ->
     get x0 (pre ++ [n]) = get x [hd 0%nat pre; n; 0%nat]) ->
  (forall pre n, valid_index pre (batch_prefix B) -> (n < N)%nat ->
     get y0 (pre ++ [n]) = get y [hd 0%nat pre; n; 0%nat]) ->
  exists xy zz d, mul x y = Ok xy /\ mul x0 y0 = Ok zz /\ sub (sum_last xy) zz = Ok d /\
    shape d = [B; N] /\ well_formed d /\
    forall b n, (b < B)%nat -> (n < N)%nat -> get d [b; n] = digit_overlap x y A b n.
Proof.
  intros Sx Sy Sx0 Sy0 Gx Gy.
  destruct (binop_same_shape Qmult x y) as (xy & Hxy & Sxy & _ & Gxy); [congruence|].
  destruct (binop_same_shape Qmult x0 y0) as (zz & Hzz & Szz & _ & Gzz); [congruence|].
  assert (shape (sum_last xy) = [B; N]) as Ss
    by (apply (shape_sum_last xy [B; N] A); rewrite Sxy, Sx; reflexivity).
  destruct (binop_batch_prefix_l Qminus (sum_last xy) zz B [N] Ss) as (d & Hd & Sd & Wd & Gd).
  { now rewrite Szz, Sx0. }
  exists xy, zz, d. unfold mul, sub. repeat (split; [assumption|]).
  intros b n Hb Hn.
  rewrite (Gd b [n] Hb) by (constructor; [exact Hn|constructor]).
  destruct (valid_squeezed_index B b Hb) as [Hv Hh].
  rewrite Gzz by (rewrite Sx0; apply valid_index_snoc; split; assumption).
  rewrite Gx, Gy, Hh by assumption.
  unfold digit_overlap. f_equal.
  rewrite (sum_last_snoc xy [B; N] A) by (rewrite Sxy, Sx; reflexivity).
  rewrite get_tabulate by (repeat constructor; assumption).
  f_equal. apply map_ext_in. intros v Hv'. apply in_seq in Hv'.
  rewrite Gxy; [reflexivity|]. rewrite Sx. repeat constructor; lia.
Qed.

(** ** Entries of the break intensity, the ancestor probability and the LCA length *)

Lemma calc_break_intensity_rows (x y : tensor) (B N A : nat) :
  shape x = [B; N; A] -> shape y = [B; N; A] -> (0 < A)%nat -> N <> 1%nat ->
  exists r, _calc_break_intensity x y = Ok r /\ shape r = [B; N] /\ well_formed r /\
    forall b n, (b < B)%nat -> (n < N)%nat ->
      get r [b; n] = (1 - digit_overlap x y A b n)%Q.
Proof.
  intros Sx Sy HA HN. unfold _calc_break_intensity.
  destruct (squeeze_select_zero_well_formed x B N A Sx HA HN) as (selx & Hx & Szx & _ & Gx).
  destruct (squeeze_select_zero_well_formed y B N A Sy HA HN) as (sely & Hy & Szy & _ & Gy).
  rewrite Hx, Hy. cbn [mbind result_bind Py.bind].
  destruct (overlap_rows x y (squeeze selx) (squeeze sely) B N A Sx Sy Szx Szy Gx Gy)
    as (xy & zz & d & Hxy & Hzz & Hd & Sd & Wd & Gd).
  rewrite Hxy, Hzz. cbn [mbind result_bind Py.bind].
  rewrite Hd. cbn [mbind result_bind Py.bind].
  eexists. split; [reflexivity|]. split; [exact Sd|].
  split; [now apply tmap_well_formed|].
  intros b n Hb Hn. unfold rsub.
  rewrite get_tmap; [|exact Wd|rewrite Sd; repeat constructor; assumption].
  now rewrite Gd.
Qed.

Lemma calc_ancestor_probability_rows (x y : tensor) (B N A : nat) :
  shape x = [B; N; A] -> shape y = [B; N; A] -> (0 < A)%nat -> N <> 1%nat ->
  exists r, calc_ancestor_probability x y = Ok r /\ shape r = [B] /\ well_formed r /\
    forall b, (b < B)%nat ->
      get r [b]
      = ancestor_series (fun n => get x [b; n; 0%nat] * (1 - get y [b; n; 0%nat]))%Q
                        (fun n => digit_overlap x y A b n) N.
Proof.
  intros Sx Sy HA HN. unfold calc_ancestor_probability.
  unfold shape_last2. rewrite Sx. cbn [rev app mbind result_bind Py.bind].
  destruct (squeeze_select_zero_well_formed x B N A Sx HA HN) as (selx & Hx & Szx & Wx & Gx).
  destruct (squeeze_select_zero_well_formed y B N A Sy HA HN) as (sely & Hy & Szy & Wy & Gy).
  rewrite Hx, Hy. cbn [mbind result_bind Py.bind].
  destruct (binop_same_shape Qmult (squeeze selx) (rsub 1 (squeeze sely)))
    as (beta & Hbeta & Sbeta & _ & Gbeta); [cbn [rsub tmap shape]; congruence|].
  destruct (overlap_rows x y (squeeze selx) (squeeze sely) B N A Sx Sy Szx Szy Gx Gy)
    as (xy & zz & gamma_hat & Hxy & Hzz & Hg & Sg & Wg & Gg).
  unfold mul, sub in Hxy, Hzz, Hg |- *.
  rewrite Hbeta, Hxy, Hzz. cbn [mbind result_bind Py.bind].
  rewrite Hg. cbn [mbind result_bind Py.bind].
  unfold pad_shape. rewrite Sg. cbn [removelast app].
  destruct (cat_last_snoc (ones [B; 1%nat]) gamma_hat [B] 1 N eq_refl Sg)
    as (c & Hc & Sc & _ & Gc).
  rewrite Hc. cbn [mbind result_bind Py.bind].
  destruct (narrow_last_snoc c [B] (1 + N) N Sc ltac:(lia)) as (gamma & Hgam & Sgam).
  pose proof Hgam as Egam. unfold narrow_last in Egam.
  rewrite Sc, rev_unit, removelast_last in Egam.
  destruct (Nat.leb_spec N (1 + N)); [|lia]. simplify_eq.
  rewrite Hgam. cbn [mbind result_bind Py.bind].
  set (gamma := tabulate [B; N] (fun idx => get c idx)) in *.
  destruct (cumprod_last_snoc gamma [B] N Sgam) as (Scp & _ & Gcp).
  destruct (binop_batch_prefix_r Qmult beta (cumprod_last gamma) B [N]) as (p & Hp & Sp & Wp & Gp).
  { now rewrite Sbeta, Szx. }
  { exact Scp. }
  rewrite Hp. cbn [mbind result_bind Py.bind].
  eexists. split; [reflexivity|]. split; [apply (shape_sum_last p [B] N Sp)|].
  split; [apply sum_last_well_formed; exact Wp|].
  intros b Hb. rewrite (sum_last_snoc p [B] N Sp).
  rewrite get_tabulate by (constructor; [exact Hb|constructor]).
  unfold ancestor_series. f_equal. apply map_ext_in. intros n Hn. apply in_seq in Hn.
  destruct (valid_squeezed_index B b Hb) as [Hv Hh].
  change ([b] ++ [n]) with (b :: [n]).
  rewrite (Gp b [n] Hb) by (constructor; [lia|constructor]).
  rewrite Gbeta by (rewrite Szx; apply valid_index_snoc; split; [assumption|lia]).
  unfold rsub. rewrite get_tmap;
    [|exact Wy|rewrite Szy; apply valid_index_snoc; split; [assumption|lia]].
  rewrite Gx, Gy, Hh by (first [assumption|lia]).
  f_equal.
  change [b; n] with ([b] ++ [n]).
  rewrite Gcp by (first [constructor; [exact Hb|constructor]|lia]).
  apply prod_upto_ext. intros j Hj.
  unfold gamma. rewrite get_tabulate
    by (constructor; [lia|constructor; [lia|constructor]]).
  rewrite Gc by (first [constructor; [exact Hb|constructor]|lia]).
  destruct (Nat.ltb_spec j 1).
  - unfold ones. rewrite get_full; [reflexivity|].
    change ([b] ++ [j]) with [b; j].
    constructor; [lia|constructor; [lia|constructor]].
  - change ([b] ++ [(j - 1)%nat]) with [b; (j - 1)%nat]. apply Gg; lia.
Qed.

Lemma calc_soft_lowest_common_ancestor_length_rows (x y : tensor) (B N A : nat) :
  shape x = [B; N; A] -> shape y = [B; N; A] -> (0 < A)%nat -> N <> 1%nat ->
  exists r, calc_soft_lowest_common_ancestor_length x y = Ok r /\ shape r = [B] /\
    well_formed r /\
    forall b, (b < B)%nat ->
      (get r [b] == expected_length (fun n => 1 - digit_overlap x y A b n) N)%Q.
Proof.
  intros Sx Sy HA HN. unfold calc_soft_lowest_common_ancestor_length.
  unfold shape_last2. rewrite Sx. cbn [rev app mbind result_bind Py.bind].
  destruct (calc_break_intensity_rows x y B N A Sx Sy HA HN) as (br & Hbr & Sbr & _ & Gbr).
  rewrite Hbr. cbn [mbind result_bind Py.bind].
  destruct (intensity_to_probability_snoc br [B] N Sbr) as (pr & Hpr & Spr & _ & Gpr).
  rewrite Hpr. cbn [mbind result_bind Py.bind]. rewrite Nat.add_1_r.
  destruct (binop_suffix_shape Qmult pr (arange (S N)) [B] [S N] Spr eq_refl)
    as (m & Hm & Sm & Wm & Gm).
  unfold mul. rewrite Hm. cbn [mbind result_bind Py.bind].
  eexists. split; [reflexivity|]. split; [apply (shape_sum_last m [B] (S N) Sm)|].
  split; [apply sum_last_well_formed; exact Wm|].
  intros b Hb. rewrite (sum_last_snoc m [B] (S N) Sm).
  assert (valid_index [b] [B]) as Hv by (constructor; [exact Hb|constructor]).
  rewrite get_tabulate by exact Hv.
  rewrite <- expected_stop. apply qsum_seq_ext. intros k Hk.
  rewrite Gm; [|exact Hv|constructor; [exact Hk|constructor]].
  rewrite Gpr by assumption. rewrite get_arange by exact Hk.
  rewrite (stop_probability_ext _ (fun n => 1 - digit_overlap x y A b n)%Q N k);
    [reflexivity| |lia].
  intros j Hj. change ([b] ++ [j]) with [b; j]. now apply Gbr.
Qed.

(** ** Bounds of the scoring functions *)

Lemma qsum_seq_le (h h' : nat -> Q) (n : nat) :
  (forall k, (k < n)%nat -> (h k <= h' k)%Q) ->
  (qsum (map h (seq 0 n)) <= qsum (map h' (seq 0 n)))%Q.
Proof.
  induction n as [|n IH]; intros H; [rewrite !qsum_seq_0; lra|].
  rewrite !qsum_seq_S. pose proof (H n ltac:(lia)).
  assert (qsum (map h (seq 0 n)) <= qsum (map h' (seq 0 n)))%Q
    by (apply IH; intros; apply H; lia).
  lra.
Qed.

Lemma code_distribution_entry (t : tensor) (B N A b n a : nat) :
  code_distribution t B N A -> (b < B)%nat -> (n < N)%nat -> (a < A)%nat ->
  (0 <= get t [b; n; a] <= 1)%Q.
Proof.
  intros [_ H] Hb Hn Ha. destruct (H b n Hb Hn) as [Hpos Hsum].
  split; [now apply Hpos|].
  rewrite <- Hsum. now apply (qsum_seq_term_le (fun a => get t [b; n; a]) A a).
Qed.

Lemma digit_overlap_bounds (x y : tensor) (B N A b n : nat) :
  code_distribution x B N A -> code_distribution y B N A -> (0 < A)%nat ->
  (b < B)%nat -> (n < N)%nat ->
  (0 <= digit_overlap x y A b n)%Q /\
  (digit_overlap x y A b n <= 1 - get x [b; n; 0%nat])%Q /\
  (digit_overlap x y A b n <= 1 - get y [b; n; 0%nat])%Q.
Proof.
  intros Hx Hy HA Hb Hn. destruct A as [|A']; [lia|].
  assert (forall v, (v < S A')%nat -> (0 <= get x [b; n; v] <= 1)%Q) as Ex
    by (intros; now apply (code_distribution_entry x B N (S A'))).
  assert (forall v, (v < S A')%nat -> (0 <= get y [b; n; v] <= 1)%Q) as Ey
    by (intros; now apply (code_distribution_entry y B N (S A'))).
  destruct Hx as [_ Hx], Hy as [_ Hy].
  destruct (Hx b n Hb Hn) as [_ Sx]. destruct (Hy b n Hb Hn) as [_ Sy].
  rewrite qsum_seq_front in Sx, Sy.
  unfold digit_overlap.
  rewrite (qsum_seq_front (fun v => get x [b; n; v] * get y [b; n; v])%Q).
  set (rest := qsum (map (fun k => get x [b; n; S k] * get y [b; n; S k])%Q (seq 0 A'))).
  assert (0 <= rest)%Q as R0.
  { apply qsum_seq_nonneg. intros k Hk.
    destruct (Ex (S k) ltac:(lia)), (Ey (S k) ltac:(lia)). nra. }
  assert (rest <= qsum (map (fun k => get x [b; n; S k]) (seq 0 A')))%Q as Rx.
  { apply qsum_seq_le. intros k Hk.
    destruct (Ex (S k) ltac:(lia)), (Ey (S k) ltac:(lia)). nra. }
  assert (rest <= qsum (map (fun k => get y [b; n; S k]) (seq 0 A')))%Q as Ry.
  { apply qsum_seq_le. intros k Hk.
    destruct (Ex (S k) ltac:(lia)), (Ey (S k) ltac:(lia)). nra. }
  repeat split; lra.
Qed.

Lemma ancestor_series_of_distributions (x y : tensor) (B N A b : nat) :
  code_distribution x B N A -> code_distribution y B N A -> (0 < A)%nat -> (b < B)%nat ->
  (0 <= ancestor_series (fun n => get x [b; n; 0%nat] * (1 - get y [b; n; 0%nat]))
                        (fun n => digit_overlap x y A b n) N <= 1)%Q.
Proof.
  intros Hx Hy HA Hb. apply ancestor_series_bounds; intros k Hk.
  - destruct (code_distribution_entry x B N A b k 0 Hx Hb Hk HA).
    destruct (code_distribution_entry y B N A b k 0 Hy Hb Hk HA). nra.
  - now apply (digit_overlap_bounds x y B N A b k).
  - destruct (digit_overlap_bounds x y B N A b k Hx Hy HA Hb Hk) as (_ & L & _).
    destruct (code_distribution_entry x B N A b k 0 Hx Hb Hk HA).
    destruct (code_distribution_entry y B N A b k 0 Hy Hb Hk HA). nra.
Qed.

Lemma break_length_of_distributions (x y : tensor) (B N A b : nat) :
  code_distribution x B N A -> code_distribution y B N A -> (0 < A)%nat -> (b < B)%nat ->
  let l_lca := expected_length (fun n => 1 - digit_overlap x y A b n)%Q N in
  (0 <= l_lca <= inject_Z (Z.of_nat N))%Q /\
  (l_lca <= expected_length (fun n => get x [b; n; 0%nat]) N)%Q /\
  (l_lca <= expected_length (fun n => get y [b; n; 0%nat]) N)%Q.
Proof.
  intros Hx Hy HA Hb. cbv zeta.
  assert (forall j, (j < N)%nat -> (0 <= 1 - digit_overlap x y A b j <= 1)%Q) as Hz.
  { intros j Hj.
    destruct (digit_overlap_bounds x y B N A b j Hx Hy HA Hb Hj) as (L0 & L1 & _).
    destruct (code_distribution_entry x B N A b j 0 Hx Hb Hj HA). lra. }
  split; [now apply expected_length_bounds|]. split.
  - apply expected_length_monotone; [exact Hz|]. intros j Hj.
    destruct (digit_overlap_bounds x y B N A b j Hx Hy HA Hb Hj) as (_ & L & _). lra.
  - apply expected_length_monotone; [exact Hz|]. intros j Hj.
    destruct (digit_overlap_bounds x y B N A b j Hx Hy HA Hb Hj) as (_ & _ & L). lra.
Qed.

(** For two batches of code distributions with [n_digits <> 1],
    [calc_ancestor_probability] returns one number in [[0, 1]] for each pair;
    it is 0 for a hypernym none of whose digits can be 0. *)
Theorem calc_ancestor_probability_bounds (x y : tensor) (B N A : nat) :
  code_distribution x B N A -> code_distribution y B N A ->
  (0 < A)%nat -> N <> 1%nat ->
  exists alpha, calc_ancestor_probability x y = Ok alpha /\ shape alpha = [B] /\
    forall b, (b < B)%nat ->
      (0 <= get alpha [b] <= 1)%Q /\
      ((forall n, (n < N)%nat -> get x [b; n; 0%nat] == 0)%Q -> (get alpha [b] == 0)%Q).
Proof.
  intros Hx Hy HA HN.
  destruct (calc_ancestor_probability_rows x y B N A (proj1 Hx) (proj1 Hy) HA HN)
    as (alpha & Ha & Sa & _ & Ga).
  exists alpha. split; [exact Ha|]. split; [exact Sa|].
  intros b Hb. rewrite (Ga b Hb). split.
  - now apply (ancestor_series_of_distributions x y B N A b).
  - intros Hz. unfold ancestor_series.
    rewrite (qsum_seq_ext _ (fun _ => 0 * 1)%Q).
    + rewrite (qsum_seq_scale 0 (fun _ => 1%Q)). ring.
    + intros k Hk. rewrite (Hz k Hk). ring.
Qed.

(** For two batches of code distributions with [n_digits <> 1],
    [calc_soft_lowest_common_ancestor_length] returns one number in
    [[0, n_digits]] for each pair, which exceeds neither the soft code
    length of the hypernym nor the one of the hyponym. *)
Theorem calc_soft_lowest_common_ancestor_length_bounds (x y : tensor) (B N A : nat) :
  code_distribution x B N A -> code_distribution y B N A ->
  (0 < A)%nat -> N <> 1%nat ->
  exists l_lca l_hyper l_hypo,
    calc_soft_lowest_common_ancestor_length x y = Ok l_lca /\
    calc_soft_code_length x = Ok l_hyper /\
    calc_soft_code_length y = Ok l_hypo /\
    shape l_lca = [B] /\
    forall b, (b < B)%nat ->
      (0 <= get l_lca [b] <= inject_Z (Z.of_nat N))%Q /\
      (get l_lca [b] <= bget l_hyper [b])%Q /\
      (get l_lca [b] <= bget l_hypo [b])%Q.
Proof.
  intros Hx Hy HA HN.
  destruct (calc_soft_lowest_common_ancestor_length_rows x y B N A (proj1 Hx) (proj1 Hy) HA HN)
    as (l & Hl & Sl & _ & Gl).
  destruct (calc_soft_code_length_rows x B N A (proj1 Hx) HA HN) as (lx & Hlx & Slx & _ & Glx).
  destruct (calc_soft_code_length_rows y B N A (proj1 Hy) HA HN) as (ly & Hly & Sly & _ & Gly).
  exists l, lx, ly. repeat (split; [assumption|]).
  intros b Hb. destruct (valid_squeezed_index B b Hb) as [Hv Hh].
  rewrite (bget_squeezed lx B b Slx Hb), (bget_squeezed ly B b Sly Hb).
  rewrite (Gl b Hb), (Glx _ Hv), (Gly _ Hv), Hh.
  exact (break_length_of_distributions x y B N A b Hx Hy HA Hb).
Qed.

Lemma calc_soft_hyponymy_score_rows (x y l_hyper l_hypo alpha l_lca : tensor) (B : nat) :
  calc_soft_code_length x = Ok l_hyper ->
  calc_soft_code_length y = Ok l_hypo ->
  calc_ancestor_probability x y = Ok alpha ->
  calc_soft_lowest_common_ancestor_length x y = Ok l_lca ->
  shape l_hyper = batch_prefix B -> shape l_hypo = batch_prefix B ->
  shape alpha = [B] -> shape l_lca = [B] ->
  exists score, calc_soft_hyponymy_score x y = Ok score /\ shape score = [B] /\
    forall b, (b < B)%nat ->
      get score [b]
      = (get alpha [b] * (bget l_hypo [b] - bget l_hyper [b])
         + (1 - get alpha [b]) * (get l_lca [b] - bget l_hyper [b]))%Q.
Proof.
  intros Hlx Hly Hal Hlca Slx Sly Sal Slca.
  pose proof (calc_ancestor_probability_well_formed x y alpha Hal) as Wal.
  unfold calc_soft_hyponymy_score.
  rewrite Hlx, Hly, Hal, Hlca. cbn [mbind result_bind Py.bind].
  destruct (binop_same_shape Qminus l_hypo l_hyper) as (d1 & Hd1 & Sd1 & _ & Gd1);
    [congruence|].
  destruct (binop_batch_prefix_l Qmult alpha d1 B [] Sal) as (a1 & Ha1 & Sa1 & _ & Ga1).
  { now rewrite Sd1, Sly, app_nil_r. }
  destruct (binop_batch_prefix_l Qminus l_lca l_hyper B [] Slca) as (d2 & Hd2 & Sd2 & _ & Gd2).
  { now rewrite Slx, app_nil_r. }
  destruct (binop_same_shape Qmult (rsub 1 alpha) d2) as (a2 & Ha2 & Sa2 & _ & Ga2).
  { cbn [rsub tmap shape]. congruence. }
  destruct (binop_same_shape Qplus a1 a2) as (s & Hs & Ss & _ & Gs).
  { cbn [rsub tmap shape] in Sa2. congruence. }
  unfold sub, mul, add. rewrite Hd1. cbn [mbind result_bind Py.bind].
  rewrite Ha1. cbn [mbind result_bind Py.bind].
  rewrite Hd2. cbn [mbind result_bind Py.bind].
  rewrite Ha2. cbn [mbind result_bind Py.bind].
  exists s. split; [exact Hs|]. split; [congruence|].
  intros b Hb.
  assert (valid_index [b] [B]) as Hv by (constructor; [exact Hb|constructor]).
  destruct (valid_squeezed_index B b Hb) as [Hq _].
  rewrite Gs by (rewrite Sa1; exact Hv).
  rewrite (Ga1 b [] Hb) by constructor.
  rewrite Ga2 by (cbn [rsub tmap shape]; rewrite Sal; exact Hv).
  rewrite (Gd2 b [] Hb) by constructor.
  rewrite app_nil_r.
  rewrite Gd1 by (rewrite Sly; exact Hq).
  unfold rsub. rewrite get_tmap by (first [exact Wal|rewrite Sal; exact Hv]).
  rewrite (bget_squeezed l_hyper B b Slx Hb), (bget_squeezed l_hypo B b Sly Hb).
  reflexivity.
Qed.

(** For two batches of code distributions with [n_digits <> 1],
    [calc_soft_hyponymy_score] returns one number for each pair, between
    [L_lca - L_x] and [L_y - L_x], hence in [[-n_digits, n_digits]]. *)
Theorem calc_soft_hyponymy_score_bounds (x y : tensor) (B N A : nat) :
  code_distribution x B N A -> code_distribution y B N A ->
  (0 < A)%nat -> N <> 1%nat ->
  exists score l_hyper l_hypo l_lca,
    calc_soft_hyponymy_score x y = Ok score /\
    calc_soft_code_length x = Ok l_hyper /\
    calc_soft_code_length y = Ok l_hypo /\
    calc_soft_lowest_common_ancestor_length x y = Ok l_lca /\
    shape score = [B] /\
    forall b, (b < B)%nat ->
      (get l_lca [b] - bget l_hyper [b] <= get score [b])%Q /\
      (get score [b] <= bget l_hypo [b] - bget l_hyper [b])%Q /\
      (- inject_Z (Z.of_nat N) <= get score [b] <= inject_Z (Z.of_nat N))%Q.
Proof.
  intros Hx Hy HA HN.
  destruct (calc_soft_lowest_common_ancestor_length_rows x y B N A (proj1 Hx) (proj1 Hy) HA HN)
    as (lca & Hlca & Slca & _ & Glca).
  destruct (calc_ancestor_probability_rows x y B N A (proj1 Hx) (proj1 Hy) HA HN)
    as (al & Hal & Sal & _ & Gal).
  destruct (calc_soft_code_length_rows x B N A (proj1 Hx) HA HN) as (lx & Hlx & Slx & _ & Glx).
  destruct (calc_soft_code_length_rows y B N A (proj1 Hy) HA HN) as (ly & Hly & Sly & _ & Gly).
  destruct (calc_soft_hyponymy_score_rows x y lx ly al lca B Hlx Hly Hal Hlca Slx Sly Sal Slca)
    as (score & Hs & Ss & Gs).
  exists score, lx, ly, lca. repeat (split; [assumption|]).
  intros b Hb. rewrite (Gs b Hb).
  destruct (valid_squeezed_index B b Hb) as [Hv Hh].
  pose proof (ancestor_series_of_distributions x y B N A b Hx Hy HA Hb) as (A0 & A1).
  rewrite <- (Gal b Hb) in A0, A1.
  pose proof (break_length_of_distributions x y B N A b Hx Hy HA Hb) as ((L0 & L1) & E2 & E3).
  cbv zeta in L0, L1, E2, E3.
  rewrite <- (Glca b Hb) in L0, L1.
  assert (get lca [b] <= bget lx [b])%Q as L2
    by (rewrite (bget_squeezed lx B b Slx Hb), (Glx _ Hv), Hh, (Glca b Hb); exact E2).
  assert (get lca [b] <= bget ly [b])%Q as L3
    by (rewrite (bget_squeezed ly B b Sly Hb), (Gly _ Hv), Hh, (Glca b Hb); exact E3).
  clear E2 E3.
  assert (0 <= bget lx [b] <= inject_Z (Z.of_nat N))%Q as Bx.
  { rewrite (bget_squeezed lx B b Slx Hb), (Glx _ Hv), Hh.
    apply expected_length_bounds. intros j Hj.
    now apply (code_distribution_entry x B N A b j 0). }
  assert (0 <= bget ly [b] <= inject_Z (Z.of_nat N))%Q as By.
  { rewrite (bget_squeezed ly B b Sly Hb), (Gly _ Hv), Hh.
    apply expected_length_bounds. intros j Hj.
    now apply (code_distribution_entry y B N A b j 0). }
  set (a := get al [b]) in *. set (u := bget lx [b]) in *. set (v := bget ly [b]) in *.
  set (w := get lca [b]) in *. set (m := inject_Z (Z.of_nat N)) in *.
  repeat split; nra.
Qed.

(** ** [_intensity_to_probability] *)

(** For a tensor of intensities with at least one dimension,
    [_intensity_to_probability] appends one position to the last dimension,
    and every row of its result sums to 1; when the intensities of a row lie
    in [[0, 1]], so do the entries of the row of the result. *)
Theorem intensity_to_probability_distribution (z : tensor) (P : list nat) (n : nat) :
  shape z = P ++ [n] ->
  exists pr, _intensity_to_probability z = Ok pr /\ shape pr = P ++ [S n] /\
    forall pre, valid_index pre P ->
      (qsum (map (fun k => get pr (pre ++ [k])) (seq 0 (S n))) == 1)%Q /\
      ((forall j, (j < n)%nat -> 0 <= get z (pre ++ [j]) <= 1)%Q ->
       forall k, (k < S n)%nat -> (0 <= get pr (pre ++ [k]) <= 1)%Q).
Proof.
  intros Hs.
  destruct (intensity_to_probability_snoc z P n Hs) as (pr & Hpr & Spr & _ & Gpr).
  exists pr. split; [exact Hpr|]. split; [exact Spr|].
  intros pre Hp. split.
  - rewrite (qsum_seq_ext _ (stop_probability (fun j => get z (pre ++ [j])) n)).
    + apply stop_probability_total.
    + intros k Hk. rewrite Gpr by assumption. reflexivity.
  - intros Hz k Hk. rewrite Gpr by assumption. split.
    + apply stop_probability_nonneg; [exact Hz|lia].
    + apply stop_probability_le_1; [exact Hz|lia].
Qed.

(** ** Symmetry of the LCA length *)

Lemma Qmult_comm_eq (a b : Q) : (a * b)%Q = (b * a)%Q.
Proof. unfold Qmult. f_equal; [apply Z.mul_comm|apply Pos.mul_comm]. Qed.

Lemma bdim_comm (d d' : nat) : bdim d d' = bdim d' d.
Proof.
  unfold bdim.
  destruct (Nat.eqb_spec d d'), (Nat.eqb_spec d' d), (Nat.eqb_spec d 1),
    (Nat.eqb_spec d' 1); subst; congruence.
Qed.

Lemma bshape_rev_comm (s s' : list nat) : bshape_rev s s' = bshape_rev s' s.
Proof.
  revert s'. induction s as [|d s IH]; intros [|d' s']; simpl; try reflexivity.
  now rewrite bdim_comm, IH.
Qed.

Lemma bshape_comm (s s' : list nat) : bshape s s' = bshape s' s.
Proof. unfold bshape. now rewrite bshape_rev_comm. Qed.

Lemma mul_comm (a b : tensor) : mul a b = mul b a.
Proof.
  unfold mul, binop. rewrite (bshape_comm (shape a) (shape b)).
  destruct (bshape (shape b) (shape a)); [|reflexivity].
  f_equal. unfold tabulate. f_equal. apply map_ext. intros idx. apply Qmult_comm_eq.
Qed.

Lemma index_select_last_error (t : tensor) (i : nat) (e : exn) :
  index_select_last t i = Raise e -> e = IndexError.
Proof.
  unfold index_select_last. destruct (rev (shape t)); [congruence|].
  destruct (_ <? _)%nat; congruence.
Qed.

Lemma calc_break_intensity_comm (x y : tensor) :
  _calc_break_intensity x y = _calc_break_intensity y x.
Proof.
  unfold _calc_break_intensity.
  destruct (index_select_last x 0) as [sx|e] eqn:Ex,
           (index_select_last y 0) as [sy|e'] eqn:Ey;
    cbn [mbind result_bind Py.bind]; try reflexivity.
  - now rewrite (mul_comm x y), (mul_comm (squeeze sx) (squeeze sy)).
  - apply index_select_last_error in Ex, Ey. congruence.
Qed.

(** The soft LCA length does not depend on the order of its two arguments,
    when they have one shape: the same result, or the same exception. *)
Theorem calc_soft_lowest_common_ancestor_length_comm (x y : tensor) :
  shape x = shape y ->
  calc_soft_lowest_common_ancestor_length x y
  = calc_soft_lowest_common_ancestor_length y x.
Proof.
  intros Hs. unfold calc_soft_lowest_common_ancestor_length, shape_last2.
  rewrite Hs, (calc_break_intensity_comm x y). reflexivity.
Qed.

(** ** The auto-scaled metrics *)

Section AutoScaled.

Local Open Scope Q_scope.

Lemma fold_left_Qplus (l : list Q) (a : Q) : fold_left Qplus l a == a + qsum l.
Proof.
  unfold qsum. revert a. induction l as [|x l IH]; intros a; simpl; [ring|].
  rewrite (IH (a + x)), (IH (0 + x)). ring.
Qed.

Lemma qsum_cons (x : Q) (l : list Q) : qsum (x :: l) == x + qsum l.
Proof. unfold qsum at 1. simpl. rewrite fold_left_Qplus. ring. Qed.

Lemma qsum_squares_nonneg (l : list Q) : 0 <= qsum (map (fun x => x * x) l).
Proof.
  induction l as [|x l IH]; simpl; [unfold qsum; simpl; lra|].
  rewrite qsum_cons. nra.
Qed.

Lemma Qmult_1_r_eq (x : Q) : x * 1 = x.
Proof. destruct x as [n d]. unfold Qmult. simpl. now rewrite Z.mul_1_r, Pos.mul_1_r. Qed.

Lemma mul_scalar_1 (t : tensor) : mul_scalar t 1 = t.
Proof.
  destruct t as [s d]. unfold mul_scalar, tmap. simpl. f_equal.
  rewrite (map_ext _ (fun x => x) Qmult_1_r_eq). apply map_id.
Qed.

(** The fitted scale is the 0-dim tensor of
    [sum(u*v) / (sum(u**2) + 1E-6)]: the denominator is never 0. *)
Lemma fitted_scale_value (u v uv : tensor) :
  mul u v = Ok uv ->
  fitted_scale u v
  = Ok (scalar (qsum (data uv) / (qsum (data (square u)) + (1 # 1000000)))).
Proof.
  intros H. unfold fitted_scale. rewrite H. cbn [mbind result_bind Py.bind].
  unfold div, sum_all, add_scalar, scalar, tmap. cbn [data shape map existsb].
  pose proof (qsum_squares_nonneg (data u)) as P.
  change (map (fun x => x * x) (data u)) with (data (square u)) in P.
  destruct (Qeq_bool _ 0) eqn:E.
  - apply Qeq_bool_iff in E. lra.
  - reflexivity.
Qed.

End AutoScaled.

(** Whenever [sum(u*v) <= sum(u**2) + 1E-6], the fitted scale is at most 1,
    [max(1.0, scale)] is 1.0, and [_positive_auto_scaled_mse] is [_mse]: the
    same loss, or the same exception. *)
Theorem positive_auto_scaled_mse_is_mse (reduction : string) (u v : tensor) :
  (forall uv, mul u v = Ok uv ->
     (qsum (data uv) <= qsum (data (square u)) + (1 # 1000000))%Q) ->
  _positive_auto_scaled_mse reduction u v = _mse reduction u v.
Proof.
  intros H. unfold _positive_auto_scaled_mse, _mse.
  destruct (mul u v) as [uv|e] eqn:Huv.
  - rewrite (fitted_scale_value u v uv Huv). cbn [mbind result_bind Py.bind].
    unfold is_positive, add_scalar, scalar, tmap. cbn [data map mbind result_bind Py.bind].
    pose proof (H uv eq_refl) as L.
    pose proof (qsum_squares_nonneg (data u)) as P.
    change (map (fun x => x * x)%Q (data u)) with (data (square u)) in P.
    destruct (Qlt_le_dec 0 _) as [Hlt|_]; cbn [mbind result_bind Py.bind].
    + exfalso. revert Hlt L P.
      set (a := qsum (data uv)). set (c := qsum (data (square u))). intros Hlt L P.
      assert (0 < c + (1 # 1000000))%Q as Hc by lra.
      assert (a / (c + (1 # 1000000)) <= 1)%Q.
      { apply Qle_shift_div_r; [exact Hc|lra]. }
      lra.
    + now rewrite mul_scalar_1.
  - unfold fitted_scale. rewrite Huv. cbn [mbind result_bind Py.bind].
    unfold mse_loss, sub. unfold mul, binop in Huv. unfold binop.
    destruct (bshape (shape u) (shape v)); [discriminate|].
    simplify_eq. reflexivity.
Qed.


(** ** Indices beyond the batch *)

Lemma index_select_first_out_of_range (t : tensor) (n : nat) (s : list nat)
    (idxs : list nat) :
  shape t = n :: s -> Exists (fun i => (n <= i)%nat) idxs ->
  index_select_first t idxs = Raise IndexError.
Proof.
  intros Hs Hex. unfold index_select_first. rewrite Hs.
  destruct (forallb (fun i => (i <? n)%nat) idxs) eqn:E; [|reflexivity].
  exfalso. rewrite forallb_forall in E. apply List.Exists_exists in Hex as (i & Hin & Hi).
  apply E in Hin. apply Nat.ltb_lt in Hin. lia.
Qed.

Lemma index_select_first_error (t : tensor) (idxs : list nat) (e : exn) :
  index_select_first t idxs = Raise e -> e = IndexError.
Proof.
  unfold index_select_first. destruct (shape t).
  - destruct idxs as [|[|?] [|? ?]]; congruence.
  - destruct (forallb _ _); congruence.
Qed.

Lemma pair_out_of_range (t : tensor) (n : nat) (s : list nat) (lst : list (nat * nat * Q))
    {R : Type} (k : tensor -> tensor -> result R) :
  shape t = n :: s ->
  Exists (fun tup => (n <= tup.1.1)%nat \/ (n <= tup.1.2)%nat) lst ->
  (t_prob_c_x ← index_select_first t (map (fun tup => fst (fst tup)) lst);
   t_prob_c_y ← index_select_first t (map (fun tup => snd (fst tup)) lst);
   k t_prob_c_x t_prob_c_y) = Raise IndexError.
Proof.
  intros Hs Hex.
  destruct (index_select_first t (map (fun tup => fst (fst tup)) lst)) as [tx|e] eqn:Ex.
  - cbn [mbind result_bind Py.bind].
    rewrite (index_select_first_out_of_range t n s); [reflexivity|exact Hs|].
    apply List.Exists_exists in Hex as (tup & Hin & [Hx|Hy]).
    + exfalso. unfold index_select_first in Ex. rewrite Hs in Ex.
      destruct (forallb _ _) eqn:E; [|discriminate].
      rewrite forallb_forall in E.
      specialize (E tup.1.1 ltac:(apply in_map_iff; eauto)).
      apply Nat.ltb_lt in E. lia.
    + apply List.Exists_exists. exists tup.1.2. split; [|exact Hy].
      apply in_map_iff. eauto.
  - apply index_select_first_error in Ex. subst. reflexivity.
Qed.

(** A tuple whose entity index is not below the number of rows of
    [t_prob_c_batch] makes the forward pass raise [IndexError], before any
    score is computed: in [CodeLengthPredictionLoss] for the index of a
    tuple, in [HyponymyScoreLoss], [LowestCommonAncestorLengthPredictionLoss]
    and [EntailmentProbabilityLoss] for the hypernym or the hyponym index. *)
Theorem forward_index_out_of_range (self : loss) (t : tensor) (n : nat) (s : list nat) :
  shape t = n :: s ->
  (forall lst, Exists (fun tup => (n <= fst tup)%nat) lst ->
     CodeLengthPredictionLoss.forward self t lst = Raise IndexError) /\
  (forall lst, Exists (fun tup => (n <= tup.1.1)%nat \/ (n <= tup.1.2)%nat) lst ->
     HyponymyScoreLoss.forward self t lst = Raise IndexError /\
     LowestCommonAncestorLengthPredictionLoss.forward self t lst = Raise IndexError /\
     EntailmentProbabilityLoss.forward self t lst = Raise IndexError).
Proof.
  intros Hs. split.
  - intros lst Hex. unfold CodeLengthPredictionLoss.forward.
    rewrite (index_select_first_out_of_range t n s); [reflexivity|exact Hs|].
    apply List.Exists_exists in Hex as (tup & Hin & Hi).
    apply List.Exists_exists. exists (fst tup). split; [|exact Hi].
    apply in_map_iff. eauto.
  - intros lst Hex. split; [|split].
    + unfold HyponymyScoreLoss.forward. cbv zeta.
      apply (pair_out_of_range _ n s lst); [exact Hs|exact Hex].
    + unfold LowestCommonAncestorLengthPredictionLoss.forward. cbv zeta.
      apply (pair_out_of_range _ n s lst); [exact Hs|exact Hex].
    + unfold EntailmentProbabilityLoss.forward. cbv zeta.
      apply (pair_out_of_range _ n s lst); [exact Hs|exact Hex].
Qed.

(** ** When the batch size balancer returns *)

Lemma py_div_ok (x y : Q) : ~ (y == 0)%Q -> py_div x y = Ok (x / y)%Q.
Proof.
  intros H. unfold py_div. destruct (Qeq_bool y 0) eqn:E; [|reflexivity].
  apply Qeq_bool_iff in E. contradiction.
Qed.



Lemma inject_Z_nonzero (z : Z) : z <> 0%Z -> ~ (inject_Z z == 0)%Q.
Proof. intros H E. apply H. unfold Qeq in E. simpl in E. lia. Qed.

Lemma inject_Z_of_nat_nonneg (n : nat) : (0 <= inject_Z (Z.of_nat n))%Q.
Proof. unfold Qle. simpl. lia. Qed.



(** ** Slices and chunks *)

Lemma py_slice_nonneg {A : Type} (l : list A) (a b : Z) :
  (0 <= a <= b)%Z ->
  py_slice l a b = firstn (Z.to_nat (b - a)) (skipn (Z.to_nat a) l).
Proof.
  intros [Ha Hb]. unfold py_slice. cbv zeta.
  destruct (Z.ltb_spec a 0); [lia|]. destruct (Z.ltb_spec b 0); [lia|].
  destruct (Z_lt_le_dec a (Z.of_nat (length l))) as [Hlt|Hge].
  - rewrite (Z.min_l a) by lia.
    destruct (Z_le_gt_dec b (Z.of_nat (length l))) as [Hle|Hgt].
    + now rewrite (Z.min_l b) by lia.
    + rewrite (Z.min_r b) by lia.
      rewrite !take_ge; [reflexivity| |]; rewrite length_drop; lia.
  - rewrite (Z.min_r a), (drop_ge l (Z.to_nat a)) by lia.
    rewrite Nat2Z.id, drop_all. now rewrite !take_nil.
Qed.



(** The number of chunks that [__len__] counts. *)
Lemma len_bounds {dataloader : Type}
    (self : WordEmbeddingsAndHyponymyDataset_object dataloader) :
  (0 < _hyponymy_batch_size self)%Z ->
  exists n, Sampler.__len__ self = Ok n /\ (0 <= n)%Z /\
    (_hyponymy_batch_size self * (n - 1)
     < Z.of_nat (length (ds_records (_hyponymy_dataset self)))
     <= _hyponymy_batch_size self * n)%Z.
Proof.
  intros HB. unfold Sampler.__len__.
  set (L := Z.of_nat (length (ds_records (_hyponymy_dataset self)))).
  set (B := _hyponymy_batch_size self) in *.
  rewrite py_div_ok by (apply inject_Z_nonzero; lia).
  cbn [mbind result_bind Py.bind]. eexists. split; [reflexivity|].
  set (q := (inject_Z L / inject_Z B)%Q).
  assert (0 < inject_Z B)%Q as PB by (unfold Qlt; simpl; lia).
  assert (0 <= inject_Z L)%Q as PL by (unfold Qle; simpl; lia).
  assert (q * inject_Z B == inject_Z L)%Q as Eq by (unfold q; field; lra).
  assert (0 <= q)%Q as Pq by (unfold q; apply Qle_shift_div_l; [exact PB|lra]).
  pose proof (Qle_ceiling q) as Hc. pose proof (Qceiling_lt q) as Hl.
  split; [|split].
  - rewrite <- (Qceiling_Z 0). now apply Qceiling_resp_le.
  - rewrite Zlt_Qlt, inject_Z_mult. nra.
  - rewrite Zle_Qle, inject_Z_mult. nra.
Qed.

Lemma chunk_at_past_end {dataloader : Type}
    (self : WordEmbeddingsAndHyponymyDataset_object dataloader) (n idx : Z) :
  (0 < _hyponymy_batch_size self)%Z -> Sampler.__len__ self = Ok n -> (n <= idx)%Z ->
  chunk_at self idx = [].
Proof.
  intros HB Hn Hi. destruct (len_bounds self HB) as (n' & Hn' & H0 & _ & Hu).
  assert (n' = n) as -> by congruence.
  unfold chunk_at. rewrite py_slice_nonneg by nia.
  rewrite drop_ge by nia. apply take_nil.
Qed.


(** ** [__getitem__] *)

Section GetItem.

Context {rng dataloader : Type} (E : environment rng dataloader).

Lemma base_getitem_step (fuel : nat) (self : WordEmbeddingsAndHyponymyDataset_object dataloader)
    (idx : Z) (g : rng) :
  Sampler.__getitem__ E (S fuel) self idx g
  = match Sampler.encodable_samples self (chunk_at self idx) with
    | [] => Sampler.__getitem__ E fuel self (idx + 1)%Z g
    | batch_hyponymy => Some (Sampler._create_batch_from_hyponymy_samples E self batch_hyponymy g)
    end.
Proof. reflexivity. Qed.

Lemma sub_getitem_step (fuel : nat) (self : WithNonHyponymyRelation_object dataloader)
    (idx : Z) (g : rng) :
  NegSampler.__getitem__ E (S fuel) self idx g
  = match Sampler.encodable_samples (super self) (chunk_at (super self) idx) with
    | [] => NegSampler.__getitem__ E fuel self (idx + 1)%Z g
    | batch_hyponymy => Some (NegSampler.batch_of_chunk E self batch_hyponymy g)
    end.
Proof. reflexivity. Qed.

(** [__getitem__(idx)] of either class goes through the chunks from [idx]
    on, one in each round of its loop, and returns what it builds from the
    first chunk that has an encodable record: as [__getitem__(idx + k)] does
    when the [k] chunks before have none, after [k] more rounds. *)
Theorem getitem_skips_to_encodable_chunk
    (self : WithNonHyponymyRelation_object dataloader) (idx : Z) (k : nat)
    (h : hyponymy) (bh : list hyponymy) :
  (forall j, (j < k)%nat ->
     Sampler.encodable_samples (super self) (chunk_at (super self) (idx + Z.of_nat j)) = []) ->
  Sampler.encodable_samples (super self) (chunk_at (super self) (idx + Z.of_nat k)) = h :: bh ->
  forall fuel g,
    Sampler.__getitem__ E fuel (super self) idx g
    = (if (fuel <=? k)%nat then None
       else Some (Sampler._create_batch_from_hyponymy_samples E (super self) (h :: bh) g)) /\
    NegSampler.__getitem__ E fuel self idx g
    = (if (fuel <=? k)%nat then None
       else Some (NegSampler.batch_of_chunk E self (h :: bh) g)).
Proof.
  revert idx. induction k as [|k IH]; intros idx Hskip Hhit fuel g.
  - rewrite Z.add_0_r in Hhit. destruct fuel as [|fuel]; [split; reflexivity|].
    rewrite base_getitem_step, sub_getitem_step, Hhit. split; reflexivity.
  - destruct fuel as [|fuel]; [split; reflexivity|].
    rewrite base_getitem_step, sub_getitem_step.
    pose proof (Hskip 0%nat ltac:(lia)) as H0. rewrite Z.add_0_r in H0. rewrite H0.
    change (S fuel <=? S k)%nat with (fuel <=? k)%nat.
    apply IH.
    + intros j Hj. replace (idx + 1 + Z.of_nat j)%Z with (idx + Z.of_nat (S j))%Z by lia.
      apply Hskip. lia.
    + replace (idx + 1 + Z.of_nat k)%Z with (idx + Z.of_nat (S k))%Z by lia. exact Hhit.
Qed.

(** [__getitem__] of either class has no bound check: for an index from
    [len(self)] on, every chunk it reads is empty and its loop never ends. *)
Theorem getitem_past_the_end
    (self : WithNonHyponymyRelation_object dataloader) (n idx : Z) :
  (0 < _hyponymy_batch_size (super self))%Z ->
  Sampler.__len__ (super self) = Ok n -> (n <= idx)%Z ->
  forall fuel g,
    Sampler.__getitem__ E fuel (super self) idx g = None /\
    NegSampler.__getitem__ E fuel self idx g = None.
Proof.
  intros HB Hn Hi fuel. revert idx Hi.
  induction fuel as [|fuel IH]; intros idx Hi g; [split; reflexivity|].
  rewrite base_getitem_step, sub_getitem_step.
  rewrite (chunk_at_past_end (super self) n idx HB Hn Hi). cbn [Sampler.encodable_samples List.filter].
  apply IH. lia.
Qed.

End GetItem.

(** ** Relation triples and raw records *)

Lemma Forall2_combine_flip {A B : Type} (R : A -> B -> Prop) (l : list A) (l' : list B) :
  Forall2 R l l' -> Forall (fun p => R p.2 p.1) (combine l' l).
Proof. induction 1; simpl; constructor; assumption. Qed.

Lemma Forall_map_snd_fst {A B : Type} (R : A -> B -> Prop) (F : list (B * A)) :
  Forall (fun p => R p.2 p.1) F -> Forall2 R (map snd F) (map fst F).
Proof. induction 1; simpl; constructor; assumption. Qed.

Lemma Forall_filter_list {A : Type} (P : A -> Prop) (f : A -> bool) (l : list A) :
  Forall P l -> Forall P (List.filter f l).
Proof.
  intros H. apply List.Forall_forall. intros x Hx. apply filter_In in Hx as [Hx _].
  revert x Hx. now apply List.Forall_forall.
Qed.

Section CreateFields.

Context {rng dataloader : Type} (E : environment rng dataloader).

(** The fields of a batch that [create_batch_inv] leaves out. *)
Lemma create_batch_fields (self : WordEmbeddingsAndHyponymyDataset_object dataloader)
    (bh : list hyponymy) (g g' : rng) (b : batch) :
  Sampler._create_batch_from_hyponymy_samples E self bh g = Ok (b, g') ->
  exists fillers : list string,
    entity b = list_of_set E (tokens_of bh ∪ list_to_set fillers) /\
    entity_sampled b = (if _verbose self then Some fillers else None) /\
    non_hyponymy_relation b = None /\
    non_hyponymy_relation_raw b = None /\
    let n_diff := (_embedding_batch_size self - Z.of_nat (size (tokens_of bh)))%Z in
    if (0 <? n_diff)%Z then
      (Z.to_nat n_diff <= _n_embeddings self)%nat /\
      traverse (index_to_entity (_word_embeddings_dataset self))
               (draw_choice E g (_n_embeddings self) (Z.to_nat n_diff)).1 = Ok fillers
    else fillers = [].
Proof.
  unfold Sampler._create_batch_from_hyponymy_samples. intros H.
  apply bind_inv in H as ([[X fillers] g1] & H1 & H).
  apply bind_inv in H as (rows & Hrows & H).
  apply bind_inv in H as (mat & Hmat & H).
  apply bind_inv in H as (rels & Hrels & H).
  simplify_eq. exists fillers.
  cbn [entity entity_sampled non_hyponymy_relation non_hyponymy_relation_raw].
  cbv zeta. destruct (0 <? _ - _)%Z.
  - apply bind_inv in H1 as ([idxs g2] & Hc & H1).
    apply bind_inv in H1 as (lst & Hl & H1). simplify_eq.
    unfold Sampler.np_random_choice in Hc.
    destruct (Nat.ltb_spec (_n_embeddings self)
                (Z.to_nat (_embedding_batch_size self - Z.of_nat (size (tokens_of bh)))));
      [discriminate|].
    simplify_eq. repeat (split; [reflexivity|]). split; [assumption|].
    destruct (draw_choice E g _ _); simplify_eq. exact Hl.
  - simplify_eq. rewrite list_to_set_nil, union_empty_r_L. repeat split.
Qed.

End CreateFields.

Section Decode.

Context {rng dataloader : Type} (E : environment rng dataloader).

(** In every batch that the sampler emits, the relation triples and the raw
    records are aligned, and each triple decodes to its record: its two
    indices are the positions of the hypernym and of the hyponym of the
    record in the entity sequence, and its distance is the one of the
    record. After the split this holds of the hyponymy and of the
    non-hyponymy lists. *)
Theorem emitted_relations_decode (b : batch) :
  emitted E b ->
  Forall2 (decodes b) (hyponymy_relation_raw b) (hyponymy_relation b) /\
  match non_hyponymy_relation b, non_hyponymy_relation_raw b with
  | Some non, Some non_raw => Forall2 (decodes b) non_raw non
  | None, None => True
  | _, _ => False
  end.
Proof.
  intros H. apply emitted_made_from in H as (b0 & ((self & bh & g & g' & Hc) & Hb)).
  pose proof (create_batch_fields E self bh g g' b0 Hc) as (_ & _ & _ & Hnon & Hnr & _).
  apply create_batch_inv in Hc as (X & fillers & _ & Hraw & _ & Hr & _).
  assert (Forall2 (decodes b0) (hyponymy_relation_raw b0) (hyponymy_relation b0)) as H0
    by (rewrite Hraw; exact Hr).
  destruct Hb as [->| ->].
  - split; [exact H0|]. now rewrite Hnon, Hnr.
  - destruct (split_lists b0) as (H1 & H2 & H3 & H4). rewrite H1, H2, H3, H4.
    assert (forall h r,
               decodes (NegSampler._split_hyponymy_samples_and_non_hyponymy_samples b0) h r
               <-> decodes b0 h r) as Hd
      by (intros; unfold decodes; now rewrite split_entity).
    apply Forall2_combine_flip in H0.
    split; apply Forall_map_snd_fst, Forall_filter_list;
      (eapply List.Forall_impl; [|exact H0]); intros p Hp; now apply Hd.
Qed.

End Decode.

(** ** The entities of a batch *)

Lemma elem_of_foldl_tokens (bh : list hyponymy) (s : gset string) (tok : string) :
  tok ∈ foldl (fun (s : gset string) h => {[hypernym h]} ∪ ({[hyponym h]} ∪ s)) s bh
  <-> tok ∈ s \/ exists h, h ∈ bh /\ (tok = hyponym h \/ tok = hypernym h).
Proof.
  revert s. induction bh as [|h bh IH]; intros s; simpl.
  - split; [now left|]. intros [H|(h & Hh & _)]; [exact H|]. now apply elem_of_nil in Hh.
  - rewrite IH. split.
    + intros [H|(h' & Hh & Ht)].
      * apply elem_of_union in H as [H|H].
        -- apply elem_of_singleton in H. right. exists h. split; [left|now right].
        -- apply elem_of_union in H as [H|H]; [|now left].
           apply elem_of_singleton in H. right. exists h. split; [left|now left].
      * right. exists h'. split; [now right|exact Ht].
    + intros [H|(h' & Hh & Ht)].
      * left. set_solver.
      * apply elem_of_cons in Hh as [->|Hh].
        -- left. destruct Ht as [->| ->]; set_solver.
        -- right. eauto.
Qed.

Lemma elem_of_tokens_of (bh : list hyponymy) (tok : string) :
  tok ∈ tokens_of bh <-> exists h, h ∈ bh /\ (tok = hyponym h \/ tok = hypernym h).
Proof.
  unfold tokens_of. rewrite elem_of_foldl_tokens. split; [|now right].
  intros [H|H]; [|exact H]. now apply elem_of_empty in H.
Qed.

Lemma traverse_ok {A B : Type} (f : A -> result B) (l : list A) :
  (forall x, x ∈ l -> exists y, f x = Ok y) -> exists ys, traverse f l = Ok ys.
Proof.
  induction l as [|x l IH]; intros H; simpl; [now exists []|].
  destruct (H x ltac:(left)) as (y & Hy). rewrite Hy. simpl.
  destruct IH as (ys & Hys); [intros; apply H; now right|].
  rewrite Hys. simpl. eauto.
Qed.

Lemma traverse_elem {A B : Type} (f : A -> result B) (l : list A) (ys : list B) (y : B) :
  traverse f l = Ok ys -> y ∈ ys -> exists x, x ∈ l /\ f x = Ok y.
Proof.
  intros H. apply traverse_Forall2 in H. induction H as [|x y' l ys Hxy _ IH]; intros Hy.
  - now apply elem_of_nil in Hy.
  - apply elem_of_cons in Hy as [->|Hy].
    + exists x. split; [left|exact Hxy].
    + destruct (IH Hy) as (x' & Hx' & Hf). exists x'. split; [now right|exact Hf].
Qed.

Lemma foldl_enumerate_defined (l : list string) (m : gmap string nat) (k : nat)
    (tok : string) :
  is_Some (m !! tok) \/ tok ∈ l ->
  is_Some (foldl (fun (m : gmap string nat) (p : nat * string) => <[p.2 := p.1]> m) m
                 (combine (seq k (length l)) l) !! tok).
Proof.
  revert m k. induction l as [|x l IH]; intros m k H; simpl.
  - destruct H as [H|H]; [exact H|]. now apply elem_of_nil in H.
  - apply IH. destruct (decide (x = tok)) as [->|Hne].
    + left. rewrite lookup_insert_eq. eauto.
    + destruct H as [H|H].
      * left. now rewrite lookup_insert_ne.
      * apply elem_of_cons in H as [->|H]; [contradiction|now right].
Qed.

Lemma dict_get_defined (l : list string) (tok : string) :
  tok ∈ l -> exists i, dict_get (dict_of_enumerate l) tok = Ok i.
Proof.
  intros H. unfold dict_get, dict_of_enumerate, enumerate.
  destruct (foldl_enumerate_defined l ∅ 0 tok (or_intror H)) as [i Hi].
  rewrite Hi. eauto.
Qed.

Section Entities.

Context {rng dataloader : Type} (E : environment rng dataloader).
Hypothesis E_ok : environment_ok E.

(** The entity sequence of a batch lists the entities of its records and the
    fillers, and nothing else. The fillers are entities of the vocabulary, as
    many as the records leave of [embedding_batch_size] (none when the
    records have that many entities or more), and they are the value of
    ["entity_sampled"] when the sampler is verbose. *)
Theorem create_batch_entities (self : WordEmbeddingsAndHyponymyDataset_object dataloader)
    (bh : list hyponymy) (g g' : rng) (b : batch) :
  Sampler._create_batch_from_hyponymy_samples E self bh g = Ok (b, g') ->
  exists fillers : list string,
    (forall tok, tok ∈ entity b <->
       (exists h, h ∈ bh /\ (tok = hyponym h \/ tok = hypernym h)) \/ tok ∈ fillers) /\
    entity_sampled b = (if _verbose self then Some fillers else None) /\
    length fillers
    = Z.to_nat (_embedding_batch_size self - Z.of_nat (size (tokens_of bh))) /\
    (forall tok, tok ∈ fillers ->
       exists i, (i < _n_embeddings self)%nat /\
                 index_to_entity (_word_embeddings_dataset self) i = Ok tok).
Proof using E_ok.
  intros H. apply create_batch_fields in H as (fillers & He & Hs & _ & _ & Hf).
  exists fillers. split; [|split; [exact Hs|]].
  - intros tok. rewrite He, (list_of_set_elem E E_ok), elem_of_union,
      elem_of_tokens_of, elem_of_list_to_set. reflexivity.
  - cbv zeta in Hf.
    destruct (Z.ltb_spec 0 (_embedding_batch_size self - Z.of_nat (size (tokens_of bh)))).
    + destruct Hf as [Hn Ht]. split.
      * rewrite (traverse_length _ _ _ Ht). now apply (draw_choice_length E E_ok).
      * intros tok Htok. destruct (traverse_elem _ _ _ _ Ht Htok) as (i & Hi & Hx).
        exists i. split; [|exact Hx]. now apply (draw_choice_range E E_ok g _ _ i Hn).
    + subst fillers. split; [simpl; lia|]. intros tok Htok. now apply elem_of_nil in Htok.
Qed.

(** [_create_batch_from_hyponymy_samples] returns a batch when the
    vocabulary has enough entries for the fillers, every index below the
    vocabulary size has an entity, the entities of the vocabulary and of the
    records have embeddings of one dimension, and the batch is not empty. It
    raises [ValueError] when the vocabulary has fewer entries than the
    fillers to draw. *)
Theorem create_batch_returns (self : WordEmbeddingsAndHyponymyDataset_object dataloader)
    (bh : list hyponymy) (g : rng) (d : nat) :
  let source := _word_embeddings_dataset self in
  let n_diff := (_embedding_batch_size self - Z.of_nat (size (tokens_of bh)))%Z in
  (forall i, (i < _n_embeddings self)%nat ->
     exists tok row, index_to_entity source i = Ok tok /\
                     we_embedding source tok = Ok row /\ length row = d) ->
  (forall h, h ∈ bh ->
     (exists row, we_embedding source (hyponym h) = Ok row /\ length row = d) /\
     (exists row, we_embedding source (hypernym h) = Ok row /\ length row = d)) ->
  (bh <> [] \/ (0 < n_diff)%Z) ->
  ((0 < n_diff)%Z -> (_n_embeddings self < Z.to_nat n_diff)%nat ->
   Sampler._create_batch_from_hyponymy_samples E self bh g = Raise ValueError) /\
  ((Z.to_nat n_diff <= _n_embeddings self)%nat ->
   exists b g', Sampler._create_batch_from_hyponymy_samples E self bh g = Ok (b, g')).
Proof using E_ok.
  intros source n_diff Hvoc Hrec Hne.
  unfold Sampler._create_batch_from_hyponymy_samples. fold source. fold n_diff.
  split.
  - intros Hp Hs. destruct (Z.ltb_spec 0 n_diff); [|lia].
    unfold Sampler.np_random_choice.
    destruct (Nat.ltb_spec (_n_embeddings self) (Z.to_nat n_diff)); [reflexivity|lia].
  - intros Hs.
    assert (exists (X : gset string) (fillers : list string) (g1 : rng),
               (if (0 <? n_diff)%Z then
                  '(lst_index, g0) ← Sampler.np_random_choice E g (_n_embeddings self)
                                        (Z.to_nat n_diff);
                  lst ← traverse (index_to_entity source) lst_index;
                  Ok (tokens_of bh ∪ list_to_set lst, lst, g0)
                else Ok (tokens_of bh, [], g)) = Ok (X, fillers, g1) /\
               (forall tok, tok ∈ X ->
                  exists row, we_embedding source tok = Ok row /\ length row = d) /\
               (forall h, h ∈ bh -> hyponym h ∈ X /\ hypernym h ∈ X) /\
               (exists tok, tok ∈ X)) as (X & fillers & g1 & H1 & Hemb & Hsub & Hex).
    { assert (forall h, h ∈ bh -> hyponym h ∈ tokens_of bh /\ hypernym h ∈ tokens_of bh) as Ht
        by (intros h Hh; split; apply elem_of_tokens_of; eauto).
      assert (forall tok, tok ∈ tokens_of bh ->
                exists row, we_embedding source tok = Ok row /\ length row = d) as Hte.
      { intros tok Htok. apply elem_of_tokens_of in Htok as (h & Hh & [->| ->]);
          now apply Hrec. }
      destruct (Z.ltb_spec 0 n_diff) as [Hp|Hn].
      - unfold Sampler.np_random_choice.
        destruct (Nat.ltb_spec (_n_embeddings self) (Z.to_nat n_diff)); [lia|].
        cbn [mbind result_bind Py.bind].
        destruct (draw_choice E g (_n_embeddings self) (Z.to_nat n_diff)) as [idxs g0] eqn:Ed.
        assert (forall i, i ∈ idxs -> (i < _n_embeddings self)%nat) as Hr.
        { intros i Hi. apply (draw_choice_range E E_ok g _ (Z.to_nat n_diff) i Hs).
          now rewrite Ed. }
        destruct (traverse_ok (index_to_entity source) idxs) as (lst & Hl).
        { intros i Hi. destruct (Hvoc i (Hr i Hi)) as (tok & _ & Htok & _). eauto. }
        rewrite Hl. cbn [mbind result_bind Py.bind].
        exists (tokens_of bh ∪ list_to_set lst), lst, g0. split; [reflexivity|].
        split; [|split].
        + intros tok Htok. apply elem_of_union in Htok as [Htok|Htok]; [now apply Hte|].
          apply elem_of_list_to_set in Htok.
          destruct (traverse_elem _ _ _ _ Hl Htok) as (i & Hi & Hx).
          destruct (Hvoc i (Hr i Hi)) as (tok' & row & Htok' & Hrow & Hlen).
          assert (tok' = tok) as -> by congruence. eauto.
        + intros h Hh. destruct (Ht h Hh). split; apply elem_of_union; now left.
        + assert (length lst = Z.to_nat n_diff) as Hlen.
          { rewrite (traverse_length _ _ _ Hl).
            pose proof (draw_choice_length E E_ok g _ _ Hs) as Hd. now rewrite Ed in Hd. }
          destruct lst as [|tok lst]; [simpl in Hlen; lia|].
          exists tok. apply elem_of_union. right. apply elem_of_list_to_set. left.
      - exists (tokens_of bh), [], g. split; [reflexivity|]. split; [exact Hte|].
        split; [exact Ht|].
        destruct Hne as [Hne|Hne]; [|lia]. destruct bh as [|h bh]; [contradiction|].
        exists (hyponym h). apply Ht. left. }
    rewrite H1. cbn [mbind result_bind Py.bind].
    destruct (traverse_ok (we_embedding source) (list_of_set E X)) as (rows & Hrows).
    { intros tok Htok. apply (list_of_set_elem E E_ok) in Htok.
      destruct (Hemb tok Htok) as (row & Hrow & _). eauto. }
    rewrite Hrows. cbn [mbind result_bind Py.bind].
    assert (Forall (fun row => length row = d) rows) as Hd.
    { apply List.Forall_forall. intros row Hrow. apply list_elem_of_In in Hrow.
      destruct (traverse_elem _ _ _ _ Hrows Hrow) as (tok & Htok & Hx).
      apply (list_of_set_elem E E_ok) in Htok.
      destruct (Hemb tok Htok) as (row' & Hrow' & Hlen). congruence. }
    assert (np_stack rows = Ok rows) as Hstack.
    { destruct Hex as (tok & Htok). apply (list_of_set_elem E E_ok) in Htok.
      pose proof (traverse_length _ _ _ Hrows) as Hlen.
      destruct rows as [|r rest].
      - destruct (list_of_set E X); [now apply elem_of_nil in Htok|discriminate].
      - unfold np_stack. inversion Hd as [|? ? Hr Hrest]; subst.
        rewrite (proj2 (forallb_forall _ rest)); [reflexivity|].
        intros r' Hr'. apply Nat.eqb_eq.
        rewrite List.Forall_forall in Hrest. now apply Hrest. }
    rewrite Hstack. cbn [mbind result_bind Py.bind].
    destruct (traverse_ok
                (fun hyponymy =>
                   idx_hypo ← dict_get (dict_of_enumerate (list_of_set E X)) (hyponym hyponymy);
                   idx_hyper ← dict_get (dict_of_enumerate (list_of_set E X)) (hypernym hyponymy);
                   Ok (idx_hyper, idx_hypo, distance hyponymy)) bh) as (rels & Hrels).
    { intros h Hh. destruct (Hsub h Hh) as [Ho Hr].
      destruct (dict_get_defined (list_of_set E X) (hyponym h)) as (i & Hi);
        [now apply (list_of_set_elem E E_ok)|].
      destruct (dict_get_defined (list_of_set E X) (hypernym h)) as (j & Hj);
        [now apply (list_of_set_elem E E_ok)|].
      rewrite Hi, Hj. cbn [mbind result_bind Py.bind]. eauto. }
    rewrite Hrels. cbn [mbind result_bind Py.bind]. eauto.
Qed.

End Entities.

(** ** Negative sampling *)

Section Negatives.

Context {rng dataloader : Type} (E : environment rng dataloader).

Lemma assert_inv (c : bool) (u : unit) : assert c = Ok u -> c = true.
Proof. unfold assert. destruct c; [reflexivity|discriminate]. Qed.

Lemma base_init_inv (word_embeddings_dataset : word_embeddings_dataset)
    (hyponymy_dataset : hyponymy_dataset)
    (embedding_batch_size hyponymy_batch_size : Z) (verbose : bool)
    (self : WordEmbeddingsAndHyponymyDataset_object dataloader) (printed : option report) :
  Sampler.__init__ E word_embeddings_dataset hyponymy_dataset
    embedding_batch_size hyponymy_batch_size verbose = Ok (self, printed) ->
  (2 * hyponymy_batch_size <= embedding_batch_size)%Z /\
  exists loader,
    DataLoader E hyponymy_dataset hyponymy_batch_size = Ok loader /\
    self = {| _word_embeddings_dataset := word_embeddings_dataset;
              _hyponymy_dataset := hyponymy_dataset;
              _n_embeddings := we_len word_embeddings_dataset;
              _n_hyponymy := length (ds_records hyponymy_dataset);
              _embedding_batch_size := embedding_batch_size;
              _hyponymy_batch_size := hyponymy_batch_size;
              _hyponymy_dataloader := loader;
              _verbose := verbose |} /\
    (if verbose then exists r, Sampler.verify_batch_sizes self = Ok r /\ printed = Some r
     else printed = None).
Proof.
  unfold Sampler.__init__. intros H.
  apply bind_inv in H as ([] & Ha & H). apply assert_inv in Ha. apply Z.leb_le in Ha.
  apply bind_inv in H as (loader & Hl & H).
  split; [exact Ha|]. exists loader. split; [exact Hl|].
  destruct verbose.
  - apply bind_inv in H as (r & Hr & H). simplify_eq. split; [reflexivity|]. eauto.
  - simplify_eq. split; reflexivity.
Qed.

Lemma sub_init_inv (word_embeddings_dataset : word_embeddings_dataset)
    (hyponymy_dataset : hyponymy_dataset)
    (embedding_batch_size hyponymy_batch_size : Z)
    (non_hyponymy_batch_size : option Z)
    (non_hyponymy_relation_distance : option Q)
    (non_hyponymy_relation_target : string)
    (exclude_reverse limit_candidates split verbose : bool)
    (self : WithNonHyponymyRelation_object dataloader) (printed : option report) :
  NegSampler.__init__ E word_embeddings_dataset hyponymy_dataset
    embedding_batch_size hyponymy_batch_size non_hyponymy_batch_size
    non_hyponymy_relation_distance non_hyponymy_relation_target
    exclude_reverse limit_candidates split verbose = Ok (self, printed) ->
  exists base n taxonomy,
    Sampler.__init__ E word_embeddings_dataset hyponymy_dataset
      embedding_batch_size hyponymy_batch_size false = Ok (base, None) /\
    non_hyponymy_batch_size = Some n /\
    hyponymy_batch_size <> 0%Z /\ (n mod hyponymy_batch_size = 0)%Z /\
    (limit_candidates = false ->
     (2 * hyponymy_batch_size + n <= embedding_batch_size)%Z) /\
    In non_hyponymy_relation_target NegSampler.available_options /\
    (non_hyponymy_relation_target = "both" -> ((n / hyponymy_batch_size) mod 2 = 0)%Z) /\
    match ds_class hyponymy_dataset with
    | WordNetHyponymyDataset => taxonomy = WordNetTaxonomy
    | HyponymyDataset => taxonomy = BasicTaxonomy
    | OtherDataset => False
    end /\
    self = {| super :=
                {| _word_embeddings_dataset := _word_embeddings_dataset base;
                   _hyponymy_dataset := _hyponymy_dataset base;
                   _n_embeddings := _n_embeddings base;
                   _n_hyponymy := _n_hyponymy base;
                   _embedding_batch_size := _embedding_batch_size base;
                   _hyponymy_batch_size := _hyponymy_batch_size base;
                   _hyponymy_dataloader := _hyponymy_dataloader base;
                   _verbose := verbose |};
              _non_hyponymy_batch_size := n;
              _non_hyponymy_multiple := (n / hyponymy_batch_size)%Z;
              _non_hyponymy_relation_distance := non_hyponymy_relation_distance;
              _non_hyponymy_relation_target := non_hyponymy_relation_target;
              _exclude_reverse_hyponymy_from_non_hyponymy_relation := exclude_reverse;
              _limit_hyponym_candidates_within_minibatch := limit_candidates;
              _split_hyponymy_and_non_hyponymy := split;
              _taxonomy := Some taxonomy |} /\
    (verbose = false -> printed = None) /\
    (verbose = true -> exists r, printed = Some r).
Proof.
  unfold NegSampler.__init__. intros H.
  apply bind_inv in H as ([base pr] & Hbase & H).
  assert (pr = None) as ->.
  { apply base_init_inv in Hbase as (_ & loader & _ & _ & Hp). exact Hp. }
  apply bind_inv in H as (remainder & Hmod & H).
  apply bind_inv in H as ([] & Hrem & H). apply assert_inv in Hrem.
  unfold py_mod in Hmod. destruct non_hyponymy_batch_size as [n|]; [|discriminate].
  destruct (Z.eqb_spec hyponymy_batch_size 0) as [|Hne]; [discriminate|].
  simplify_eq. apply Z.eqb_eq in Hrem.
  apply bind_inv in H as ([] & Hlim & H).
  apply bind_inv in H as ([] & Htarget & H). apply assert_inv in Htarget.
  apply bind_inv in H as (multiple & Hmul & H).
  unfold py_floordiv in Hmul.
  destruct (Z.eqb_spec hyponymy_batch_size 0) as [|_]; [contradiction|]. simplify_eq.
  apply bind_inv in H as ([] & Hboth & H).
  apply bind_inv in H as (pr & Hpr & H).
  apply bind_inv in H as (taxonomy & Htax & H).
  cbn [super _non_hyponymy_batch_size _non_hyponymy_multiple
       _non_hyponymy_relation_distance _non_hyponymy_relation_target
       _exclude_reverse_hyponymy_from_non_hyponymy_relation
       _limit_hyponym_candidates_within_minibatch _split_hyponymy_and_non_hyponymy] in H.
  simplify_eq.
  exists base, n, taxonomy. split; [exact Hbase|]. split; [reflexivity|].
  split; [exact Hne|]. split; [exact Hrem|]. split; [|split; [|split; [|split; [|split]]]].
  - intros ->. simpl in Hlim. apply assert_inv in Hlim. now apply Z.leb_le.
  - apply existsb_exists in Htarget as (o & Ho & He). apply String.eqb_eq in He. now subst.
  - intros ->. simpl in Hboth. apply assert_inv in Hboth. now apply Z.eqb_eq.
  - destruct (ds_class hyponymy_dataset); simplify_eq; reflexivity.
  - reflexivity.
  - split.
    + intros ->. now simplify_eq.
    + intros ->. apply bind_inv in Hpr as (r & _ & Hpr). simplify_eq. eauto.
Qed.

(** With [non_hyponymy_relation_distance] set to [d], every record that
    [_create_non_hyponymy_samples_from_hyponymy_samples] returns has the
    distance [d], whatever the taxonomy sampled. *)
Theorem non_hyponymy_samples_distance (self : WithNonHyponymyRelation_object dataloader)
    (bh : list hyponymy) (size_per_sample : Z) (g g' : rng) (d : Q)
    (samples : list hyponymy) :
  _non_hyponymy_relation_distance self = Some d ->
  NegSampler._create_non_hyponymy_samples_from_hyponymy_samples E self bh size_per_sample g
  = Ok (samples, g') ->
  Forall (fun sample => distance sample = d) samples.
Proof.
  intros Hd. unfold NegSampler._create_non_hyponymy_samples_from_hyponymy_samples.
  generalize (if _limit_hyponym_candidates_within_minibatch self
              then Some (tokens_of bh) else None) as candidates.
  intros candidates. generalize bh at 1 as l.
  intros l. revert g samples. induction l as [|h l IH]; intros g samples H; simpl in H.
  - simplify_eq. constructor.
  - apply bind_inv in H as ([tups g1] & _ & H).
    apply bind_inv in H as ([later g2] & Hl & H). simplify_eq.
    apply Forall_app. split; [|now apply (IH g1)].
    apply List.Forall_forall. intros s Hs. apply in_map_iff in Hs as ([[a b] c] & <- & _).
    unfold NegSampler.non_hyponymy_sample. cbn [distance]. now rewrite Hd.
Qed.

End Negatives.

Section Construction.

Context {rng dataloader : Type} (E : environment rng dataloader).

(** What holds of a negative sampler that [__init__] has constructed: the
    sizes that its assertions compare, the stored number of negatives for
    each relation, which is exactly [non_hyponymy_batch_size] divided by
    [hyponymy_batch_size] (and even for the target ["both"], so that the two
    sides get half of it each), a recognised target, and a taxonomy. *)
Theorem negative_sampler_constructed
    (word_embeddings_dataset : word_embeddings_dataset)
    (hyponymy_dataset : hyponymy_dataset)
    (embedding_batch_size hyponymy_batch_size : Z)
    (non_hyponymy_batch_size : option Z)
    (non_hyponymy_relation_distance : option Q)
    (non_hyponymy_relation_target : string)
    (exclude_reverse limit_candidates split verbose : bool)
    (self : WithNonHyponymyRelation_object dataloader) (printed : option report) :
  NegSampler.__init__ E word_embeddings_dataset hyponymy_dataset
    embedding_batch_size hyponymy_batch_size non_hyponymy_batch_size
    non_hyponymy_relation_distance non_hyponymy_relation_target
    exclude_reverse limit_candidates split verbose = Ok (self, printed) ->
  _embedding_batch_size (super self) = embedding_batch_size /\
  _hyponymy_batch_size (super self) = hyponymy_batch_size /\
  hyponymy_batch_size <> 0%Z /\
  (2 * hyponymy_batch_size <= embedding_batch_size)%Z /\
  non_hyponymy_batch_size = Some (_non_hyponymy_batch_size self) /\
  (_non_hyponymy_batch_size self = _non_hyponymy_multiple self * hyponymy_batch_size)%Z /\
  (limit_candidates = false ->
   (2 * hyponymy_batch_size + _non_hyponymy_batch_size self <= embedding_batch_size)%Z) /\
  In (_non_hyponymy_relation_target self) ["hyponym"; "hypernym"; "both"] /\
  (_non_hyponymy_relation_target self = "both" ->
   (2 * (_non_hyponymy_multiple self / 2) = _non_hyponymy_multiple self)%Z) /\
  (_taxonomy self = Some BasicTaxonomy \/ _taxonomy self = Some WordNetTaxonomy) /\
  _verbose (super self) = verbose /\
  (printed = None <-> verbose = false).
Proof.
  intros H.
  apply sub_init_inv in H
    as (base & n & taxonomy & Hbase & -> & Hne & Hmod & Hlim & Htarget & Hboth & Htax & -> & Hp0 & Hp1).
  apply base_init_inv in Hbase as (Hle & loader & _ & -> & _).
  cbn [super _embedding_batch_size _hyponymy_batch_size _non_hyponymy_batch_size
       _non_hyponymy_multiple _non_hyponymy_relation_target _taxonomy _verbose].
  repeat (split; [first [reflexivity|assumption]|]).
  split.
  { rewrite Z.mul_comm. now apply Z.div_exact. }
  split; [exact Hlim|]. split; [exact Htarget|]. split.
  { intros Hb. symmetry. apply Z.div_exact; [lia|]. now apply Hboth. }
  split.
  { destruct (ds_class hyponymy_dataset); subst; [now right|now left|contradiction]. }
  split; [reflexivity|].
  destruct verbose.
  - destruct (Hp1 eq_refl) as (r & ->). split; discriminate.
  - rewrite (Hp0 eq_refl). split; reflexivity.
Qed.

(** ** [__iter__] of the base class *)

(** [__iter__] of the base class yields one batch for each chunk of the
    loader that has an encodable record, in the order of the loader, and the
    raw records of the batch are the encodable records of the chunk; a chunk
    without one is skipped. An exception ends the iteration after the
    batches yielded so far. *)
Theorem iter_yields_encodable_chunks
    (self : WordEmbeddingsAndHyponymyDataset_object dataloader) (g : rng) :
  let chunks := (iterate E (_hyponymy_dataloader self) g).1 in
  let expected := List.filter nonempty (map (Sampler.encodable_samples self) chunks) in
  let raw := map hyponymy_relation_raw (yielded (Sampler.__iter__ E self g)) in
  raw `prefix_of` expected /\
  (forall g', finished (Sampler.__iter__ E self g) = Ok g' -> raw = expected).
Proof.
  cbv zeta. unfold Sampler.__iter__.
  destruct (iterate E (_hyponymy_dataloader self) g) as [chunks g1]. cbn [fst].
  revert g1. induction chunks as [|c chunks IH]; intros g1; cbn [Sampler.iter_chunks map].
  - split; [reflexivity|]. intros; reflexivity.
  - destruct (Sampler.encodable_samples self c) as [|h bh] eqn:Ec; cbn [List.filter nonempty].
    + apply IH.
    + destruct (Sampler._create_batch_from_hyponymy_samples E self (h :: bh) g1)
        as [[b g2]|e] eqn:Hc; cbn [yielded finished map].
      * apply create_batch_inv in Hc as (_ & _ & _ & Hraw & _). rewrite Hraw.
        destruct (IH g2) as [Hpre Hfin]. split.
        -- now apply prefix_cons.
        -- intros g' Hg'. f_equal. now apply (Hfin g').
      * split; [apply prefix_nil|]. intros; discriminate.
Qed.

End Construction.

(** ** The dictionary filter *)

Lemma includes_excludes_loop (sample : Filter.sample) (items : Filter.fields) :
  Filter.excludes_loop sample items
  = (b ← Filter.includes_loop sample items; Ok (negb b)).
Proof.
  induction items as [|[f vs] items IH]; simpl; [reflexivity|].
  destruct (Filter.getitem sample f) as [v|e]; simpl; [|reflexivity].
  destruct (bool_decide (v ∈ vs)); [reflexivity|exact IH].
Qed.

(** A filter is constructed with exactly one of [includes] and [excludes],
    and the filter that excludes a dict is the complement of the one that
    includes it: on every sample, the one returns [True] where the other
    returns [False], and both raise [KeyError] on the same samples. *)
Theorem filter_excludes_is_complement (items : Filter.fields) (sample : Filter.sample) :
  Filter.__init__ None None = Raise AssertionError /\
  Filter.__init__ (Some items) (Some items) = Raise AssertionError /\
  exists including excluding,
    Filter.__init__ (Some items) None = Ok including /\
    Filter.__init__ None (Some items) = Ok excluding /\
    Filter.__call__ excluding sample
    = (r ← Filter.__call__ including sample; Ok (option_map negb r)).
Proof.
  split; [reflexivity|]. split; [reflexivity|].
  eexists _, _. split; [reflexivity|]. split; [reflexivity|].
  unfold Filter.__call__. cbn [Filter._includes Filter._excludes].
  rewrite includes_excludes_loop.
  destruct (Filter.includes_loop sample items); reflexivity.
Qed.

Lemma includes_loop_true (sample : Filter.sample) (items : Filter.fields) :
  Filter.includes_loop sample items = Ok true -> field_matches sample items.
Proof.
  induction items as [|[f vs] items IH]; simpl; [discriminate|].
  unfold Filter.getitem. destruct (sample !! f) as [v|] eqn:Ef; simpl; [|discriminate].
  destruct (bool_decide_reflect (v ∈ vs)) as [Hv|Hv].
  - intros _. exists f, vs, v. split; [now left|]. split; assumption.
  - intros H. destruct (IH H) as (f' & vs' & v' & Hin & Hs & Hv').
    exists f', vs', v'. split; [now right|]. split; assumption.
Qed.

Lemma includes_loop_false (sample : Filter.sample) (items : Filter.fields) :
  Filter.includes_loop sample items = Ok false -> ~ field_matches sample items.
Proof.
  induction items as [|[f vs] items IH]; simpl.
  - intros _ (f & vs & v & [] & _).
  - unfold Filter.getitem. destruct (sample !! f) as [v|] eqn:Ef; simpl; [|discriminate].
    destruct (bool_decide_reflect (v ∈ vs)) as [Hv|Hv]; [discriminate|].
    intros H (f' & vs' & v' & [Heq|Hin] & Hs & Hv').
    + simplify_eq. contradiction.
    + apply (IH H). exists f', vs', v'. split; [exact Hin|]. split; assumption.
Qed.

Lemma includes_loop_total (sample : Filter.sample) (items : Filter.fields) :
  (forall field_name values, In (field_name, values) items -> is_Some (sample !! field_name)) ->
  exists b, Filter.includes_loop sample items = Ok b.
Proof.
  induction items as [|[f vs] items IH]; intros H; simpl; [eauto|].
  destruct (H f vs ltac:(now left)) as [v Hv]. unfold Filter.getitem. rewrite Hv. simpl.
  destruct (bool_decide (v ∈ vs)); [eauto|]. apply IH. intros; eapply H; right; eassumption.
Qed.

(** What a filter answers. A filter with [includes] returns [True] exactly
    when the value of the sample at some field of the dict is in the set of
    the field, and a filter with [excludes] exactly when there is no such
    field; both answer every sample that has all the fields of the dict, and
    a sample without the first field of the dict raises [KeyError], whatever
    its other fields hold. *)
Theorem filter_call (items : Filter.fields) (sample : Filter.sample) :
  let including := {| Filter._includes := Some items; Filter._excludes := None |} in
  let excluding := {| Filter._includes := None; Filter._excludes := Some items |} in
  (Filter.__call__ including sample = Ok (Some true) -> field_matches sample items) /\
  (Filter.__call__ including sample = Ok (Some false) -> ~ field_matches sample items) /\
  (Filter.__call__ excluding sample = Ok (Some true) -> ~ field_matches sample items) /\
  (Filter.__call__ excluding sample = Ok (Some false) -> field_matches sample items) /\
  ((forall field_name values, In (field_name, values) items ->
      is_Some (sample !! field_name)) ->
   exists b, Filter.__call__ including sample = Ok (Some b) /\
             Filter.__call__ excluding sample = Ok (Some (negb b))) /\
  (forall field_name values rest,
      items = (field_name, values) :: rest -> sample !! field_name = None ->
      Filter.__call__ including sample = Raise KeyError /\
      Filter.__call__ excluding sample = Raise KeyError).
Proof.
  cbv zeta. unfold Filter.__call__. cbn [Filter._includes Filter._excludes].
  rewrite includes_excludes_loop.
  split; [|split; [|split; [|split; [|split]]]].
  - intros H. apply includes_loop_true.
    destruct (Filter.includes_loop sample items) as [[|]|e]; simpl in H; congruence.
  - intros H. apply includes_loop_false.
    destruct (Filter.includes_loop sample items) as [[|]|e]; simpl in H; congruence.
  - intros H. apply includes_loop_false.
    destruct (Filter.includes_loop sample items) as [[|]|e]; simpl in H; congruence.
  - intros H. apply includes_loop_true.
    destruct (Filter.includes_loop sample items) as [[|]|e]; simpl in H; congruence.
  - intros H. destruct (includes_loop_total sample items H) as (b & ->).
    exists b. split; reflexivity.
  - intros f vs rest -> Hs. simpl. unfold Filter.getitem. rewrite Hs. split; reflexivity.
Qed.

(** ** The embedding matrix of a batch *)

Section Embeddings.

Context {rng dataloader : Type} (E : environment rng dataloader).

(** The embedding matrix of a batch has one row for each entity, in the
    order of the entity sequence: row [i] is the embedding that the source
    gives for entity [i]. The matrix is not empty and its rows have one
    length. *)
Theorem create_batch_embeddings (self : WordEmbeddingsAndHyponymyDataset_object dataloader)
    (bh : list hyponymy) (g g' : rng) (b : batch) :
  Sampler._create_batch_from_hyponymy_samples E self bh g = Ok (b, g') ->
  Forall2 (fun tok row => we_embedding (_word_embeddings_dataset self) tok = Ok row)
          (entity b) (embedding b) /\
  embedding b <> [] /\
  exists d, Forall (fun row => length row = d) (embedding b).
Proof.
  unfold Sampler._create_batch_from_hyponymy_samples. intros H.
  apply bind_inv in H as ([[X fillers] g1] & _ & H).
  apply bind_inv in H as (rows & Hrows & H).
  apply bind_inv in H as (mat & Hmat & H).
  apply bind_inv in H as (rels & _ & H).
  simplify_eq. cbn [entity embedding].
  unfold np_stack in Hmat. destruct rows as [|r rest]; [discriminate|].
  destruct (forallb _ rest) eqn:Hall; [|discriminate]. simplify_eq.
  split; [now apply traverse_Forall2|]. split; [discriminate|].
  exists (length r). constructor; [reflexivity|].
  apply List.Forall_forall. intros r' Hr'. rewrite forallb_forall in Hall.
  apply Nat.eqb_eq. now apply Hall.
Qed.

End Embeddings.

(** ** The hinge distance *)

Section Hinge.

Local Open Scope Q_scope.

Lemma all_indices_valid (s idx : list nat) :
  In idx (all_indices s) -> valid_index idx s.
Proof.
  revert idx. induction s as [|n s IH]; intros idx H; simpl in H.
  - destruct H as [<-|[]]. constructor.
  - apply in_flat_map in H as (i & Hi & H). apply in_map_iff in H as (idx' & <- & H).
    apply in_seq in Hi. constructor; [lia|now apply IH].
Qed.

Lemma qsum_nonneg (l : list Q) : Forall (fun x => 0 <= x) l -> 0 <= qsum l.
Proof.
  induction 1 as [|x l Hx _ IH]; [unfold qsum; simpl; lra|].
  rewrite qsum_cons. lra.
Qed.

Lemma qsum_zero (l : list Q) : Forall (fun x => x == 0) l -> qsum l == 0.
Proof.
  induction 1 as [|x l Hx _ IH]; [reflexivity|].
  rewrite qsum_cons, Hx, IH. ring.
Qed.

Lemma relu_data (d : tensor) :
  Forall (fun x => 0 <= x) (data (relu d)).
Proof.
  unfold relu, tmap. cbn [data]. apply List.Forall_forall. intros x Hx.
  apply in_map_iff in Hx as (y & <- & _). destruct (Qlt_le_dec y 0); lra.
Qed.

End Hinge.

(** The hinge distance costs over-prediction only. With the reduction
    ["sum"] or ["mean"] it is never negative, and it is 0 when no entry of
    the prediction exceeds the entry of the truth; a reduction other than
    ["mean"], ["sum"] and ["none"] raises [NotImplementedError]. *)
Theorem hinge_distance_one_sided (y_pred y_true : tensor) :
  shape y_pred = shape y_true ->
  (forall loss, _hinge_distance "sum" y_pred y_true = Ok loss -> (0 <= get loss [])%Q) /\
  (forall loss, _hinge_distance "mean" y_pred y_true = Ok loss -> (0 <= get loss [])%Q) /\
  ((forall idx, valid_index idx (shape y_pred) -> (get y_pred idx <= get y_true idx)%Q) ->
   exists loss, _hinge_distance "sum" y_pred y_true = Ok loss /\ (get loss [] == 0)%Q) /\
  (forall reduction,
      reduction <> "mean" -> reduction <> "sum" -> reduction <> "none" ->
      _hinge_distance reduction y_pred y_true = Raise NotImplementedError).
Proof.
  intros Hs. unfold _hinge_distance.
  destruct (binop_same_shape Qminus y_pred y_true Hs) as (d & Hd & Sd & Wd & Gd).
  unfold sub. rewrite Hd. cbn [mbind result_bind Py.bind].
  split; [|split; [|split]].
  - intros loss H. simpl in H. simplify_eq. unfold sum_all, scalar, get. simpl.
    apply qsum_nonneg, relu_data.
  - intros loss H. simpl in H. unfold mean_all in H.
    pose proof (qsum_nonneg _ (relu_data d)) as P.
    destruct (data (relu d)) as [|x l] eqn:El; [discriminate|]. simplify_eq.
    unfold scalar, get. simpl.
    assert (0 < inject_Z (Z.of_nat (length (x :: l))))%Q
      by (unfold Qlt; simpl; lia).
    apply Qle_shift_div_l; [assumption|]. simpl in *. lra.
  - intros Hle. simpl. eexists. split; [reflexivity|].
    unfold sum_all, scalar, get. simpl. apply qsum_zero.
    unfold binop in Hd. rewrite <- Hs, bshape_same in Hd. simplify_eq.
    unfold tabulate. cbn [data]. rewrite map_map.
    apply List.Forall_forall. intros x Hx. apply in_map_iff in Hx as (idx & <- & Hidx).
    apply all_indices_valid in Hidx.
    rewrite !bget_valid by (first [exact Hidx|rewrite <- Hs; exact Hidx]).
    pose proof (Hle idx Hidx).
    destruct (Qlt_le_dec (get y_pred idx - get y_true idx) 0); [reflexivity|].
    apply Qle_antisym; lra.
  - intros reduction H1 H2 H3.
    destruct (String.eqb_spec reduction "mean"); [contradiction|].
    destruct (String.eqb_spec reduction "sum"); [contradiction|].
    destruct (String.eqb_spec reduction "none"); [contradiction|]. reflexivity.
Qed.

(** ** Instances of the properties of the code *)

Lemma hypernyms_is_distribution : code_distribution Examples.hypernyms 2 2 2.
Proof.
  split; [reflexivity|]. intros b n Hb Hn.
  assert (b = 0%nat \/ b = 1%nat) as [-> | ->] by lia;
    (assert (n = 0%nat \/ n = 1%nat) as [-> | ->] by lia);
    (split; [|vm_compute; reflexivity]);
    intros a Ha; (assert (a = 0%nat \/ a = 1%nat) as [-> | ->] by lia);
    vm_compute; discriminate.
Qed.

(** Two intensities of one half give the stopping probabilities 1/2, 1/4
    and 1/4. *)
Lemma intensity_to_probability_distribution_witness :
  exists pr, _intensity_to_probability Examples.half_intensities = Ok pr /\
    shape pr = [3%nat] /\
    (qsum (map (fun k => get pr [k]) (seq 0 3)) == 1)%Q /\
    (0 <= get pr [2%nat] <= 1)%Q.
Proof.
  destruct (intensity_to_probability_distribution Examples.half_intensities [] 2 eq_refl)
    as (pr & Hpr & Spr & Hrow).
  exists pr. split; [exact Hpr|]. split; [exact Spr|].
  destruct (Hrow [] ltac:(constructor)) as [Hsum Hin].
  split; [exact Hsum|].
  apply (Hin ltac:(intros j Hj; assert (j = 0%nat \/ j = 1%nat) as [-> | ->] by lia;
                   vm_compute; split; discriminate) 2%nat).
  lia.
Defined.

(** The first entity of [hypernyms] is an ancestor of the first entity of
    [two_entities] with a probability in [[0, 1]]. *)
Lemma calc_ancestor_probability_bounds_witness :
  exists alpha,
    calc_ancestor_probability Examples.hypernyms Examples.two_entities = Ok alpha /\
    (0 <= get alpha [0%nat] <= 1)%Q.
Proof.
  destruct (calc_ancestor_probability_bounds Examples.hypernyms Examples.two_entities 2 2 2
              hypernyms_is_distribution two_entities_is_distribution ltac:(lia) ltac:(lia))
    as (alpha & Ha & _ & Hb).
  exists alpha. split; [exact Ha|]. exact (proj1 (Hb 0%nat ltac:(lia))).
Defined.

(** The LCA length of the first pair of [hypernyms] and [two_entities] is at
    most the code length of the hypernym. *)
Lemma calc_soft_lowest_common_ancestor_length_bounds_witness :
  exists l_lca l_hyper,
    calc_soft_lowest_common_ancestor_length Examples.hypernyms Examples.two_entities
    = Ok l_lca /\
    calc_soft_code_length Examples.hypernyms = Ok l_hyper /\
    (get l_lca [0%nat] <= bget l_hyper [0%nat])%Q.
Proof.
  destruct (calc_soft_lowest_common_ancestor_length_bounds
              Examples.hypernyms Examples.two_entities 2 2 2
              hypernyms_is_distribution two_entities_is_distribution ltac:(lia) ltac:(lia))
    as (l & lx & ly & Hl & Hlx & _ & _ & Hb).
  exists l, lx. split; [exact Hl|]. split; [exact Hlx|].
  exact (proj1 (proj2 (Hb 0%nat ltac:(lia)))).
Defined.

(** The hyponymy score of the first pair of [hypernyms] and [two_entities]
    lies in [[-2, 2]]. *)
Lemma calc_soft_hyponymy_score_bounds_witness :
  exists score,
    calc_soft_hyponymy_score Examples.hypernyms Examples.two_entities = Ok score /\
    (- (2) <= get score [0%nat] <= 2)%Q.
Proof.
  destruct (calc_soft_hyponymy_score_bounds Examples.hypernyms Examples.two_entities 2 2 2
              hypernyms_is_distribution two_entities_is_distribution ltac:(lia) ltac:(lia))
    as (score & lx & ly & lca & Hs & _ & _ & _ & _ & Hb).
  exists score. split; [exact Hs|]. exact (proj2 (proj2 (Hb 0%nat ltac:(lia)))).
Defined.

Lemma calc_soft_lowest_common_ancestor_length_comm_witness :
  calc_soft_lowest_common_ancestor_length Examples.hypernyms Examples.two_entities
  = calc_soft_lowest_common_ancestor_length Examples.two_entities Examples.hypernyms.
Proof.
  exact (calc_soft_lowest_common_ancestor_length_comm
           Examples.hypernyms Examples.two_entities eq_refl).
Defined.

(** For [u = [2,2,2]] and [v = [1,1,1]], [sum(u*v) = 6] is below
    [sum(u**2) = 12], and the positive auto-scaled MSE is the MSE. *)
Lemma positive_auto_scaled_mse_is_mse_witness :
  _positive_auto_scaled_mse "mean" Examples.u222 Examples.v111
  = _mse "mean" Examples.u222 Examples.v111.
Proof.
  apply positive_auto_scaled_mse_is_mse.
  intros uv H. vm_compute in H. injection H as <-. vm_compute. discriminate.
Defined.


(** [two_entities] has two rows: the entity index 5 raises. *)
Lemma forward_index_out_of_range_witness :
  CodeLengthPredictionLoss.forward Examples.mse_object Examples.two_entities
    [(5%nat, 1%Q)] = Raise IndexError.
Proof.
  apply (proj1 (forward_index_out_of_range Examples.mse_object Examples.two_entities
                  2 [2; 2]%nat eq_refl)).
  constructor. simpl. lia.
Defined.

(** No entry of [[1,1,1]] exceeds the one of [[2,2,2]]: the hinge distance
    is 0. *)
Lemma hinge_distance_one_sided_witness :
  exists loss,
    _hinge_distance "sum" Examples.v111 Examples.u222 = Ok loss /\ (get loss [] == 0)%Q.
Proof.
  apply (proj1 (proj2 (proj2 (hinge_distance_one_sided Examples.v111 Examples.u222 eq_refl)))).
  intros idx H. inversion H as [|i n l l' Hi Hl]; subst. inversion Hl; subst.
  simpl in Hi. assert (i = 0 \/ i = 1 \/ i = 2)%nat as [->|[->| ->]] by lia;
    vm_compute; discriminate.
Defined.


(** Over the vocabulary [trees], the chunk 0 of the two animal records has
    no encodable record: [__getitem__(0)] returns in its second round what
    it builds from chunk 1. *)
Lemma getitem_skips_to_encodable_chunk_witness :
  Sampler.__getitem__ Examples.first_indices 2 (super Examples.forest_sampler) 0 tt
  = Some (Sampler._create_batch_from_hyponymy_samples Examples.first_indices
            (super Examples.forest_sampler) [Examples.oak_is_tree] tt) /\
  Sampler.__getitem__ Examples.first_indices 1 (super Examples.forest_sampler) 0 tt = None.
Proof.
  pose proof (getitem_skips_to_encodable_chunk Examples.first_indices
                Examples.forest_sampler 0 1 Examples.oak_is_tree []) as H.
  assert (forall j, (j < 1)%nat ->
            Sampler.encodable_samples (super Examples.forest_sampler)
              (chunk_at (super Examples.forest_sampler) (0 + Z.of_nat j)) = []) as H1.
  { intros j Hj. assert (j = 0%nat) as -> by lia. vm_compute. reflexivity. }
  assert (Sampler.encodable_samples (super Examples.forest_sampler)
            (chunk_at (super Examples.forest_sampler) (0 + Z.of_nat 1))
          = [Examples.oak_is_tree]) as H2 by (vm_compute; reflexivity).
  split.
  - exact (proj1 (H H1 H2 2%nat tt)).
  - exact (proj1 (H H1 H2 1%nat tt)).
Defined.

(** The negative sampler has two chunks: [__getitem__(2)] does not return
    in seven rounds. *)
Lemma getitem_past_the_end_witness :
  NegSampler.__getitem__ Examples.first_indices 7 Examples.negative_sampler 2 tt = None.
Proof.
  refine (proj2 (getitem_past_the_end Examples.first_indices Examples.negative_sampler
                   2 2 _ _ _ 7%nat tt)).
  - simpl. lia.
  - vm_compute. reflexivity.
  - lia.
Defined.

(** The first batch of the negative sampler: after the split, its two
    hyponymy triples decode to the two animal records. *)
Lemma emitted_relations_decode_witness :
  Forall2 (decodes Examples.first_negative_batch)
    [Examples.dog_is_animal; Examples.cat_is_animal]
    (hyponymy_relation Examples.first_negative_batch).
Proof.
  refine (proj1 (emitted_relations_decode Examples.first_indices
                   Examples.first_negative_batch _)).
  apply (emitted_getitem_non_hyponymy Examples.first_indices 1
           Examples.negative_sampler 0%Z tt tt).
  vm_compute. reflexivity.
Defined.

(** The batch of [dog_is_animal] over [tree_first] with [B_e = 3] has one
    filler. *)
Lemma create_batch_entities_witness :
  exists b fillers,
    Sampler._create_batch_from_hyponymy_samples Examples.first_indices
      (Examples.small_sampler Examples.tree_first) [Examples.dog_is_animal] tt = Ok (b, tt) /\
    length fillers = 1%nat /\
    (forall tok, tok ∈ entity b <->
       (exists h, h ∈ [Examples.dog_is_animal] /\ (tok = hyponym h \/ tok = hypernym h))
       \/ tok ∈ fillers).
Proof.
  destruct (Sampler._create_batch_from_hyponymy_samples Examples.first_indices
              (Examples.small_sampler Examples.tree_first) [Examples.dog_is_animal] tt)
    as [[b []]|e] eqn:H; [|exfalso; vm_compute in H; discriminate H].
  destruct (create_batch_entities Examples.first_indices first_indices_ok _ _ _ _ _ H)
    as (fillers & He & _ & Hl & _).
  exists b, fillers. split; [reflexivity|]. split; [|exact He].
  rewrite Hl. vm_compute. reflexivity.
Defined.

(** Over [tree_first] every entity has an embedding of dimension 1, and the
    batch of [dog_is_animal] is built. *)
Lemma create_batch_returns_witness :
  exists b g',
    Sampler._create_batch_from_hyponymy_samples Examples.first_indices
      (Examples.small_sampler Examples.tree_first) [Examples.dog_is_animal] tt = Ok (b, g').
Proof.
  refine (proj2 (create_batch_returns Examples.first_indices first_indices_ok
                   (Examples.small_sampler Examples.tree_first) [Examples.dog_is_animal]
                   tt 1 _ _ _) _).
  - intros i Hi. simpl in Hi.
    assert (i = 0 \/ i = 1 \/ i = 2 \/ i = 3 \/ i = 4)%nat as [->|[->|[->|[->| ->]]]] by lia;
      eexists _, _; (split; [vm_compute; reflexivity|]); split; vm_compute; reflexivity.
  - intros h Hh. apply list_elem_of_singleton in Hh as ->.
    split; eexists; (split; [vm_compute; reflexivity|reflexivity]).
  - left. discriminate.
  - vm_compute. lia.
Defined.

(** The negatives of [forest_sampler] for [oak_is_tree] have the distance
    [-2]. *)
Lemma non_hyponymy_samples_distance_witness :
  exists samples,
    NegSampler._create_non_hyponymy_samples_from_hyponymy_samples Examples.first_indices
      Examples.forest_sampler [Examples.oak_is_tree] 1 tt = Ok (samples, tt) /\
    samples <> [] /\
    Forall (fun sample => distance sample = (- (2))%Q) samples.
Proof.
  destruct (NegSampler._create_non_hyponymy_samples_from_hyponymy_samples
              Examples.first_indices Examples.forest_sampler [Examples.oak_is_tree] 1 tt)
    as [[samples []]|e] eqn:H; [|exfalso; vm_compute in H; discriminate H].
  exists samples. split; [reflexivity|]. split.
  - vm_compute in H. injection H as <-. discriminate.
  - exact (non_hyponymy_samples_distance Examples.first_indices Examples.forest_sampler
             _ _ _ _ _ _ eq_refl H).
Defined.

(** Construction with [B_e = 6], [B_r = 2] and [non_hyponymy_batch_size = 4]
    stores two negatives for each relation. *)
Lemma negative_sampler_constructed_witness :
  exists self printed,
    NegSampler.__init__ Examples.first_indices
      (Examples.vocabulary_source Examples.tree_first) Examples.animals
      6 2 (Some 4%Z) None "both" true true true false = Ok (self, printed) /\
    (_non_hyponymy_batch_size self = _non_hyponymy_multiple self * 2)%Z /\
    _non_hyponymy_batch_size self = 4%Z.
Proof.
  destruct (NegSampler.__init__ Examples.first_indices
              (Examples.vocabulary_source Examples.tree_first) Examples.animals
              6 2 (Some 4%Z) None "both" true true true false) as [[self printed]|e] eqn:H;
    [|exfalso; vm_compute in H; discriminate H].
  exists self, printed. split; [reflexivity|].
  destruct (negative_sampler_constructed Examples.first_indices _ _ _ _ _ _ _ _ _ _ _
              self printed H) as (_ & _ & _ & _ & Hn & Hm & _).
  split; [exact Hm|]. congruence.
Defined.

(** The batch of [dog_is_animal] over [tree_first] has three rows of one
    number. *)
Lemma create_batch_embeddings_witness :
  exists b, Sampler._create_batch_from_hyponymy_samples Examples.first_indices
      (Examples.small_sampler Examples.tree_first) [Examples.dog_is_animal] tt = Ok (b, tt) /\
    length (embedding b) = 3%nat /\
    Forall2 (fun tok row =>
               we_embedding (Examples.vocabulary_source Examples.tree_first) tok = Ok row)
            (entity b) (embedding b).
Proof.
  destruct (Sampler._create_batch_from_hyponymy_samples Examples.first_indices
              (Examples.small_sampler Examples.tree_first) [Examples.dog_is_animal] tt)
    as [[b []]|e] eqn:H; [|exfalso; vm_compute in H; discriminate H].
  exists b. split; [reflexivity|]. split.
  - vm_compute in H. injection H as <-. reflexivity.
  - exact (proj1 (create_batch_embeddings Examples.first_indices _ _ _ _ _ H)).
Defined.
